(** * ps2suitcase: the SAS timestamp planner

    A shallow embedding of [sas_timestamps.py] (and of its predecessor
    [SAS-TIMESTAMPS-V2.py]) together with the properties of the planning
    algorithm: name normalisation, category classification, the lexical
    encoder, slot assignment, the tie-break nudge and the two timelines.

    Conventions of the embedding:
    - a Python [str] is a [string], a sequence of code points below 256;
      [PyStr.strip] and [PyStr.upper] are [str.strip] and [str.upper] on
      ASCII strings (outside ASCII, Python knows more white space and
      more letters), and the statements that turn on white space or on
      letter case are about ASCII strings;
    - a Python [int] is a [Z]; a Python [float] is an IEEE 754 binary64
      number, a [spec_float] used at precision 53 and maximal exponent 1024;
    - a Python exception is the [Raise] case of [result];
    - the module-level globals that [main] rebinds are the fields of
      [Config]; what the interpreter reads from the machine it runs on
      is the record [Host]. *)

From Stdlib Require Import ZArith List String Ascii Bool Lia.
From Stdlib Require Import SpecFloat.
From Stdlib Require Import Permutation Sorted.
Import ListNotations.

Open Scope string_scope.
Open Scope Z_scope.

(** ** Python exceptions *)

Inductive exn : Type :=
  | KeyError
  | OverflowError
  | ValueError
  | ZeroDivisionError
  | OSError.

Inductive result (A : Type) : Type :=
  | Ok (a : A)
  | Raise (e : exn).

Arguments Ok {A} a.
Arguments Raise {A} e.

Definition bind {A B : Type} (r : result A) (k : A -> result B) : result B :=
  match r with
  | Ok a => k a
  | Raise e => Raise e
  end.

Notation "x <- r ;; k" := (bind r (fun x => k))
  (at level 61, r at next level, right associativity).

(** ** Strings: the [str] methods the planner calls *)

Module PyStr.

(** [str.isspace] on an ASCII character: TAB..CR, FS..US and the blank.
    (Outside ASCII, U+0085, U+00A0 and others are white space too.) *)
Definition is_space (c : ascii) : bool :=
  let n := nat_of_ascii c in
  ((9 <=? n) && (n <=? 13) || (28 <=? n) && (n <=? 32))%nat.

(** [str.upper] on an ASCII character. (Outside ASCII, [str.upper] also
    maps the small letters of other alphabets, some to two characters.) *)
Definition upper_char (c : ascii) : ascii :=
  let n := nat_of_ascii c in
  if ((97 <=? n) && (n <=? 122))%nat then ascii_of_nat (n - 32) else c.

Fixpoint upper (s : string) : string :=
  match s with
  | EmptyString => EmptyString
  | String c r => String (upper_char c) (upper r)
  end.

Fixpoint lstrip (s : string) : string :=
  match s with
  | EmptyString => EmptyString
  | String c r => if is_space c then lstrip r else s
  end.

Fixpoint rstrip (s : string) : string :=
  match s with
  | EmptyString => EmptyString
  | String c r =>
      match rstrip r with
      | EmptyString => if is_space c then EmptyString else String c EmptyString
      | r' => String c r'
      end
  end.

Definition strip (s : string) : string := rstrip (lstrip s).

(** [s.split(sep)] for a one-character separator. *)
Fixpoint split (sep : ascii) (s : string) : list string :=
  match s with
  | EmptyString => [EmptyString]
  | String c r =>
      if Ascii.eqb c sep then EmptyString :: split sep r
      else match split sep r with
           | h :: t => String c h :: t
           | [] => [String c EmptyString]
           end
  end.

(** [s.replace(c, "")] for a one-character pattern. *)
Fixpoint remove_char (x : ascii) (s : string) : string :=
  match s with
  | EmptyString => EmptyString
  | String c r =>
      if Ascii.eqb c x then remove_char x r else String c (remove_char x r)
  end.

Definition startswith (s p : string) : bool := String.prefix p s.

(** [s[n:]] *)
Fixpoint drop (n : nat) (s : string) : string :=
  match n, s with
  | O, _ => s
  | S n', EmptyString => EmptyString
  | S n', String _ r => drop n' r
  end.

(** [x in names] for a set of strings. *)
Definition mem (x : string) (names : list string) : bool :=
  existsb (String.eqb x) names.

End PyStr.

(** [enumerate(l)] *)
Definition enumerate {A : Type} (l : list A) : list (Z * A) :=
  combine (map Z.of_nat (seq 0 (List.length l))) l.

(** A [dict] built by a comprehension over distinct keys, as an
    association list. *)
Fixpoint dict_get {K V : Type} (eqb : K -> K -> bool)
    (d : list (K * V)) (k : K) : option V :=
  match d with
  | [] => None
  | (k', v) :: d' => if eqb k k' then Some v else dict_get eqb d' k
  end.

(** ** User configuration *)

Definition DEFAULT_SECONDS_BETWEEN_ITEMS : Z := 2.
Definition DEFAULT_SLOTS_PER_CATEGORY : Z := 43200.

Definition UNPREFIXED_IN_CATEGORY_CSV : list (string * string) :=
  [ ("APP_", "OSDXMB, XEBPLUS");
    ("APPS", "");
    ("PS1_", "");
    ("EMU_", "");
    ("GME_", "");
    ("DST_", "");
    ("DBG_", "");
    ("RAA_", "RESTART, POWEROFF");
    ("RTE_", "NEUTRINO");
    ("SYS_", "BOOT");
    ("ZZY_", "EXPLOITS");
    ("ZZZ_", "BM, MATRIXTEAM, OPL") ].

(** Category order (newest to oldest). *)
Definition CATEGORY_ORDER : list string :=
  [ "APP_"; "APPS"; "PS1_"; "EMU_"; "GME_"; "DST_"; "DBG_"; "RAA_"; "RTE_";
    "DEFAULT"; "SYS_"; "ZZY_"; "ZZZ_" ].

Definition _parse_csv (s : string) : list string :=
  if String.eqb s "" then []
  else map (fun x => PyStr.upper (PyStr.strip x))
           (filter (fun x => negb (String.eqb (PyStr.strip x) ""))
                   (PyStr.split "," s)).

Definition UNPREFIXED_MAP : list (string * list string) :=
  map (fun kv => (fst kv, _parse_csv (snd kv))) UNPREFIXED_IN_CATEGORY_CSV.

(** ** Python floats: IEEE 754 binary64 *)

Module Float64.

Definition prec : Z := 53.
Definition emax : Z := 1024.

Definition float : Type := spec_float.

Definition add : float -> float -> float := SFadd prec emax.
Definition mul : float -> float -> float := SFmul prec emax.

(** [float(n)] for an [int] [n]: the nearest float, ties to even;
    [OverflowError] when that would be an infinity. *)
Definition of_int (n : Z) : result float :=
  match binary_normalize prec emax n 0 false with
  | S754_infinity _ => Raise OverflowError
  | f => Ok f
  end.

(** [x / y]: float division raises on a zero divisor. *)
Definition truediv (x y : float) : result float :=
  match y with
  | S754_zero _ => Raise ZeroDivisionError
  | _ => Ok (SFdiv prec emax x y)
  end.

(** [int(x)]: truncation toward zero; infinities and NaN raise. *)
Definition to_int (x : float) : result Z :=
  match x with
  | S754_zero _ => Ok 0
  | S754_finite s m e => Ok (cond_Zopp s (Z.shiftl (Zpos m) e))
  | S754_infinity _ => Raise OverflowError
  | S754_nan => Raise ValueError
  end.

Definition zero : float := S754_zero false.
Definition one : float := SFone prec emax.

Definition ltb : float -> float -> bool := SFltb.

End Float64.

(** ** Category and name to slot mapping *)

Definition CHARSET : list ascii :=
  list_ascii_of_string " 0123456789ABCDEFGHIJKLMNOPQRSTUVWXYZ_-.".

Definition CHAR_INDEX : list (ascii * Z) :=
  map (fun ic => (snd ic, fst ic)) (enumerate CHARSET).

Definition BASE : Z := Z.of_nat (List.length CHARSET).

Definition CATEGORY_INDEX : list (string * Z) :=
  map (fun ic => (snd ic, fst ic)) (enumerate CATEGORY_ORDER).

Definition _effective_category_key (eff : string) : string :=
  if PyStr.startswith eff "APP_" then "APP_"
  else if String.eqb eff "APPS" then "APPS"
  else if PyStr.startswith eff "PS1_" then "PS1_"
  else if PyStr.startswith eff "EMU_" then "EMU_"
  else if PyStr.startswith eff "GME_" then "GME_"
  else if PyStr.startswith eff "DST_" then "DST_"
  else if PyStr.startswith eff "DBG_" then "DBG_"
  else if PyStr.startswith eff "RAA_" then "RAA_"
  else if PyStr.startswith eff "RTE_" then "RTE_"
  else if PyStr.startswith eff "SYS_" || String.eqb eff "SYS" then "SYS_"
  else if PyStr.startswith eff "ZZY_" then "ZZY_"
  else if PyStr.startswith eff "ZZZ_" then "ZZZ_"
  else "DEFAULT".

Definition _category_label_for_effective (eff : string) : string :=
  let key := _effective_category_key eff in
  if String.eqb key "DEFAULT" then "DEFAULT"
  else if String.eqb key "APPS" then key
  else key ++ "*".

(** Use only the part after the category key, ignoring dashes. *)
Definition _payload_for_effective (eff : string) : string :=
  let key := _effective_category_key eff in
  if String.eqb key "APPS" then "APPS"
  else if String.eqb key "DEFAULT" then PyStr.remove_char "-" eff
  else
    let payload :=
      if PyStr.startswith eff key then PyStr.drop (String.length key) eff
      else eff in
    PyStr.remove_char "-" payload.

(** [CHAR_INDEX.get(ch, BASE - 1)] *)
Definition CHAR_INDEX_get (ch : ascii) : Z :=
  match dict_get Ascii.eqb CHAR_INDEX ch with
  | Some i => i
  | None => BASE - 1
  end.

(** The body of the loop of [_lex_fraction], over the characters that
    are left, with the running [total] and [scale]. *)
Fixpoint lex_loop (chars : list ascii) (total scale : Float64.float)
    : result Float64.float :=
  match chars with
  | [] => Ok total
  | ch :: rest =>
      base <- Float64.of_int BASE ;;
      let scale := Float64.mul scale base in
      let code := CHAR_INDEX_get ch in
      num <- Float64.of_int (code + 1) ;;
      term <- Float64.truediv num scale ;;
      lex_loop rest (Float64.add total term) scale
  end.

(** Map payload string to a fraction, by its first 128 characters. *)
Definition _lex_fraction (payload : string) : result Float64.float :=
  let s := PyStr.upper payload in
  lex_loop (firstn 128 (list_ascii_of_string s)) Float64.zero Float64.one.

Definition _normalize_name_for_rules (name : string) : string :=
  let n := PyStr.upper (PyStr.strip name) in
  match find (fun kv => PyStr.mem n (snd kv)) UNPREFIXED_MAP with
  | Some (cat_key, _) =>
      if String.eqb cat_key "APPS" then "APPS" else cat_key ++ n
  | None =>
      if PyStr.mem n ["OSDXMB"; "XEBPLUS"] then "APP_" ++ n
      else if PyStr.mem n ["RESTART"; "POWEROFF"] then "RAA_" ++ n
      else if String.eqb n "NEUTRINO" then "RTE_" ++ n
      else if String.eqb n "BOOT" then "SYS_BOOT"
      else if String.eqb n "EXPLOITS" then "ZZY_EXPLOITS"
      else if PyStr.mem n ["BM"; "MATRIXTEAM"; "OPL"] then "ZZZ_" ++ n
      else n
  end.

Definition _category_priority_index (effective : string) : result Z :=
  let key := _effective_category_key effective in
  match dict_get String.eqb CATEGORY_INDEX key with
  | Some idx => Ok idx
  | None => Raise KeyError
  end.

(** The module globals that [main] rebinds before planning. *)
Record Config : Type := {
  SECONDS_BETWEEN_ITEMS : Z;
  SLOTS_PER_CATEGORY : Z;
  CATEGORY_BLOCK_SECONDS : Z;
  ENABLE_STABLE_NUDGE : bool
}.

Definition initial_globals : Config := {|
  SECONDS_BETWEEN_ITEMS := DEFAULT_SECONDS_BETWEEN_ITEMS;
  SLOTS_PER_CATEGORY := DEFAULT_SLOTS_PER_CATEGORY;
  CATEGORY_BLOCK_SECONDS :=
    DEFAULT_SLOTS_PER_CATEGORY * DEFAULT_SECONDS_BETWEEN_ITEMS;
  ENABLE_STABLE_NUDGE := false
|}.

Definition _recompute_spacing (seconds_between slots_per_category : Z)
    (g : Config) : Config := {|
  SECONDS_BETWEEN_ITEMS := seconds_between;
  SLOTS_PER_CATEGORY := slots_per_category;
  CATEGORY_BLOCK_SECONDS := slots_per_category * seconds_between;
  ENABLE_STABLE_NUDGE := ENABLE_STABLE_NUDGE g
|}.

Definition set_stable_nudge (b : bool) (g : Config) : Config := {|
  SECONDS_BETWEEN_ITEMS := SECONDS_BETWEEN_ITEMS g;
  SLOTS_PER_CATEGORY := SLOTS_PER_CATEGORY g;
  CATEGORY_BLOCK_SECONDS := CATEGORY_BLOCK_SECONDS g;
  ENABLE_STABLE_NUDGE := b
|}.

Definition _slot_index_within_category (g : Config) (effective : string)
    : result Z :=
  let payload := _payload_for_effective effective in
  frac <- _lex_fraction payload ;;
  slots <- Float64.of_int (SLOTS_PER_CATEGORY g) ;;
  slot <- Float64.to_int (Float64.mul frac slots) ;;
  Ok (if SLOTS_PER_CATEGORY g <=? slot then SLOTS_PER_CATEGORY g - 1 else slot).

(** [ord(ch)] *)
Definition ord (ch : ascii) : Z := Z.of_nat (nat_of_ascii ch).

Fixpoint hash_loop (chars : list ascii) (h : Z) : Z :=
  match chars with
  | [] => h
  | ch :: rest =>
      let h := Z.lxor h (ord ch) in
      hash_loop rest (Z.land (h * 16777619) 4294967295)
  end.

(** Very small deterministic hash returning 0 or 1. *)
Definition _stable_hash01 (s : string) : Z :=
  Z.land (hash_loop (list_ascii_of_string s) 2166136261) 1.

(** Returns (offset_seconds, cat_idx, slot, effective_name). *)
Definition _deterministic_offset_seconds (g : Config) (folder_name : string)
    : result (Z * Z * Z * string) :=
  let eff := _normalize_name_for_rules folder_name in
  cat_idx <- _category_priority_index eff ;;
  slot <- _slot_index_within_category g eff ;;
  let nudge := if ENABLE_STABLE_NUDGE g then _stable_hash01 eff else 0 in
  let cat_offset := cat_idx * CATEGORY_BLOCK_SECONDS g in
  let name_offset := slot * SECONDS_BETWEEN_ITEMS g + nudge in
  Ok (cat_offset + name_offset, cat_idx, slot, eff).

(** ** Dates and times: the part of [datetime] the planner uses *)

Module PyTime.

(** An aware [datetime]: the calendar fields of its own clock, counted
    in seconds from the start of ordinal day 0 (0001-01-01 is ordinal
    day 1), the microsecond field, and the offset of its [tzinfo] in
    seconds east of UTC. *)
Record datetime : Type := {
  wall : Z;
  microsecond : Z;
  utcoffset : Z
}.

Definition is_leap (year : Z) : bool :=
  (year mod 4 =? 0) && (negb (year mod 100 =? 0) || (year mod 400 =? 0)).

Definition _days_before_year (year : Z) : Z :=
  let y := year - 1 in
  y * 365 + y / 4 - y / 100 + y / 400.

Definition _DAYS_BEFORE_MONTH : list Z :=
  [0; 0; 31; 59; 90; 120; 151; 181; 212; 243; 273; 304; 334].

Definition _days_before_month (year month : Z) : Z :=
  nth (Z.to_nat month) _DAYS_BEFORE_MONTH 0
  + (if (2 <? month) && is_leap year then 1 else 0).

Definition _ymd2ord (year month day : Z) : Z :=
  _days_before_year year + _days_before_month year month + day.

(** The seconds count of the calendar fields. *)
Definition fields (year month day hour minute second : Z) : Z :=
  _ymd2ord year month day * 86400 + hour * 3600 + minute * 60 + second.

(** [datetime.min] and [datetime.max], whole seconds. *)
Definition MIN_WALL : Z := fields 1 1 1 0 0 0.
Definition MAX_WALL : Z := fields 9999 12 31 23 59 59.

Definition EPOCH_WALL : Z := fields 1970 1 1 0 0 0.

(** The whole seconds of [dt.timestamp()], the seconds since the epoch:
    the microsecond field is not counted. For a whole-second datetime
    (all valid ones are below 2**53 in magnitude) the float that
    [dt.timestamp()] returns is exactly this integer. *)
Definition timestamp (dt : datetime) : Z :=
  wall dt - utcoffset dt - EPOCH_WALL.

Definition second (dt : datetime) : Z := wall dt mod 60.

Definition replace_microsecond (dt : datetime) (us : Z) : datetime :=
  {| wall := wall dt; microsecond := us; utcoffset := utcoffset dt |}.

Definition replace_tzinfo (dt : datetime) (off : Z) : datetime :=
  {| wall := wall dt; microsecond := microsecond dt; utcoffset := off |}.

(** [timedelta(seconds=n)]: at most 999999999 days either way. *)
Definition timedelta_seconds (n : Z) : result Z :=
  if (n / 86400 <? -999999999) || (999999999 <? n / 86400)
  then Raise OverflowError else Ok n.

(** [dt + delta]: on the calendar fields, which must stay in range. *)
Definition add (dt : datetime) (delta : Z) : result datetime :=
  let w := wall dt + delta in
  if (w <? MIN_WALL) || (MAX_WALL <? w) then Raise OverflowError
  else Ok {| wall := w; microsecond := microsecond dt;
             utcoffset := utcoffset dt |}.

(** [dt.astimezone(timezone.utc)] *)
Definition astimezone_utc (dt : datetime) : result datetime :=
  let w := wall dt - utcoffset dt in
  if (w <? MIN_WALL) || (MAX_WALL <? w) then Raise OverflowError
  else Ok {| wall := w; microsecond := microsecond dt; utcoffset := 0 |}.

(** The order of aware datetimes is the order of their instants. *)
Definition ltb (a b : datetime) : bool :=
  (timestamp a <? timestamp b)
  || ((timestamp a =? timestamp b) && (microsecond a <? microsecond b)).

End PyTime.

(** What the interpreter takes from the machine it runs on: the current
    offset of the local time zone (seconds east of UTC), which
    [datetime.now().astimezone().tzinfo] carries, and the range of
    timestamps the platform's [gmtime] converts (from 0 where negative
    timestamps are refused; up to 2**31 - 1 where [time_t] has 32 bits). *)
Record Host : Type := {
  local_utcoffset : Z;
  gmtime_min : Z;
  gmtime_max : Z
}.

(** [datetime.fromtimestamp(t, tz=timezone.utc)] for a whole number of
    seconds [t]. Which exception reports a timestamp out of range
    depends on the platform; no caller tells them apart. *)
Definition fromtimestamp_utc (h : Host) (t : Z) : result PyTime.datetime :=
  if (t <? gmtime_min h) || (gmtime_max h <? t) then Raise OSError
  else
    let w := t + PyTime.EPOCH_WALL in
    if (w <? PyTime.MIN_WALL) || (PyTime.MAX_WALL <? w) then Raise ValueError
    else Ok {| PyTime.wall := w; PyTime.microsecond := 0;
               PyTime.utcoffset := 0 |}.

(** ** Timestamp planners *)

Inductive timeline : Type :=
  | local_forward
  | fixed_utc.

Definition FIXED_BASE_UTC : PyTime.datetime := {|
  PyTime.wall := PyTime.fields 2099 1 1 7 59 59;
  PyTime.microsecond := 0;
  PyTime.utcoffset := 0
|}.

(** The local anchor datetime of the forward timeline. *)
Definition _anchor_local_datetime (h : Host) : PyTime.datetime :=
  let local_naive := {| PyTime.wall := PyTime.fields 2098 12 31 0 0 0;
                        PyTime.microsecond := 0;
                        PyTime.utcoffset := 0 |} in
  PyTime.replace_tzinfo local_naive (local_utcoffset h).

(** One planned entry, without the raw name:
    (utc_dt, effective_name, category_label, cat_idx, slot_idx, offset_sec). *)
Record planned : Type := {
  ts_utc : PyTime.datetime;
  eff_name : string;
  cat_label : string;
  cat_idx : Z;
  slot_idx : Z;
  offset_sec : Z
}.

Definition _planned_timestamp_for_folder (h : Host) (g : Config)
    (folder_name : string) (tl : timeline) : result planned :=
  r <- _deterministic_offset_seconds g folder_name ;;
  let '(offset_sec, cat_idx, slot_idx, eff) := r in
  ts <- match tl with
        | fixed_utc =>
            let base_utc := FIXED_BASE_UTC in
            (* float minus int: exact whenever the difference is a valid
               timestamp, out of range on both sides otherwise *)
            fromtimestamp_utc h (PyTime.timestamp base_utc - offset_sec)
        | local_forward =>
            let anchor_local := _anchor_local_datetime h in
            delta <- PyTime.timedelta_seconds offset_sec ;;
            planned_local <- PyTime.add anchor_local delta ;;
            PyTime.astimezone_utc planned_local
        end ;;
  Ok {| ts_utc := ts; eff_name := eff;
        cat_label := _category_label_for_effective eff;
        cat_idx := cat_idx; slot_idx := slot_idx; offset_sec := offset_sec |}.

(** ** FAT-safe snapping *)

(** Force timestamp to an even second and zero microseconds. *)
Definition _snap_even_second (dt : PyTime.datetime) : result PyTime.datetime :=
  let dt := PyTime.replace_microsecond dt 0 in
  if PyTime.second dt mod 2 =? 1 then
    delta <- PyTime.timedelta_seconds 1 ;;
    PyTime.add dt delta
  else Ok dt.

(** ** The plan builder of [main] *)

(** The command-line options that reach the planner. *)
Record Args : Type := {
  fat_safe : bool;
  ps2_bias_seconds : Z;
  arg_timeline : timeline;
  seconds_between_items : Z;
  slots_per_category : Z;
  stable_nudge : bool
}.

Definition with_ts (p : planned) (ts : PyTime.datetime) : planned := {|
  ts_utc := ts; eff_name := eff_name p; cat_label := cat_label p;
  cat_idx := cat_idx p; slot_idx := slot_idx p; offset_sec := offset_sec p
|}.

(** The [try] block up to the PS2 bias: the instant that is computed
    for one root folder, before any snapping. *)
Definition computed_instant (h : Host) (g : Config) (args : Args)
    (name : string) : result planned :=
  p <- _planned_timestamp_for_folder h g name (arg_timeline args) ;;
  ts <- (if ps2_bias_seconds args =? 0 then Ok (ts_utc p)
         else delta <- PyTime.timedelta_seconds (ps2_bias_seconds args) ;;
              PyTime.add (ts_utc p) delta) ;;
  Ok (with_ts p ts).

(** The body of the [try] block, for one root folder. *)
Definition plan_try (h : Host) (g : Config) (args : Args) (name : string)
    : result planned :=
  p <- computed_instant h g args name ;;
  ts <- (if fat_safe args then _snap_even_second (ts_utc p)
         else Ok (ts_utc p)) ;;
  Ok (with_ts p ts).

(** A plan entry: the raw name with what was planned for it. *)
Definition entry : Type := (string * planned)%type.

(** The state of the planning loop: the plan so far and the warnings
    printed so far (the name that failed and the exception). *)
Fixpoint plan_loop (attempt : string -> result planned) (names : list string)
    (plan : list entry) (warnings : list (string * exn))
    : list entry * list (string * exn) :=
  match names with
  | [] => (plan, warnings)
  | name :: rest =>
      match attempt name with
      | Raise e => plan_loop attempt rest plan (warnings ++ [(name, e)])
      | Ok p => plan_loop attempt rest (plan ++ [(name, p)]) warnings
      end
  end.

(** The globals after [main] has read its options; [None] is
    [sys.exit(1)]. *)
Definition main_globals (args : Args) : option Config :=
  if seconds_between_items args <=? 0 then None
  else if slots_per_category args <=? 0 then None
  else Some (set_stable_nudge (stable_nudge args)
               (_recompute_spacing (seconds_between_items args)
                  (slots_per_category args) initial_globals)).

(** The planning loop of [main] from the empty plan. *)
Definition planning_pass (h : Host) (g : Config) (args : Args)
    (root_folders : list string) : list entry * list (string * exn) :=
  plan_loop (plan_try h g args) root_folders [] [].

(** [main], up to the plan: the entries and the warnings. *)
Definition main_plan (h : Host) (args : Args) (root_folders : list string)
    : option (list entry * list (string * exn)) :=
  match main_globals args with
  | None => None
  | Some g => Some (planning_pass h g args root_folders)
  end.

(** ** The dry-run writer's order *)

(** Insert after every entry that is not older: with [sort_newest_first]
    this is [sorted(plan, key=lambda x: x[1], reverse=True)], which keeps
    the input order of entries with equal instants. *)
Fixpoint insert_newest_first (x : entry) (l : list entry) : list entry :=
  match l with
  | [] => [x]
  | y :: l' =>
      if PyTime.ltb (ts_utc (snd y)) (ts_utc (snd x)) then x :: l
      else y :: insert_newest_first x l'
  end.

Definition sort_newest_first (plan : list entry) : list entry :=
  fold_left (fun acc x => insert_newest_first x acc) plan [].

(** ** The predecessor script, [SAS-TIMESTAMPS-V2.py]

    Its helpers are the ones above, word for word; its globals are
    constants, its nudge is always applied and its only timeline is the
    fixed one. *)

Module V2.

Definition SECONDS_BETWEEN_ITEMS : Z := 1.
Definition SLOTS_PER_CATEGORY : Z := 86400.
Definition CATEGORY_BLOCK_SECONDS : Z :=
  SLOTS_PER_CATEGORY * SECONDS_BETWEEN_ITEMS.

(** The globals of this script, in the order of the fields of
    [Config]; the nudge is not optional here. *)
Definition globals : Config :=
  Build_Config SECONDS_BETWEEN_ITEMS SLOTS_PER_CATEGORY
    CATEGORY_BLOCK_SECONDS true.

Definition _deterministic_offset_seconds (folder_name : string)
    : result (Z * Z * Z * string) :=
  let eff := _normalize_name_for_rules folder_name in
  cat_idx <- _category_priority_index eff ;;
  slot <- _slot_index_within_category globals eff ;;
  let nudge := _stable_hash01 eff in
  let cat_offset := cat_idx * CATEGORY_BLOCK_SECONDS in
  let name_offset := slot * SECONDS_BETWEEN_ITEMS + nudge in
  Ok (cat_offset + name_offset, cat_idx, slot, eff).

Definition _base_datetime_utc : PyTime.datetime := FIXED_BASE_UTC.

Definition _planned_timestamp_for_folder (h : Host) (folder_name : string)
    : result planned :=
  let base_utc := _base_datetime_utc in
  r <- _deterministic_offset_seconds folder_name ;;
  let '(offset_sec, cat_idx, slot_idx, eff) := r in
  ts <- fromtimestamp_utc h (PyTime.timestamp base_utc - offset_sec) ;;
  Ok {| ts_utc := ts; eff_name := eff;
        cat_label := _category_label_for_effective eff;
        cat_idx := cat_idx; slot_idx := slot_idx;
        offset_sec := offset_sec |}.

Definition main_plan (h : Host) (root_folders : list string)
    : list entry * list (string * exn) :=
  plan_loop (_planned_timestamp_for_folder h) root_folders [] [].

End V2.

(** ** The order on payloads that the encoder is meant to respect

    The words of the specification: payloads are compared
    lexicographically by the position of their characters in the
    alphabet, without regard to case, over their first 128 characters,
    a character outside the alphabet counting as the last one. *)

Definition alphabet_codes (payload : string) : list Z :=
  map CHAR_INDEX_get
      (firstn 128 (list_ascii_of_string (PyStr.upper payload))).

Fixpoint lex_ltb (a b : list Z) : bool :=
  match a, b with
  | _, [] => false
  | [], _ :: _ => true
  | x :: a', y :: b' => (x <? y) || ((x =? y) && lex_ltb a' b')
  end.

Definition payload_ltb (pa pb : string) : bool :=
  lex_ltb (alphabet_codes pa) (alphabet_codes pb).

(** ** Hosts and options used in the examples *)

(** A machine on UTC whose [gmtime] takes every timestamp of the
    [datetime] range. *)
Definition utc_host : Host := {|
  local_utcoffset := 0;
  gmtime_min := PyTime.MIN_WALL - PyTime.EPOCH_WALL;
  gmtime_max := PyTime.MAX_WALL - PyTime.EPOCH_WALL
|}.

(** A machine in a time zone that keeps daylight saving time, on the
    day of a run: the offset that [datetime.now().astimezone().tzinfo]
    carries is the one in force on that day, an hour more than the
    standard one on a summer day. *)
Definition host_on_run_day (standard_utcoffset : Z) (summer_time : bool)
    : Host := {|
  local_utcoffset := standard_utcoffset + (if summer_time then 3600 else 0);
  gmtime_min := 0;
  gmtime_max := 32535215999
|}.

(** The defaults of the command line, on the given timeline. *)
Definition default_args (tl : timeline) : Args := {|
  fat_safe := false;
  ps2_bias_seconds := 0;
  arg_timeline := tl;
  seconds_between_items := DEFAULT_SECONDS_BETWEEN_ITEMS;
  slots_per_category := DEFAULT_SLOTS_PER_CATEGORY;
  stable_nudge := false
|}.

(** ** Notions used in the statements *)

(** The globals that [main] installs for the given options. *)
Definition configured (sec slots : Z) (nudge : bool) : Config :=
  set_stable_nudge nudge (_recompute_spacing sec slots initial_globals).

(** The nudge that [_deterministic_offset_seconds] adds. *)
Definition nudge_of (g : Config) (eff : string) : Z :=
  if ENABLE_STABLE_NUDGE g then _stable_hash01 eff else 0.

(** The entries of the names whose attempt succeeds, and the warnings
    of those whose attempt raises, both in the order of the input. *)
Definition entries_of (attempt : string -> result planned)
    (names : list string) : list entry :=
  flat_map (fun name => match attempt name with
                        | Ok p => [(name, p)]
                        | Raise _ => []
                        end) names.

Definition warnings_of (attempt : string -> result planned)
    (names : list string) : list (string * exn) :=
  flat_map (fun name => match attempt name with
                        | Ok _ => []
                        | Raise e => [(name, e)]
                        end) names.

(** Options with a spacing so wide that the later categories leave the
    range of [datetime] on the fixed timeline. *)
Definition wide_args : Args := {|
  fat_safe := false;
  ps2_bias_seconds := 0;
  arg_timeline := fixed_utc;
  seconds_between_items := 1000000;
  slots_per_category := 43200;
  stable_nudge := false
|}.

(** A planning pass [run] over the per-name computation [attempt]
    tolerates failures: its plan holds exactly the entries of the names
    whose attempt succeeds, its warnings exactly the names whose attempt
    raises, and a failing name changes nothing in the plan. *)
Definition failure_tolerant (attempt : string -> result planned)
    (run : list string -> list entry * list (string * exn)) : Prop :=
  forall names : list string,
    (forall name p,
       In (name, p) (fst (run names)) <->
       In name names /\ attempt name = Ok p)
    /\ (forall name e,
          In (name, e) (snd (run names)) <->
          In name names /\ attempt name = Raise e)
    /\ (forall (before : list string) (bad : string) (after : list string)
               (e : exn),
          names = (before ++ bad :: after)%list -> attempt bad = Raise e ->
          fst (run names) = fst (run (before ++ after)%list)).

(** ** Invariants of the float computations *)

(** A float that is [+0.0], or positive and below [2^k], with an
    exponent that is at most [k]. *)
Definition nonneg_lt_pow2 (k : Z) (x : Float64.float) : Prop :=
  match x with
  | S754_zero false => True
  | S754_finite false m e => Z.pos (digits2_pos m) + e <= k /\ e <= k
  | _ => False
  end.

(** A float that is not negative, if it is a number at all. *)
Definition not_negative (x : Float64.float) : Prop :=
  match x with
  | S754_zero s | S754_finite s _ _ | S754_infinity s => s = false
  | S754_nan => True
  end.

(** The check of one term of the encoder's sum: positive and at most 1. *)
Definition small_term (t : Float64.float) : bool :=
  match t with
  | S754_finite false m e => (Z.pos (digits2_pos m) + e <=? 1) && (e <=? 1)
  | _ => false
  end.

(** Every digit value [1..40] divided by [scale] is a small term. *)
Definition terms_ok (scale : Float64.float) : bool :=
  forallb (fun c => match Float64.of_int c with
                    | Ok num => match Float64.truediv num scale with
                                | Ok t => small_term t
                                | Raise _ => false
                                end
                    | Raise _ => false
                    end)
          (map Z.of_nat (seq 1 40)).

(** The same for the next [n] values that [scale] takes in the loop. *)
Fixpoint scales_ok (n : nat) (scale : Float64.float) : bool :=
  match n with
  | O => true
  | S n' =>
      match Float64.of_int BASE with
      | Ok base =>
          let scale' := Float64.mul scale base in
          terms_ok scale' && scales_ok n' scale'
      | Raise _ => false
      end
  end.

(** ** Notions used in the further properties *)

(** Whether a string is ASCII. On ASCII strings [PyStr.strip] and
    [PyStr.upper] are exactly [str.strip] and [str.upper]. *)
Fixpoint ascii_only (s : string) : bool :=
  match s with
  | EmptyString => true
  | String c r => (nat_of_ascii c <? 128)%nat && ascii_only r
  end.

(** A string that does not start with white space. *)
Definition no_leading_space (s : string) : Prop :=
  match s with
  | EmptyString => True
  | String c _ => PyStr.is_space c = false
  end.

(** A string of white space only. *)
Fixpoint all_space (s : string) : bool :=
  match s with
  | EmptyString => true
  | String c r => PyStr.is_space c && all_space r
  end.

(** The categories that are recognised by their prefix alone. *)
Definition PREFIX_KEYS : list string :=
  [ "APP_"; "PS1_"; "EMU_"; "GME_"; "DST_"; "DBG_"; "RAA_"; "RTE_";
    "ZZY_"; "ZZZ_" ].

(** The instant of a datetime, in microseconds since the epoch. *)
Definition instant_us (dt : PyTime.datetime) : Z :=
  PyTime.timestamp dt * 1000000 + PyTime.microsecond dt.

(** The key of the sort: the instant, to the microsecond. *)
Definition instant_key (e : entry) : Z * Z :=
  (PyTime.timestamp (ts_utc (snd e)), PyTime.microsecond (ts_utc (snd e))).

(** [a] is not older than [b]. *)
Definition not_older (a b : entry) : Prop :=
  PyTime.ltb (ts_utc (snd a)) (ts_utc (snd b)) = false.

(** Whether the instant of an entry is the given one. *)
Definition at_instant (k : Z * Z) (e : entry) : bool :=
  (fst (instant_key e) =? fst k) && (snd (instant_key e) =? snd k).

(** Whether an attempt succeeds. *)
Definition succeeds (attempt : string -> result planned) (name : string)
    : bool :=
  match attempt name with Ok _ => true | Raise _ => false end.

(** The options under which [sas_timestamps.py] is meant to match
    [SAS-TIMESTAMPS-V2.py]. *)
Definition v2_args : Args := {|
  fat_safe := false;
  ps2_bias_seconds := 0;
  arg_timeline := fixed_utc;
  seconds_between_items := 1;
  slots_per_category := 86400;
  stable_nudge := true
|}.

(** ** FILETIME conversion *)

(** [a / b] for two [int]s ([long_true_divide]): the quotient of the
    integers, rounded once to the nearest float, ties to even. The
    divider of binary64 is run on the two integers as they are. *)
Definition int_truediv (a b : Z) : result Float64.float :=
  match a, b with
  | _, Z0 => Raise ZeroDivisionError
  | Z0, _ => Ok (S754_zero (b <? 0))
  | _, _ =>
      match SFdiv Float64.prec Float64.emax
              (S754_finite (a <? 0) (Z.to_pos (Z.abs a)) 0)
              (S754_finite (b <? 0) (Z.to_pos (Z.abs b)) 0) with
      | S754_infinity _ => Raise OverflowError
      | f => Ok f
      end
  end.

(** [dt.timestamp()] of an aware datetime, as the float it is:
    [(dt - _EPOCH).total_seconds()], the microseconds of the difference
    over [10**6]. *)
Definition timestamp_float (dt : PyTime.datetime) : result Float64.float :=
  int_truediv (PyTime.timestamp dt * 10 ^ 6 + PyTime.microsecond dt) (10 ^ 6).

Definition _EPOCH_AS_FILETIME : Z := 11644473600.
Definition _HUNDREDS_OF_NS : Z := 10000000.

(** [ctypes.c_uint32]: any [int] is taken, and truncated to 32 bits. *)
Definition c_uint32 (n : Z) : Z := n mod 2 ^ 32.

Record FILETIME : Type := {
  dwLowDateTime : Z;
  dwHighDateTime : Z
}.

Definition _dt_to_filetime (dt_utc : PyTime.datetime) : result FILETIME :=
  unix_seconds <- timestamp_float dt_utc ;;
  epoch <- Float64.of_int _EPOCH_AS_FILETIME ;;
  hundreds <- Float64.of_int _HUNDREDS_OF_NS ;;
  ft <- Float64.to_int
          (Float64.mul (Float64.add unix_seconds epoch) hundreds) ;;
  Ok {| dwLowDateTime := c_uint32 (Z.land ft 0xFFFFFFFF);
        dwHighDateTime := c_uint32 (Z.shiftr ft 32) |}.

(** ** Notions used in the statements about FILETIME *)

(** The 64-bit count of 100 ns intervals since 1601-01-01 that a
    [FILETIME] denotes. *)
Definition filetime_value (ft : FILETIME) : Z :=
  dwLowDateTime ft + 2 ^ 32 * dwHighDateTime ft.

(** The float [f] is the integer [z], exactly. *)
Definition float_is (f : spec_float) (z : Z) : Prop :=
  match f with
  | S754_zero _ => z = 0
  | S754_finite s m e => e <= 0 /\ cond_Zopp s (Z.pos m) = z * 2 ^ (- e)
  | _ => False
  end.

(** ** Setting the times (Windows) *)

Definition GENERIC_WRITE : Z := 0x40000000.
Definition FILE_SHARE_READ : Z := 0x00000001.
Definition FILE_SHARE_WRITE : Z := 0x00000002.
Definition FILE_SHARE_DELETE : Z := 0x00000004.
Definition OPEN_EXISTING : Z := 3.
Definition FILE_FLAG_BACKUP_SEMANTICS : Z := 0x02000000.

(** The system as the script meets it, on a state that the script
    knows nothing about. The three [kernel32] functions as [ctypes]
    presents them: [CreateFileW] (path, access, share mode, disposition,
    flags) returns the handle as an [int], or [None] for a null pointer;
    [SetFileTime] (handle, creation, access and write time) returns
    whether it succeeded; the result of [CloseHandle] is not looked at.
    [c_void_p_minus_1] is [ctypes.c_void_p(-1).value], which depends on
    the pointer width. And standard output: [print_stdout kind text] is
    a [print] of a line with the evaluation of its text, which returns
    or raises (an encoding error on a redirected console, a closed pipe,
    a time that the C library cannot format). A line to standard error
    is taken to be written. *)
Record Win32 (World : Type) : Type := {
  CreateFileW : string -> Z -> Z -> Z -> Z -> World -> option Z * World;
  SetFileTime : Z -> FILETIME -> FILETIME -> FILETIME -> World
                -> bool * World;
  CloseHandle : Z -> World -> World;
  c_void_p_minus_1 : Z;
  print_stdout : string -> string -> World -> option exn * World
}.

Arguments CreateFileW {World}.
Arguments SetFileTime {World}.
Arguments CloseHandle {World}.
Arguments c_void_p_minus_1 {World}.
Arguments print_stdout {World}.

(** What a run does that can be seen from outside: the calls, with their
    answers, and the lines printed ([Stdout] for a line of a verbose run
    that was printed, [Stderr] for the warnings), each with the kind of
    path it is about. *)
Inductive event : Type :=
  | Called_CreateFileW (path : string) (handle : option Z)
  | Called_SetFileTime (handle : Z) (creation access write : FILETIME)
                       (ok : bool)
  | Called_CloseHandle (handle : Z)
  | Stdout (kind path : string)
  | Stderr (kind path : string) (e : exn).

Definition _set_times_windows {World : Type} (os : Win32 World)
    (path : string) (dt_utc : PyTime.datetime) (w : World)
    : result unit * list event * World :=
  let '(handle, w) :=
    CreateFileW os path GENERIC_WRITE
      (Z.lor (Z.lor FILE_SHARE_READ FILE_SHARE_WRITE) FILE_SHARE_DELETE)
      OPEN_EXISTING FILE_FLAG_BACKUP_SEMANTICS w in
  let opened := Called_CreateFileW path handle in
  match handle with
  | None => (Raise OSError, [opened], w)
  | Some hd =>
      if hd =? c_void_p_minus_1 os then (Raise OSError, [opened], w)
      else
        (* try ... finally: CloseHandle(handle) *)
        let '(r, calls, w) :=
          match _dt_to_filetime dt_utc with
          | Raise e => (Raise e, [], w)
          | Ok ft =>
              let '(ok, w) := SetFileTime os hd ft ft ft w in
              (if ok then Ok tt else Raise OSError,
               [Called_SetFileTime hd ft ft ft ok], w)
          end in
        (r, ((opened :: calls) ++ [Called_CloseHandle hd])%list,
         CloseHandle os hd w)
  end.

(** The [try] block that the walk has three times, for a file, a
    directory and the root: set the times and, when verbose, print a
    line, both inside the [try]; any exception of the two becomes a
    warning. *)
Definition try_set_times {World : Type} (os : Win32 World)
    (dt_utc : PyTime.datetime) (verbose : bool)
    (st : list event * World) (kind path : string)
    : list event * World :=
  let '(r, calls, w) := _set_times_windows os path dt_utc (snd st) in
  let '(r, printed, w) :=
    match r with
    | Ok _ =>
        if verbose then
          let '(raised, w) := print_stdout os kind path w in
          match raised with
          | None => (Ok tt, [Stdout kind path], w)
          | Some e => (Raise e, [], w)
          end
        else (Ok tt, [], w)
    | Raise e => (Raise e, [], w)
    end in
  ((fst st ++ calls ++ printed
      ++ match r with
         | Ok _ => []
         | Raise e => [Stderr kind path e]
         end)%list,
   w).

(** ** Walk and set *)

(** What [os.walk] sees below a directory: files (whatever is not a
    directory), and directories with their listing, which is [None]
    where the walk does not go: a directory that cannot be listed
    ([onerror] is not set) or a link to a directory ([followlinks] is
    not set). The tree is taken as it is during the walk; setting times
    does not change it. *)
Inductive fs_entry : Type :=
  | fs_file (name : string)
  | fs_dir (name : string) (listing : option (list fs_entry)).

Definition entry_name (e : fs_entry) : string :=
  match e with fs_file n => n | fs_dir n _ => n end.

Definition filenames (es : list fs_entry) : list string :=
  flat_map (fun e => match e with fs_file n => [n] | fs_dir _ _ => [] end) es.

Definition dirnames (es : list fs_entry) : list string :=
  flat_map (fun e => match e with fs_file _ => [] | fs_dir n _ => [n] end) es.

(** [os.walk(top)], top down: the triples [(dirpath, dirnames,
    filenames)], a directory before its sub-directories. [join] is
    [os.path.join]. *)
Fixpoint os_walk (join : string -> string -> string) (top : string)
    (e : fs_entry) : list (string * list string * list string) :=
  match e with
  | fs_file _ => []
  | fs_dir _ None => []
  | fs_dir _ (Some es) =>
      (top, dirnames es, filenames es)
        :: flat_map (fun c => match c with
                              | fs_file _ => []
                              | fs_dir n _ => os_walk join (join top n) c
                              end) es
  end.

(** [tree] is what is at [root_folder]. *)
Definition _set_folder_and_contents_times {World : Type} (os : Win32 World)
    (join : string -> string -> string) (tree : fs_entry)
    (root_folder : string) (dt_utc : PyTime.datetime) (verbose : bool)
    (w : World) : list event * World :=
  let st :=
    fold_left
      (fun st '(dirpath, dirnames, filenames) =>
         let st :=
           fold_left (fun st fname =>
                        let fpath := join dirpath fname in
                        try_set_times os dt_utc verbose st "file" fpath)
                     filenames st in
         fold_left (fun st dname =>
                      let dpath := join dirpath dname in
                      try_set_times os dt_utc verbose st "dir" dpath)
                   dirnames st)
      (os_walk join root_folder tree) ([], w) in
  try_set_times os dt_utc verbose st "ROOT" root_folder.

(** ** Notions used in the statements about the walk *)

(** The paths that were opened, or tried, in the order of the calls. *)
Definition opened_paths (log : list event) : list string :=
  flat_map (fun e => match e with
                     | Called_CreateFileW p _ => [p]
                     | _ => []
                     end) log.

(** Every path below a directory, each entry followed by what is
    inside it. *)
Fixpoint all_paths (join : string -> string -> string) (top : string)
    (e : fs_entry) : list string :=
  match e with
  | fs_file _ => []
  | fs_dir _ None => []
  | fs_dir _ (Some es) =>
      flat_map (fun c => join top (entry_name c)
                         :: all_paths join (join top (entry_name c)) c) es
  end.

(** The attempts of a walk, in order: the kind and the path of each. *)
Definition walk_attempts (join : string -> string -> string) (top : string)
    (e : fs_entry) : list (string * string) :=
  flat_map (fun '(dirpath, dirnames, filenames) =>
              (map (fun fname => ("file", join dirpath fname)) filenames
               ++ map (fun dname => ("dir", join dirpath dname)) dirnames)%list)
           (os_walk join top e).

Definition run_attempts {World : Type} (os : Win32 World)
    (dt_utc : PyTime.datetime) (verbose : bool)
    (attempts : list (string * string)) (st : list event * World)
    : list event * World :=
  fold_left (fun st a => try_set_times os dt_utc verbose st (fst a) (snd a))
            attempts st.

(** The discipline of the handles, as a property of the log: a call of
    [CreateFileW] that gives no handle, or the invalid one, is followed
    by no call on it; a handle that is given is used for at most one
    [SetFileTime], with the three times equal to the conversion of the
    instant, and is closed before anything else is opened. *)
Inductive disciplined (invalid : Z) (dt_utc : PyTime.datetime)
    : list event -> Prop :=
  | disciplined_nil : disciplined invalid dt_utc []
  | disciplined_stdout kind path log :
      disciplined invalid dt_utc log ->
      disciplined invalid dt_utc (Stdout kind path :: log)
  | disciplined_stderr kind path e log :
      disciplined invalid dt_utc log ->
      disciplined invalid dt_utc (Stderr kind path e :: log)
  | disciplined_refused path log :
      disciplined invalid dt_utc log ->
      disciplined invalid dt_utc (Called_CreateFileW path None :: log)
  | disciplined_invalid path log :
      disciplined invalid dt_utc log ->
      disciplined invalid dt_utc
        (Called_CreateFileW path (Some invalid) :: log)
  | disciplined_unconverted path hd e log :
      hd <> invalid -> _dt_to_filetime dt_utc = Raise e ->
      disciplined invalid dt_utc log ->
      disciplined invalid dt_utc
        (Called_CreateFileW path (Some hd) :: Called_CloseHandle hd :: log)
  | disciplined_set path hd ft ok log :
      hd <> invalid -> _dt_to_filetime dt_utc = Ok ft ->
      disciplined invalid dt_utc log ->
      disciplined invalid dt_utc
        (Called_CreateFileW path (Some hd)
           :: Called_SetFileTime hd ft ft ft ok
           :: Called_CloseHandle hd :: log).

Definition is_success (e : event) : bool :=
  match e with Called_SetFileTime _ _ _ _ true => true | _ => false end.

Definition is_warning (e : event) : bool :=
  match e with Stderr _ _ _ => true | _ => false end.

Definition is_stdout (e : event) : bool :=
  match e with Stdout _ _ => true | _ => false end.

(** The lines printed, as (kind, path). *)
Definition reports (log : list event) : list (string * string) :=
  flat_map (fun e => match e with
                     | Stdout k p => [(k, p)]
                     | Stderr k p _ => [(k, p)]
                     | _ => []
                     end) log.

(** Whether an event, if it is a call of [SetFileTime], sets the three
    times to one and the same count [v] of 100 ns intervals. *)
Definition stamp_is (v : Z) (e : event) : Prop :=
  match e with
  | Called_SetFileTime _ creation access write _ =>
      creation = access /\ access = write /\ filetime_value creation = v
  | _ => True
  end.

(** A system on which every call succeeds, with one handle. *)
Definition obliging : Win32 unit := {|
  CreateFileW := fun _ _ _ _ _ w => (Some 4, w);
  SetFileTime := fun _ _ _ _ w => (true, w);
  CloseHandle := fun _ w => w;
  c_void_p_minus_1 := 2 ^ 64 - 1;
  print_stdout := fun _ _ w => (None, w)
|}.

(** ** The last loop of [main] *)




(** ** Notions used in the statements about the order of the walk *)

(** [inside join top e p c]: the entry [c] is found at the path [p]
    somewhere below the directory [e], which is at the path [top]. *)
Inductive inside (join : string -> string -> string)
    : string -> fs_entry -> string -> fs_entry -> Prop :=
  | inside_here top n es c :
      In c es ->
      inside join top (fs_dir n (Some es)) (join top (entry_name c)) c
  | inside_below top n es c p d :
      In c es ->
      inside join (join top (entry_name c)) c p d ->
      inside join top (fs_dir n (Some es)) p d.

(** [a] occurs in [l] before an occurrence of [b]. *)
Definition before (l : list string) (a b : string) : Prop :=
  exists l1 l2 l3, l = (l1 ++ a :: l2 ++ b :: l3)%list.

(** * Properties *)

(** ** Binary64 arithmetic: signs and magnitudes *)

Lemma digits2_pos_size (p : positive) : digits2_pos p = Pos.size p.
Proof. induction p; simpl; congruence. Qed.

(** A non-negative integer has at most [k] binary digits exactly when it
    is below [2^k]. *)
Lemma Zdigits2_le_iff (m k : Z) :
  0 <= m -> 0 <= k -> (Zdigits2 m <= k <-> m < 2 ^ k).
Proof.
  intros Hm Hk. destruct m as [|p|p]; simpl.
  - split; intros _; [apply Z.pow_pos_nonneg|]; lia.
  - rewrite digits2_pos_size.
    assert (Hs : Z.pos (Pos.size p) = Z.succ (Z.log2 (Z.pos p))).
    { destruct p; simpl; rewrite ?Pos2Z.inj_succ; reflexivity. }
    rewrite Hs. rewrite Z.log2_lt_pow2 by lia. lia.
  - lia.
Qed.

Lemma Zdigits2_nonneg (m : Z) : 0 <= Zdigits2 m.
Proof. destruct m; simpl; lia. Qed.

Lemma shr_1_m (mrs : shr_record) :
  0 <= shr_m mrs -> shr_m (shr_1 mrs) = shr_m mrs / 2.
Proof.
  destruct mrs as [m r s]; simpl. intros Hm.
  destruct m as [|[p|p|]|p]; simpl; try reflexivity; try lia.
  - rewrite Pos2Z.inj_xI. apply Z.div_unique with (r := 1); lia.
  - rewrite Pos2Z.inj_xO. apply Z.div_unique with (r := 0); lia.
Qed.

Lemma iter_shr_1_m (p : positive) : forall mrs,
  0 <= shr_m mrs ->
  shr_m (iter_pos shr_1 p mrs) = shr_m mrs / 2 ^ Z.pos p.
Proof.
  assert (Hstep : forall mrs, 0 <= shr_m mrs -> 0 <= shr_m (shr_1 mrs)).
  { intros mrs H. rewrite shr_1_m by assumption. apply Z.div_pos; lia. }
  assert (Hpow : forall q, 0 < 2 ^ Z.pos q).
  { intros q. apply Z.pow_pos_nonneg; lia. }
  induction p as [p IH|p IH|]; intros mrs Hm; simpl iter_pos.
  - pose proof (Hpow p) as Hp.
    rewrite IH, IH, shr_1_m; auto.
    + rewrite !Z.div_div by lia.
      f_equal. rewrite Pos2Z.inj_xI.
      replace (2 * Z.pos p + 1) with (1 + Z.pos p + Z.pos p) by lia.
      rewrite !Z.pow_add_r by lia. rewrite Z.pow_1_r. ring.
    + rewrite IH by auto. apply Z.div_pos; auto.
  - pose proof (Hpow p) as Hp.
    rewrite IH, IH; auto.
    + rewrite Z.div_div by lia.
      f_equal. rewrite Pos2Z.inj_xO, <- Z.pow_add_r by lia. f_equal. lia.
    + rewrite IH by auto. apply Z.div_pos; auto.
  - rewrite shr_1_m by assumption. reflexivity.
Qed.

Lemma Zdigits2_div_pow2 (m n : Z) :
  0 <= m -> 0 < n -> Zdigits2 (m / 2 ^ n) <= Z.max 0 (Zdigits2 m - n).
Proof.
  intros Hm Hn.
  pose proof (Zdigits2_nonneg m) as HD.
  assert (Hlt : m < 2 ^ Zdigits2 m) by (apply Zdigits2_le_iff; lia).
  assert (Hpn : 0 < 2 ^ n) by (apply Z.pow_pos_nonneg; lia).
  apply Zdigits2_le_iff; [apply Z.div_pos; lia | lia |].
  destruct (Z_le_gt_dec n (Zdigits2 m)) as [Hle|Hgt].
  - rewrite Z.max_r by lia.
    apply Z.div_lt_upper_bound; [lia|].
    rewrite <- Z.pow_add_r by lia.
    replace (n + (Zdigits2 m - n)) with (Zdigits2 m) by lia. exact Hlt.
  - rewrite Z.max_l by lia. rewrite Z.div_small; [reflexivity|].
    split; [lia|]. apply Z.lt_le_trans with (1 := Hlt).
    apply Z.pow_le_mono_r; lia.
Qed.

Lemma Zdigits2_succ_le (m m' : Z) :
  0 <= m -> m' <= m + 1 -> 0 <= m' -> Zdigits2 m' <= Zdigits2 m + 1.
Proof.
  intros Hm Hle Hm'.
  pose proof (Zdigits2_nonneg m) as HD.
  assert (Hlt : m < 2 ^ Zdigits2 m) by (apply Zdigits2_le_iff; lia).
  apply Zdigits2_le_iff; [lia | lia |].
  rewrite Z.pow_add_r, Z.pow_1_r by lia. lia.
Qed.

Lemma round_nearest_even_bounds (m : Z) (l : location) :
  m <= round_nearest_even m l <= m + 1.
Proof.
  destruct l as [|[| |]]; simpl; try lia.
  destruct (Z.even m); lia.
Qed.

Lemma shr_record_of_loc_m (m : Z) (l : location) :
  shr_m (shr_record_of_loc m l) = m.
Proof. destruct l as [|[| |]]; reflexivity. Qed.

(** One normalising shift keeps the magnitude below [2^B]. *)
Lemma shr_fexp_bound (m e : Z) (l : location) (B : Z) :
  0 <= m -> Zdigits2 m + e <= B -> e <= B -> -1074 <= B ->
  0 <= shr_m (fst (shr_fexp 53 1024 m e l)) /\
  Zdigits2 (shr_m (fst (shr_fexp 53 1024 m e l)))
    + snd (shr_fexp 53 1024 m e l) <= B /\
  snd (shr_fexp 53 1024 m e l) <= B.
Proof.
  intros Hm HD He HB.
  unfold shr_fexp, shr, fexp, emin.
  set (D := Zdigits2 m) in *.
  destruct (Z.max (D + e - 53) (3 - 1024 - 53) - e) as [|n|n] eqn:Hn;
    cbn [fst snd]; rewrite ?shr_record_of_loc_m; fold D; try (repeat split; lia).
  rewrite iter_shr_1_m by (rewrite shr_record_of_loc_m; exact Hm).
  rewrite shr_record_of_loc_m.
  assert (Hpn : 0 < 2 ^ Z.pos n) by (apply Z.pow_pos_nonneg; lia).
  pose proof (Zdigits2_div_pow2 m (Z.pos n) Hm ltac:(lia)) as Hdiv.
  fold D in Hdiv.
  repeat split; [apply Z.div_pos; lia | lia | lia].
Qed.

(** Rounding to binary64 keeps the sign, and a magnitude that is below
    [2^B] stays below [2^(B+1)]: no overflow as long as [B <= 970]. *)
Lemma binary_round_aux_bound (s : bool) (m e : Z) (l : location) (B : Z) :
  0 <= m -> Zdigits2 m + e <= B -> e <= B -> -1074 <= B <= 970 ->
  match binary_round_aux 53 1024 s m e l with
  | S754_zero s' => s' = s
  | S754_finite s' m' e' =>
      s' = s /\ Z.pos (digits2_pos m') + e' <= B + 1 /\ e' <= B + 1
  | _ => False
  end.
Proof.
  intros Hm HD He HB.
  unfold binary_round_aux.
  pose proof (shr_fexp_bound m e l B Hm HD He ltac:(lia)) as (H1 & H2 & H3).
  destruct (shr_fexp 53 1024 m e l) as [mrs1 e1]; cbn [fst snd] in *.
  set (m2 := round_nearest_even (shr_m mrs1) (loc_of_shr_record mrs1)).
  pose proof (round_nearest_even_bounds (shr_m mrs1) (loc_of_shr_record mrs1))
    as Hr. fold m2 in Hr.
  pose proof (Zdigits2_succ_le (shr_m mrs1) m2 H1 ltac:(lia) ltac:(lia)) as Hd2.
  pose proof (shr_fexp_bound m2 e1 loc_Exact (B + 1)
                ltac:(lia) ltac:(lia) ltac:(lia) ltac:(lia)) as (K1 & K2 & K3).
  destruct (shr_fexp 53 1024 m2 e1 loc_Exact) as [mrs3 e3]; cbn [fst snd] in *.
  destruct (shr_m mrs3) as [|m3|m3] eqn:Hm3; [reflexivity | | lia].
  replace (e3 <=? 1024 - 53) with true by (symmetry; apply Z.leb_le; lia).
  simpl in K2. auto.
Qed.

(** Rounding never produces a float of the other sign. *)
Lemma binary_round_aux_sign (s : bool) (m e : Z) (l : location) :
  match binary_round_aux 53 1024 s m e l with
  | S754_zero s' | S754_finite s' _ _ | S754_infinity s' => s' = s
  | S754_nan => True
  end.
Proof.
  unfold binary_round_aux.
  destruct (shr_fexp 53 1024 m e l) as [mrs1 e1].
  destruct (shr_fexp 53 1024 _ e1 loc_Exact) as [mrs3 e3].
  destruct (shr_m mrs3); [reflexivity | | exact I].
  destruct (e3 <=? 1024 - 53); reflexivity.
Qed.

Lemma digits2_pos_iter_xO (d m : positive) :
  Z.pos (digits2_pos (Pos.iter xO m d)) = Z.pos (digits2_pos m) + Z.pos d.
Proof.
  induction d as [|d IH] using Pos.peano_ind.
  - simpl. lia.
  - rewrite Pos.iter_succ. simpl digits2_pos. lia.
Qed.

(** Aligning a mantissa to a smaller exponent does not change the
    magnitude. *)
Lemma shl_align_bound (m : positive) (e t : Z) :
  Z.pos (digits2_pos (fst (shl_align m e t))) + snd (shl_align m e t)
    = Z.pos (digits2_pos m) + e
  /\ snd (shl_align m e t) <= e.
Proof.
  unfold shl_align. destruct (t - e) as [|d|d] eqn:Hd; cbn [fst snd];
    try (split; lia).
  rewrite digits2_pos_iter_xO. lia.
Qed.

Lemma binary_round_bound (s : bool) (m : positive) (e B : Z) :
  Z.pos (digits2_pos m) + e <= B -> e <= B -> -1074 <= B <= 970 ->
  match binary_round 53 1024 s m e with
  | S754_zero s' => s' = s
  | S754_finite s' m' e' =>
      s' = s /\ Z.pos (digits2_pos m') + e' <= B + 1 /\ e' <= B + 1
  | _ => False
  end.
Proof.
  intros HD He HB. unfold binary_round.
  pose proof (shl_align_bound m e (fexp 53 1024 (Z.pos (digits2_pos m) + e)))
    as (H1 & H2).
  destruct (shl_align m e _) as [mz ez]; cbn [fst snd] in *.
  apply binary_round_aux_bound; cbn [Zdigits2]; lia.
Qed.

Lemma binary_round_sign (s : bool) (m : positive) (e : Z) :
  match binary_round 53 1024 s m e with
  | S754_zero s' | S754_finite s' _ _ | S754_infinity s' => s' = s
  | S754_nan => True
  end.
Proof.
  unfold binary_round. destruct (shl_align m e _) as [mz ez].
  apply binary_round_aux_sign.
Qed.

Lemma nonneg_lt_pow2_weaken (k k' : Z) (x : Float64.float) :
  nonneg_lt_pow2 k x -> k <= k' -> nonneg_lt_pow2 k' x.
Proof. destruct x as [[]|[]| |[] m e]; simpl; intros; lia || auto. Qed.

Lemma nonneg_lt_pow2_not_negative (k : Z) (x : Float64.float) :
  nonneg_lt_pow2 k x -> not_negative x.
Proof. destruct x as [[]|[]| |[] m e]; simpl; intros; tauto. Qed.

(** The sum of two floats below [2^kx] and [2^ky]. *)
Lemma add_bound (kx ky : Z) (x y : Float64.float) :
  nonneg_lt_pow2 kx x -> nonneg_lt_pow2 ky y ->
  -1074 <= Z.max kx ky <= 968 ->
  nonneg_lt_pow2 (Z.max kx ky + 2) (Float64.add x y).
Proof.
  intros Hx Hy Hk.
  destruct x as [[]|[]| |[] mx ex]; try contradiction;
    destruct y as [[]|[]| |[] my ey]; try contradiction;
    cbv beta iota delta [nonneg_lt_pow2] in Hx, Hy;
    cbv beta iota zeta delta [Float64.add SFadd cond_Zopp].
  - exact I.
  - cbv beta iota delta [nonneg_lt_pow2]. lia.
  - cbv beta iota delta [nonneg_lt_pow2]. lia.
  - destruct Hx as [Hx1 Hx2], Hy as [Hy1 Hy2].
    set (ez := Z.min ex ey).
    pose proof (shl_align_bound mx ex ez) as (Ha & Ha').
    pose proof (shl_align_bound my ey ez) as (Hb & Hb').
    assert (Hea : snd (shl_align mx ex ez) = ez).
    { unfold shl_align. destruct (ez - ex) eqn:E; cbn [snd]; lia. }
    assert (Heb : snd (shl_align my ey ez) = ez).
    { unfold shl_align. destruct (ez - ey) eqn:E; cbn [snd]; lia. }
    destruct (shl_align mx ex ez) as [a ea], (shl_align my ey ez) as [b eb];
      cbn [fst snd] in *; subst ea eb.
    change (Z.pos a + Z.pos b) with (Z.pos (a + b)).
    unfold Float64.prec, Float64.emax, binary_normalize.
    assert (Hsum : Z.pos (digits2_pos (a + b)) + ez <= Z.max kx ky + 1).
    { assert (Hka : Z.pos a < 2 ^ (Z.max kx ky - ez)).
      { apply (Zdigits2_le_iff (Z.pos a)); cbn [Zdigits2]; lia. }
      assert (Hkb : Z.pos b < 2 ^ (Z.max kx ky - ez)).
      { apply (Zdigits2_le_iff (Z.pos b)); cbn [Zdigits2]; lia. }
      enough (Zdigits2 (Z.pos (a + b)) <= Z.max kx ky - ez + 1)
        by (cbn [Zdigits2] in *; lia).
      apply Zdigits2_le_iff; [lia | lia |].
      rewrite Z.pow_add_r, Z.pow_1_r by lia. lia. }
    pose proof (binary_round_bound false (a + b) ez (Z.max kx ky + 1)
                  Hsum ltac:(lia) ltac:(lia)) as Hr.
    destruct (binary_round 53 1024 false (a + b) ez) as [[]|[]| |[] m' e'];
      cbv beta iota delta [nonneg_lt_pow2];
      try contradiction; try discriminate; try (destruct Hr; discriminate);
      try exact I.
    replace (Z.max kx ky + 2) with (Z.max kx ky + 1 + 1) by lia. tauto.
Qed.

(** The product of two floats below [2^kx] and [2^ky]. *)
Lemma mul_bound (kx ky : Z) (x y : Float64.float) :
  nonneg_lt_pow2 kx x -> nonneg_lt_pow2 ky y ->
  -1074 <= kx + ky <= 970 ->
  nonneg_lt_pow2 (kx + ky + 1) (Float64.mul x y).
Proof.
  intros Hx Hy Hk.
  destruct x as [[]|[]| |[] mx ex]; try contradiction;
    destruct y as [[]|[]| |[] my ey]; try contradiction;
    cbv beta iota delta [nonneg_lt_pow2] in Hx, Hy;
    cbv beta iota zeta delta [Float64.mul SFmul xorb]; try exact I.
  destruct Hx as [Hx1 Hx2], Hy as [Hy1 Hy2].
  assert (Hprod : Zdigits2 (Z.pos (mx * my)) + (ex + ey) <= kx + ky).
  { assert (Hka : Z.pos mx < 2 ^ (kx - ex)).
    { apply (Zdigits2_le_iff (Z.pos mx)); cbn [Zdigits2]; lia. }
    assert (Hkb : Z.pos my < 2 ^ (ky - ey)).
    { apply (Zdigits2_le_iff (Z.pos my)); cbn [Zdigits2]; lia. }
    enough (Zdigits2 (Z.pos (mx * my)) <= (kx - ex) + (ky - ey)) by lia.
    apply Zdigits2_le_iff; [lia | lia |].
    rewrite Z.pow_add_r by lia. rewrite Pos2Z.inj_mul.
    apply Z.mul_lt_mono_nonneg; lia. }
  pose proof (binary_round_aux_bound false (Z.pos (mx * my)) (ex + ey)
                loc_Exact (kx + ky) ltac:(lia) Hprod ltac:(lia) ltac:(lia))
    as Hr.
  unfold Float64.prec, Float64.emax.
  destruct (binary_round_aux 53 1024 false _ _ _) as [[]|[]| |[] m' e'];
    cbv beta iota delta [nonneg_lt_pow2];
    try contradiction; try discriminate; try (destruct Hr; discriminate);
    try exact I.
  tauto.
Qed.

Lemma of_int_bound (n k : Z) :
  0 < n < 2 ^ k -> 0 <= k <= 969 ->
  exists f, Float64.of_int n = Ok f /\ nonneg_lt_pow2 (k + 1) f.
Proof.
  intros Hn Hk. destruct n as [|p|p]; try lia.
  unfold Float64.of_int, binary_normalize, Float64.prec, Float64.emax.
  assert (HD : Z.pos (digits2_pos p) + 0 <= k).
  { enough (Zdigits2 (Z.pos p) <= k) by (cbn [Zdigits2] in *; lia).
    apply Zdigits2_le_iff; lia. }
  pose proof (binary_round_bound false p 0 k HD ltac:(lia) ltac:(lia)) as Hr.
  destruct (binary_round 53 1024 false p 0) as [[]|[]| |[] m' e'];
    try contradiction; try discriminate; try (destruct Hr; discriminate);
    eexists; (split; [reflexivity|]); cbv beta iota delta [nonneg_lt_pow2];
    tauto.
Qed.

Lemma of_int_not_negative (n : Z) (f : Float64.float) :
  0 <= n -> Float64.of_int n = Ok f -> not_negative f.
Proof.
  intros Hn. destruct n as [|p|p]; try lia;
    unfold Float64.of_int, binary_normalize, Float64.prec, Float64.emax.
  - intros H; injection H as <-. reflexivity.
  - pose proof (binary_round_sign false p 0) as Hs.
    destruct (binary_round 53 1024 false p 0) as [s|s| |s m' e'];
      intros H; try discriminate; injection H as <-; exact Hs.
Qed.

Lemma mul_not_negative (x y : Float64.float) :
  not_negative x -> not_negative y -> not_negative (Float64.mul x y).
Proof.
  destruct x as [sx|sx| |sx mx ex], y as [sy|sy| |sy my ey];
    cbn [not_negative]; intros Hx Hy; subst;
    cbv beta iota zeta delta [Float64.mul SFmul xorb]; try exact I;
    try reflexivity.
  apply (binary_round_aux_sign false).
Qed.

Lemma to_int_nonneg (x : Float64.float) (z : Z) :
  not_negative x -> Float64.to_int x = Ok z -> 0 <= z.
Proof.
  destruct x as [s|s| |s m e]; cbn [not_negative Float64.to_int];
    intros Hs H; try discriminate; injection H as <-; [lia|].
  subst s. cbn [cond_Zopp]. apply Z.shiftl_nonneg. lia.
Qed.

Lemma to_int_defined (k : Z) (x : Float64.float) :
  nonneg_lt_pow2 k x -> exists z, Float64.to_int x = Ok z.
Proof.
  destruct x as [[]|[]| |[] m e]; cbn [nonneg_lt_pow2]; try contradiction;
    intros _; eexists; reflexivity.
Qed.

Lemma small_term_bound (t : Float64.float) :
  small_term t = true -> nonneg_lt_pow2 1 t.
Proof.
  destruct t as [[]|[]| |[] m e]; cbn [small_term nonneg_lt_pow2];
    try discriminate.
  rewrite andb_true_iff, !Z.leb_le. tauto.
Qed.

Lemma CHAR_INDEX_get_range (ch : ascii) : 0 <= CHAR_INDEX_get ch <= 39.
Proof.
  destruct ch as [[] [] [] [] [] [] [] []]; vm_compute; split; discriminate.
Qed.

Lemma scales_ok_128 : scales_ok 128 Float64.one = true.
Proof. vm_compute. reflexivity. Qed.

(** The loop of the encoder never raises, and each character adds at
    most two binary orders of magnitude to the bound on the total. *)
Lemma lex_loop_bound (chars : list ascii) :
  forall (n : nat) (total scale : Float64.float) (k : Z),
  scales_ok n scale = true -> (List.length chars <= n)%nat ->
  nonneg_lt_pow2 k total -> 1 <= k ->
  k + 2 * Z.of_nat (List.length chars) <= 970 ->
  exists f, lex_loop chars total scale = Ok f
            /\ nonneg_lt_pow2 (k + 2 * Z.of_nat (List.length chars)) f.
Proof.
  induction chars as [|ch rest IH]; intros n total scale k Hs Hlen Ht Hk Hb.
  - exists total. split; [reflexivity|].
    apply nonneg_lt_pow2_weaken with (1 := Ht). simpl. lia.
  - destruct n as [|n']; [simpl in Hlen; lia|].
    cbn [scales_ok] in Hs. cbn [lex_loop].
    destruct (Float64.of_int BASE) as [base|]; [|discriminate].
    cbn [bind]. apply andb_true_iff in Hs as [Hterms Hs'].
    set (scale' := Float64.mul scale base) in *.
    unfold terms_ok in Hterms. rewrite forallb_forall in Hterms.
    pose proof (CHAR_INDEX_get_range ch) as Hc.
    specialize (Hterms (CHAR_INDEX_get ch + 1)).
    assert (Hin : In (CHAR_INDEX_get ch + 1) (map Z.of_nat (seq 1 40))).
    { apply in_map_iff. exists (Z.to_nat (CHAR_INDEX_get ch + 1)).
      split; [lia|]. apply in_seq. lia. }
    specialize (Hterms Hin).
    destruct (Float64.of_int (CHAR_INDEX_get ch + 1)) as [num|];
      [|discriminate].
    cbn [bind].
    destruct (Float64.truediv num scale') as [t|]; [|discriminate].
    cbn [bind]. apply small_term_bound in Hterms.
    pose proof (add_bound k 1 total t Ht Hterms ltac:(cbn [List.length] in Hb; lia))
      as Hadd.
    rewrite Z.max_l in Hadd by lia.
    cbn [List.length] in Hlen, Hb |- *.
    destruct (IH n' (Float64.add total t) scale' (k + 2) Hs' ltac:(lia) Hadd
                ltac:(lia) ltac:(lia)) as (f & Hf & Hfb).
    exists f. split; [exact Hf|].
    apply nonneg_lt_pow2_weaken with (1 := Hfb). lia.
Qed.

(** The encoder returns for every payload: a float that is not negative
    and is finite. *)
Lemma _lex_fraction_bound (payload : string) :
  exists f, _lex_fraction payload = Ok f /\ nonneg_lt_pow2 257 f.
Proof.
  unfold _lex_fraction.
  set (chars := firstn 128 (list_ascii_of_string (PyStr.upper payload))).
  assert (Hlen : (List.length chars <= 128)%nat) by apply firstn_le_length.
  destruct (lex_loop_bound chars 128 Float64.zero Float64.one 1 scales_ok_128
              Hlen I ltac:(lia) ltac:(lia)) as (f & Hf & Hb).
  exists f. split; [exact Hf|].
  apply nonneg_lt_pow2_weaken with (1 := Hb). lia.
Qed.

(** Whatever the budget, a slot that is computed lies within it. *)
Lemma slot_range (g : Config) (eff : string) (slot : Z) :
  0 < SLOTS_PER_CATEGORY g ->
  _slot_index_within_category g eff = Ok slot ->
  0 <= slot <= SLOTS_PER_CATEGORY g - 1.
Proof.
  intros Hpos. unfold _slot_index_within_category.
  destruct (_lex_fraction_bound (_payload_for_effective eff)) as (f & -> & Hf).
  cbn [bind].
  destruct (Float64.of_int (SLOTS_PER_CATEGORY g)) as [sf|] eqn:Hsf;
    [|discriminate].
  cbn [bind].
  destruct (Float64.to_int (Float64.mul f sf)) as [z|] eqn:Hz; [|discriminate].
  cbn [bind]. intros H; injection H as <-.
  assert (0 <= z).
  { apply (to_int_nonneg _ _ (mul_not_negative f sf
             (nonneg_lt_pow2_not_negative _ _ Hf)
             (of_int_not_negative (SLOTS_PER_CATEGORY g) sf ltac:(lia) Hsf))
             Hz). }
  destruct (Z.leb_spec (SLOTS_PER_CATEGORY g) z); lia.
Qed.

(** For every budget below [2^512] the slot is computed. *)
Lemma slot_defined (g : Config) (eff : string) :
  0 < SLOTS_PER_CATEGORY g < 2 ^ 512 ->
  exists slot, _slot_index_within_category g eff = Ok slot.
Proof.
  intros Hpos. unfold _slot_index_within_category.
  destruct (_lex_fraction_bound (_payload_for_effective eff)) as (f & -> & Hf).
  cbn [bind].
  destruct (of_int_bound (SLOTS_PER_CATEGORY g) 512 Hpos ltac:(lia))
    as (sf & -> & Hsf).
  cbn [bind].
  destruct (to_int_defined _ _ (mul_bound 257 513 f sf Hf Hsf ltac:(lia)))
    as (z & ->).
  cbn [bind]. eexists; reflexivity.
Qed.

(** ** The classifier and the rank *)

Ltac split_ifs :=
  repeat match goal with
         | |- context [if ?b then _ else _] => destruct b
         end.

Lemma _effective_category_key_cases (eff : string) :
  In (_effective_category_key eff) CATEGORY_ORDER.
Proof.
  unfold _effective_category_key, CATEGORY_ORDER.
  split_ifs; simpl; tauto.
Qed.

Lemma CATEGORY_INDEX_complete (key : string) :
  In key CATEGORY_ORDER ->
  exists i, dict_get String.eqb CATEGORY_INDEX key = Some i /\ 0 <= i <= 12
            /\ nth (Z.to_nat i) CATEGORY_ORDER "" = key.
Proof.
  unfold CATEGORY_ORDER. simpl In. intros H.
  repeat (destruct H as [<-|H]; [eexists; vm_compute; repeat split; discriminate|]).
  contradiction.
Qed.

Lemma CATEGORY_INDEX_sound (key : string) (i : Z) :
  dict_get String.eqb CATEGORY_INDEX key = Some i ->
  0 <= i <= 12 /\ nth (Z.to_nat i) CATEGORY_ORDER "" = key.
Proof.
  unfold CATEGORY_INDEX, enumerate, CATEGORY_ORDER. cbn [List.length seq map combine dict_get fst snd].
  repeat match goal with
         | |- context [String.eqb key ?k] =>
             destruct (String.eqb_spec key k) as [->|_];
             [intros H; injection H as <-; vm_compute; repeat split; discriminate|]
         end.
  discriminate.
Qed.

Lemma _category_priority_index_total (eff : string) :
  exists i, _category_priority_index eff = Ok i /\ 0 <= i <= 12.
Proof.
  unfold _category_priority_index.
  destruct (CATEGORY_INDEX_complete _ (_effective_category_key_cases eff))
    as (i & -> & Hi & _).
  exists i. split; [reflexivity | exact Hi].
Qed.

Lemma _category_priority_index_range (eff : string) (i : Z) :
  _category_priority_index eff = Ok i -> 0 <= i <= 12.
Proof.
  destruct (_category_priority_index_total eff) as (j & -> & Hj).
  intros H; injection H as <-. exact Hj.
Qed.

(** C9: for every input string the classifier returns a key of the
    Category Order (DEFAULT when no prefix matches), so the rank lookup
    [CATEGORY_INDEX[key]] never fails and returns the position of the key
    in the order; and the rank is injective over the declared keys. *)
Theorem C9_classifier_total_rank_injective :
  (forall eff : string, In (_effective_category_key eff) CATEGORY_ORDER)
  /\ (forall eff : string,
        exists i, _category_priority_index eff = Ok i
                  /\ nth (Z.to_nat i) CATEGORY_ORDER ""
                     = _effective_category_key eff)
  /\ (forall (k1 k2 : string) (i : Z),
        dict_get String.eqb CATEGORY_INDEX k1 = Some i ->
        dict_get String.eqb CATEGORY_INDEX k2 = Some i -> k1 = k2)
  /\ (forall key : string,
        In key CATEGORY_ORDER <->
        exists i, dict_get String.eqb CATEGORY_INDEX key = Some i).
Proof.
  split; [exact _effective_category_key_cases|].
  split.
  { intros eff. unfold _category_priority_index.
    destruct (CATEGORY_INDEX_complete _ (_effective_category_key_cases eff))
      as (i & -> & _ & Hnth).
    exists i. split; [reflexivity | exact Hnth]. }
  split.
  { intros k1 k2 i H1 H2.
    apply CATEGORY_INDEX_sound in H1 as [_ <-].
    apply CATEGORY_INDEX_sound in H2 as [_ <-]. reflexivity. }
  intros key. split.
  - intros H. destruct (CATEGORY_INDEX_complete key H) as (i & Hi & _).
    exists i. exact Hi.
  - intros (i & Hi). apply CATEGORY_INDEX_sound in Hi as [Hr <-].
    assert (Hcases : In (Z.to_nat i) (seq 0 13)) by (apply in_seq; lia).
    simpl in Hcases.
    repeat (destruct Hcases as [<-|Hcases]; [simpl; tauto|]). contradiction.
Qed.

Lemma C9_witness :
  "SYS_" = "SYS_".
Proof.
  exact (proj1 (proj2 (proj2 C9_classifier_total_rank_injective))
           "SYS_" "SYS_" 10 eq_refl eq_refl).
Defined.

(** ** Offsets and planned instants *)

Lemma Ok_inj {A : Type} (a b : A) : Ok a = Ok b -> a = b.
Proof. intros H. injection H as H. exact H. Qed.

Lemma _stable_hash01_range (s : string) : 0 <= _stable_hash01 s <= 1.
Proof.
  assert (E : forall x, Z.land x 1 = x mod 2).
  { intros x. change 1 with (Z.ones 1). rewrite Z.land_ones by lia.
    reflexivity. }
  unfold _stable_hash01. rewrite E.
  pose proof (Z.mod_pos_bound (hash_loop (list_ascii_of_string s) 2166136261) 2).
  lia.
Qed.

Lemma nudge_of_range (g : Config) (eff : string) : 0 <= nudge_of g eff <= 1.
Proof.
  unfold nudge_of. pose proof (_stable_hash01_range eff).
  destruct (ENABLE_STABLE_NUDGE g); lia.
Qed.

Lemma _deterministic_offset_seconds_inv (g : Config) (name : string)
    (off ci sl : Z) (eff : string) :
  _deterministic_offset_seconds g name = Ok (off, ci, sl, eff) ->
  eff = _normalize_name_for_rules name
  /\ _category_priority_index eff = Ok ci
  /\ _slot_index_within_category g eff = Ok sl
  /\ off = ci * CATEGORY_BLOCK_SECONDS g
           + (sl * SECONDS_BETWEEN_ITEMS g + nudge_of g eff).
Proof.
  unfold _deterministic_offset_seconds, nudge_of.
  destruct (_category_priority_index _) as [ci'|] eqn:Hci; [|discriminate].
  cbn [bind].
  destruct (_slot_index_within_category g _) as [sl'|] eqn:Hsl;
    [|discriminate].
  cbn [bind]. intros H; injection H as H1 H2 H3 H4. subst.
  repeat split; assumption || reflexivity.
Qed.

(** What a planned entry records, and where its instant lies: the
    offset is subtracted from the fixed base, or added to the local
    anchor. *)
Lemma _planned_timestamp_for_folder_inv (h : Host) (g : Config)
    (name : string) (tl : timeline) (p : planned) :
  _planned_timestamp_for_folder h g name tl = Ok p ->
  _deterministic_offset_seconds g name
    = Ok (offset_sec p, cat_idx p, slot_idx p, eff_name p)
  /\ cat_label p = _category_label_for_effective (eff_name p)
  /\ PyTime.microsecond (ts_utc p) = 0
  /\ PyTime.utcoffset (ts_utc p) = 0
  /\ PyTime.timestamp (ts_utc p)
     = match tl with
       | fixed_utc => PyTime.timestamp FIXED_BASE_UTC - offset_sec p
       | local_forward =>
           PyTime.timestamp (_anchor_local_datetime h) + offset_sec p
       end.
Proof.
  unfold _planned_timestamp_for_folder.
  destruct (_deterministic_offset_seconds g name) as [[[[off ci] sl] eff]|];
    [|discriminate].
  cbn [bind]. destruct tl.
  - unfold PyTime.timedelta_seconds.
    destruct (_ || _); [discriminate|]. cbn [bind].
    unfold PyTime.add. destruct (_ || _); [discriminate|]. cbn [bind].
    unfold PyTime.astimezone_utc.
    cbn [PyTime.wall PyTime.utcoffset PyTime.microsecond].
    destruct (_ || _); [discriminate|]. cbn [bind].
    intros H. apply Ok_inj in H. subst p.
    unfold PyTime.timestamp, _anchor_local_datetime, PyTime.replace_tzinfo.
    cbn [ts_utc eff_name cat_label cat_idx slot_idx offset_sec
         PyTime.wall PyTime.utcoffset PyTime.microsecond].
    repeat split; first [lia | reflexivity].
  - unfold fromtimestamp_utc.
    destruct (_ || _); [discriminate|]. destruct (_ || _); [discriminate|].
    cbn [bind]. intros H. apply Ok_inj in H. subst p.
    unfold PyTime.timestamp.
    cbn [ts_utc eff_name cat_label cat_idx slot_idx offset_sec
         PyTime.wall PyTime.utcoffset PyTime.microsecond].
    repeat split; first [lia | reflexivity].
Qed.

(** Within one category the offsets span less than the block (one
    second more with the nudge): the offset of the next category is
    never undercut. *)
Lemma offset_bounds (sec slots : Z) (nudge : bool) (name : string)
    (off ci sl : Z) (eff : string) :
  0 < sec -> 0 < slots ->
  _deterministic_offset_seconds (configured sec slots nudge) name
    = Ok (off, ci, sl, eff) ->
  0 <= ci <= 12 /\ 0 <= sl <= slots - 1
  /\ exists n, 0 <= n <= 1 /\ (nudge = false -> n = 0)
               /\ off = ci * (slots * sec) + sl * sec + n.
Proof.
  intros Hsec Hslots H.
  apply _deterministic_offset_seconds_inv in H as (-> & Hci & Hsl & ->).
  apply _category_priority_index_range in Hci.
  apply slot_range in Hsl; [|exact Hslots].
  cbn [configured set_stable_nudge _recompute_spacing SLOTS_PER_CATEGORY] in Hsl.
  split; [exact Hci|]. split; [exact Hsl|].
  exists (nudge_of (configured sec slots nudge) (_normalize_name_for_rules name)).
  split; [apply nudge_of_range|]. split.
  - intros ->. reflexivity.
  - cbn [configured set_stable_nudge _recompute_spacing
         CATEGORY_BLOCK_SECONDS SECONDS_BETWEEN_ITEMS]. lia.
Qed.

(** ** Category precedence *)

(** Offsets of two names whose categories differ: the later category
    has the larger offset, by at least [sec - 1] seconds. *)
Lemma offsets_across_categories (sec slots : Z) (nudge : bool)
    (a b : string) (offa cia sla offb cib slb : Z) (effa effb : string) :
  0 < sec -> 0 < slots ->
  _deterministic_offset_seconds (configured sec slots nudge) a
    = Ok (offa, cia, sla, effa) ->
  _deterministic_offset_seconds (configured sec slots nudge) b
    = Ok (offb, cib, slb, effb) ->
  cia < cib ->
  offa <= offb /\ (nudge = false \/ 2 <= sec -> offa < offb).
Proof.
  intros Hsec Hslots Ha Hb Hlt.
  apply offset_bounds in Ha as (Hcia & Hsla & na & Hna & Hna0 & ->);
    [|assumption..].
  apply offset_bounds in Hb as (Hcib & Hslb & nb & Hnb & Hnb0 & ->);
    [|assumption..].
  assert (Hblock : (cia + 1) * (slots * sec) <= cib * (slots * sec)).
  { apply Z.mul_le_mono_nonneg_r; nia. }
  assert (Hsl : sla * sec <= (slots - 1) * sec).
  { apply Z.mul_le_mono_nonneg_r; lia. }
  assert (Hslb' : 0 <= slb * sec) by nia.
  split; [nia|].
  intros [Hn|Hs]; [rewrite (Hna0 Hn); nia | nia].
Qed.

(** What each branch of the planner does with two names whose
    categories differ: the fixed-anchor branch subtracts the offset, so
    the name of the earlier category is never the older one, and is the
    newer one when the nudge is disabled or the spacing is at least two
    seconds; the forward-anchor branch adds the offset, so there the
    name of the earlier category is never the newer one. *)
Lemma timelines_across_categories (h : Host) (sec slots : Z) (nudge : bool)
    (tl : timeline) (a b : string) (pa pb : planned) :
  0 < sec -> 0 < slots ->
  _planned_timestamp_for_folder h (configured sec slots nudge) a tl = Ok pa ->
  _planned_timestamp_for_folder h (configured sec slots nudge) b tl = Ok pb ->
  cat_idx pa < cat_idx pb ->
  match tl with
  | fixed_utc =>
      PyTime.timestamp (ts_utc pb) <= PyTime.timestamp (ts_utc pa)
      /\ (nudge = false \/ 2 <= sec ->
          PyTime.timestamp (ts_utc pb) < PyTime.timestamp (ts_utc pa))
  | local_forward =>
      PyTime.timestamp (ts_utc pa) <= PyTime.timestamp (ts_utc pb)
      /\ (nudge = false \/ 2 <= sec ->
          PyTime.timestamp (ts_utc pa) < PyTime.timestamp (ts_utc pb))
  end.
Proof.
  intros Hsec Hslots Ha Hb Hlt.
  apply _planned_timestamp_for_folder_inv in Ha as (Ha & _ & _ & _ & Hta).
  apply _planned_timestamp_for_folder_inv in Hb as (Hb & _ & _ & _ & Htb).
  destruct (offsets_across_categories _ _ _ _ _ _ _ _ _ _ _ _ _
              Hsec Hslots Ha Hb Hlt) as [Hle Hstrict].
  rewrite Hta, Htb. destruct tl; (split; [lia | intros H; specialize (Hstrict H); lia]).
Qed.

(** ** Order within a category *)

Lemma offsets_within_category (sec slots : Z) (nudge : bool)
    (a b : string) (offa cia sla offb cib slb : Z) (effa effb : string) :
  0 < sec -> 0 < slots ->
  _deterministic_offset_seconds (configured sec slots nudge) a
    = Ok (offa, cia, sla, effa) ->
  _deterministic_offset_seconds (configured sec slots nudge) b
    = Ok (offb, cib, slb, effb) ->
  cia = cib -> sla <= slb ->
  (nudge = false -> offa <= offb /\ (offa = offb <-> sla = slb))
  /\ (sla < slb ->
      offa <= offb /\ (nudge = false \/ 2 <= sec -> offa < offb)).
Proof.
  intros Hsec Hslots Ha Hb Hci Hsl.
  apply offset_bounds in Ha as (Hcia & Hsla & na & Hna & Hna0 & ->);
    [|assumption..].
  apply offset_bounds in Hb as (Hcib & Hslb & nb & Hnb & Hnb0 & ->);
    [|assumption..].
  subst cib. split.
  - intros Hn. rewrite (Hna0 Hn), (Hnb0 Hn). split; [nia|].
    split; [intros H; nia | intros ->; reflexivity].
  - intros Hlt.
    assert (Hstep : (sla + 1) * sec <= slb * sec).
    { apply Z.mul_le_mono_nonneg_r; lia. }
    split; [nia|].
    intros [Hn|Hs]; [rewrite (Hna0 Hn); nia | nia].
Qed.

(** What each branch of the planner does with two names of one
    category, by their slots: on the fixed-anchor timeline the name of
    the smaller slot is never the older one, on the forward-anchor
    timeline never the newer one; with the nudge disabled the instants
    are equal exactly when the slots are. *)
Lemma timelines_within_category (h : Host) (sec slots : Z) (nudge : bool)
    (tl : timeline) (a b : string) (pa pb : planned) :
  0 < sec -> 0 < slots ->
  _planned_timestamp_for_folder h (configured sec slots nudge) a tl = Ok pa ->
  _planned_timestamp_for_folder h (configured sec slots nudge) b tl = Ok pb ->
  cat_idx pa = cat_idx pb ->
  slot_idx pa <= slot_idx pb ->
  let ta := PyTime.timestamp (ts_utc pa) in
  let tb := PyTime.timestamp (ts_utc pb) in
  match tl with
  | fixed_utc =>
      (nudge = false ->
       tb <= ta /\ (ta = tb <-> slot_idx pa = slot_idx pb))
      /\ (slot_idx pa < slot_idx pb ->
          tb <= ta /\ (nudge = false \/ 2 <= sec -> tb < ta))
  | local_forward =>
      (nudge = false ->
       ta <= tb /\ (ta = tb <-> slot_idx pa = slot_idx pb))
      /\ (slot_idx pa < slot_idx pb ->
          ta <= tb /\ (nudge = false \/ 2 <= sec -> ta < tb))
  end.
Proof.
  intros Hsec Hslots Ha Hb Hci Hsl ta tb. subst ta tb.
  apply _planned_timestamp_for_folder_inv in Ha as (Ha & _ & _ & _ & Hta).
  apply _planned_timestamp_for_folder_inv in Hb as (Hb & _ & _ & _ & Htb).
  destruct (offsets_within_category _ _ _ _ _ _ _ _ _ _ _ _ _
              Hsec Hslots Ha Hb Hci Hsl) as [Hoff Hstrict].
  rewrite Hta, Htb. destruct tl; split.
  - intros Hn. destruct (Hoff Hn) as [Hle Hiff]. split; [lia|].
    rewrite <- Hiff. lia.
  - intros Hlt. destruct (Hstrict Hlt) as [Hle Hs]. split; [lia|].
    intros H. specialize (Hs H). lia.
  - intros Hn. destruct (Hoff Hn) as [Hle Hiff]. split; [lia|].
    rewrite <- Hiff. lia.
  - intros Hlt. destruct (Hstrict Hlt) as [Hle Hs]. split; [lia|].
    intros H. specialize (Hs H). lia.
Qed.

(** ** Determinism and the host *)

(** Planning is a function of the configuration, the name and, on the
    forward timeline, of the offset of the local time zone on the day of
    the run: for two runs on any two hosts, the entries they produce for
    a name agree on slot, rank, offset (and effective name and label);
    under the fixed-anchor timeline they agree on the instant too; under
    the forward-anchor timeline the instants differ by exactly the
    difference of the two offsets. *)
Lemma planning_and_the_host (h1 h2 : Host) (g : Config)
    (name : string) (tl : timeline) (p1 p2 : planned) :
  _planned_timestamp_for_folder h1 g name tl = Ok p1 ->
  _planned_timestamp_for_folder h2 g name tl = Ok p2 ->
  (slot_idx p1 = slot_idx p2 /\ cat_idx p1 = cat_idx p2
   /\ offset_sec p1 = offset_sec p2 /\ eff_name p1 = eff_name p2
   /\ cat_label p1 = cat_label p2)
  /\ (tl = fixed_utc -> p1 = p2)
  /\ (tl = local_forward ->
      local_utcoffset h1 = local_utcoffset h2 -> p1 = p2)
  /\ (tl = local_forward ->
      PyTime.timestamp (ts_utc p1) - PyTime.timestamp (ts_utc p2)
      = local_utcoffset h2 - local_utcoffset h1).
Proof.
  intros H1 H2.
  pose proof (_planned_timestamp_for_folder_inv _ _ _ _ _ H1)
    as (E1 & L1 & M1 & U1 & T1).
  pose proof (_planned_timestamp_for_folder_inv _ _ _ _ _ H2)
    as (E2 & L2 & M2 & U2 & T2).
  rewrite E1 in E2. apply Ok_inj in E2.
  assert (Hfields : slot_idx p1 = slot_idx p2 /\ cat_idx p1 = cat_idx p2
                    /\ offset_sec p1 = offset_sec p2
                    /\ eff_name p1 = eff_name p2).
  { repeat split; congruence. }
  destruct Hfields as (Hs & Hc & Ho & He).
  assert (Hl : cat_label p1 = cat_label p2) by congruence.
  assert (Hts : PyTime.timestamp (ts_utc p1) = PyTime.timestamp (ts_utc p2) ->
                p1 = p2).
  { intros Ht. destruct p1 as [[w1 m1 u1] e1 l1 c1 s1 o1],
                        p2 as [[w2 m2 u2] e2 l2 c2 s2 o2].
    unfold PyTime.timestamp in Ht.
    cbn [ts_utc eff_name cat_label cat_idx slot_idx offset_sec
         PyTime.wall PyTime.utcoffset PyTime.microsecond] in *.
    subst. f_equal. f_equal. lia. }
  split; [auto|]. split; [|split].
  - intros ->. apply Hts. lia.
  - intros -> Hu. apply Hts. rewrite T1, T2.
    unfold PyTime.timestamp, _anchor_local_datetime, PyTime.replace_tzinfo.
    cbn [PyTime.wall PyTime.utcoffset]. lia.
  - intros ->. rewrite T1, T2.
    unfold PyTime.timestamp, _anchor_local_datetime, PyTime.replace_tzinfo.
    cbn [PyTime.wall PyTime.utcoffset]. lia.
Qed.

(** On the fixed timeline the local time zone of the host plays no
    part, failures included. *)
Lemma fixed_utc_ignores_time_zone (h1 h2 : Host) (g : Config)
    (name : string) :
  gmtime_min h1 = gmtime_min h2 -> gmtime_max h1 = gmtime_max h2 ->
  _planned_timestamp_for_folder h1 g name fixed_utc
  = _planned_timestamp_for_folder h2 g name fixed_utc.
Proof.
  intros Hmin Hmax. unfold _planned_timestamp_for_folder, fromtimestamp_utc.
  rewrite Hmin, Hmax. reflexivity.
Qed.

(** ** The two timelines at work *)

(** C1: the Category Order is written down as newest to oldest, and the
    fixed-anchor branch of the planner keeps it so; the forward-anchor
    branch, the default, adds the offset to its anchor and so walks the
    Category Order from the oldest day. With the default options, on a
    machine on UTC, "APP_A" (first category) is planned twelve days
    before "ZZZ_A" (last category) on the forward timeline, and twelve
    days after it on the fixed one. *)
Theorem C1_forward_timeline_reverses_categories :
  exists pa pb qa qb : planned,
    _planned_timestamp_for_folder utc_host (configured 2 43200 false)
      "APP_A" local_forward = Ok pa
    /\ _planned_timestamp_for_folder utc_host (configured 2 43200 false)
         "ZZZ_A" local_forward = Ok pb
    /\ _planned_timestamp_for_folder utc_host (configured 2 43200 false)
         "APP_A" fixed_utc = Ok qa
    /\ _planned_timestamp_for_folder utc_host (configured 2 43200 false)
         "ZZZ_A" fixed_utc = Ok qb
    /\ cat_idx pa = 0 /\ cat_idx pb = 12
    /\ cat_idx qa = 0 /\ cat_idx qb = 12
    /\ PyTime.timestamp (ts_utc pa) = 4070848320
    /\ PyTime.timestamp (ts_utc pb) = 4071885120
    /\ PyTime.timestamp (ts_utc pa) < PyTime.timestamp (ts_utc pb)
    /\ PyTime.timestamp (ts_utc qa) = 4070911679
    /\ PyTime.timestamp (ts_utc qb) = 4069874879
    /\ PyTime.timestamp (ts_utc qb) < PyTime.timestamp (ts_utc qa).
Proof.
  do 4 eexists.
  split; [vm_compute; reflexivity|].
  split; [vm_compute; reflexivity|].
  split; [vm_compute; reflexivity|].
  split; [vm_compute; reflexivity|].
  vm_compute. repeat split; reflexivity.
Qed.

(** With one second per slot and the nudge, the last slot of a category
    can reach the first slot of the next one: the two names below get
    the same instant from the predecessor script, whose spacing and
    nudge are fixed. *)
Lemma nudge_tie_across_categories :
  exists pa pb : planned,
    V2._planned_timestamp_for_folder utc_host "PS1_-." = Ok pa
    /\ V2._planned_timestamp_for_folder utc_host "EMU_-" = Ok pb
    /\ cat_idx pa = 2 /\ cat_idx pb = 3
    /\ slot_idx pa = 86399 /\ slot_idx pb = 0
    /\ ts_utc pa = ts_utc pb.
Proof.
  eexists. eexists.
  split; [vm_compute; reflexivity|].
  split; [vm_compute; reflexivity|].
  vm_compute. repeat split; reflexivity.
Qed.

(** C2: two pairs of names, each of one category and with payloads in
    order, that the planner puts the other way round with the default
    options. "APP_Z.A" and "APP__" on the fixed timeline: the payload
    "Z.A" is before "_", but the encoder gives it the larger slot (the
    digit 40 of "." carries), so it is planned sixteen seconds before
    "APP__", the older of the two. "A" and "B" on the forward timeline:
    the slots are in order, but the offset is added to the anchor, so "A"
    is the older of the two. *)
Theorem C2_payload_order_not_kept :
  (exists pa pb : planned,
     _planned_timestamp_for_folder utc_host (configured 2 43200 false)
       "APP_Z.A" fixed_utc = Ok pa
     /\ _planned_timestamp_for_folder utc_host (configured 2 43200 false)
          "APP__" fixed_utc = Ok pb
     /\ cat_idx pa = cat_idx pb
     /\ payload_ltb (_payload_for_effective (eff_name pa))
                    (_payload_for_effective (eff_name pb)) = true
     /\ slot_idx pa = 41048 /\ slot_idx pb = 41040
     /\ PyTime.timestamp (ts_utc pa) = 4070855503
     /\ PyTime.timestamp (ts_utc pb) = 4070855519
     /\ PyTime.timestamp (ts_utc pa) < PyTime.timestamp (ts_utc pb))
  /\ (exists pa pb : planned,
        _planned_timestamp_for_folder utc_host (configured 2 43200 false)
          "A" local_forward = Ok pa
        /\ _planned_timestamp_for_folder utc_host (configured 2 43200 false)
             "B" local_forward = Ok pb
        /\ cat_idx pa = cat_idx pb
        /\ payload_ltb (_payload_for_effective (eff_name pa))
                       (_payload_for_effective (eff_name pb)) = true
        /\ slot_idx pa = 12960 /\ slot_idx pb = 14040
        /\ PyTime.timestamp (ts_utc pa) = 4071625920
        /\ PyTime.timestamp (ts_utc pb) = 4071628080
        /\ PyTime.timestamp (ts_utc pa) < PyTime.timestamp (ts_utc pb)).
Proof.
  split.
  - do 2 eexists.
    split; [vm_compute; reflexivity|].
    split; [vm_compute; reflexivity|].
    vm_compute. repeat split; reflexivity.
  - do 2 eexists.
    split; [vm_compute; reflexivity|].
    split; [vm_compute; reflexivity|].
    vm_compute. repeat split; reflexivity.
Qed.

(** C7: two runs with the default options on one machine, whose time
    zone is an hour ahead of UTC in winter and two hours in summer, one
    on a winter day and one on a summer day. Slot, rank and offset of
    "BOOT" are the same, and so is its instant on the fixed timeline; on
    the forward timeline, the default, the two instants are an hour
    apart: the anchor takes the offset of the day of the run, not the
    one of the time zone on 2098-12-31. *)
Theorem C7_forward_anchor_depends_on_run_day :
  exists p1 p2 q1 q2 : planned,
    _planned_timestamp_for_folder (host_on_run_day 3600 false)
      (configured 2 43200 false) "BOOT" local_forward = Ok p1
    /\ _planned_timestamp_for_folder (host_on_run_day 3600 true)
         (configured 2 43200 false) "BOOT" local_forward = Ok p2
    /\ _planned_timestamp_for_folder (host_on_run_day 3600 false)
         (configured 2 43200 false) "BOOT" fixed_utc = Ok q1
    /\ _planned_timestamp_for_folder (host_on_run_day 3600 true)
         (configured 2 43200 false) "BOOT" fixed_utc = Ok q2
    /\ slot_idx p1 = slot_idx p2 /\ cat_idx p1 = cat_idx p2
    /\ offset_sec p1 = offset_sec p2
    /\ q1 = q2
    /\ PyTime.timestamp (ts_utc p1) = 4071712320
    /\ PyTime.timestamp (ts_utc p2) = 4071708720
    /\ ts_utc p1 <> ts_utc p2.
Proof.
  do 4 eexists.
  split; [vm_compute; reflexivity|].
  split; [vm_compute; reflexivity|].
  split; [vm_compute; reflexivity|].
  split; [vm_compute; reflexivity|].
  vm_compute. repeat split; try reflexivity. discriminate.
Qed.

(** ** The lexical encoder *)

(** Only the first 128 characters of the upper-cased payload are read. *)
Lemma _lex_fraction_first_128 (pa pb : string) :
  firstn 128 (list_ascii_of_string (PyStr.upper pa))
  = firstn 128 (list_ascii_of_string (PyStr.upper pb)) ->
  _lex_fraction pa = _lex_fraction pb.
Proof. unfold _lex_fraction. intros ->. reflexivity. Qed.

(** Payloads that agree on their first 128 characters get one slot. *)
Lemma _slot_index_first_128 (g : Config) (ea eb : string) :
  firstn 128 (list_ascii_of_string (PyStr.upper (_payload_for_effective ea)))
  = firstn 128 (list_ascii_of_string (PyStr.upper (_payload_for_effective eb))) ->
  _slot_index_within_category g ea = _slot_index_within_category g eb.
Proof.
  intros H. unfold _slot_index_within_category.
  rewrite (_lex_fraction_first_128 _ _ H). reflexivity.
Qed.

(** C3: the encoder is documented to map into [0,1), but the digit of a
    character is its index plus one, so the last symbol of the alphabet
    (and every character outside it) has the digit 40 in base 40: the
    payload "." encodes to exactly 1.0 and ".." to more than 1.0. *)
Theorem C3_fraction_reaches_one :
  _lex_fraction "." = Ok Float64.one
  /\ Float64.ltb Float64.one Float64.one = false
  /\ exists f, _lex_fraction ".." = Ok f /\ Float64.ltb Float64.one f = true.
Proof.
  split; [vm_compute; reflexivity|].
  split; [vm_compute; reflexivity|].
  eexists. split; vm_compute; reflexivity.
Qed.

(** C4: "Z.." comes before "_" in the order of the alphabet (Z has the
    index 36 and the underscore 37), yet its fraction is the larger one,
    and so is its slot under the default budget: the digit 40 of "."
    carries into the position before it. "Z." and "_", equal as
    fractions of integers, already differ by one unit in the last place
    the wrong way round. *)
Theorem C4_encoder_inverts_order :
  payload_ltb "Z.." "_" = true
  /\ (exists fa fb,
        _lex_fraction "Z.." = Ok fa /\ _lex_fraction "_" = Ok fb
        /\ Float64.ltb fb fa = true)
  /\ _slot_index_within_category initial_globals "Z.." = Ok 41067
  /\ _slot_index_within_category initial_globals "_" = Ok 41040
  /\ payload_ltb "Z." "_" = true
  /\ (exists fa fb,
        _lex_fraction "Z." = Ok fa /\ _lex_fraction "_" = Ok fb
        /\ Float64.ltb fb fa = true).
Proof.
  split; [vm_compute; reflexivity|].
  split; [do 2 eexists; repeat split; vm_compute; reflexivity|].
  split; [vm_compute; reflexivity|].
  split; [vm_compute; reflexivity|].
  split; [vm_compute; reflexivity|].
  do 2 eexists; repeat split; vm_compute; reflexivity.
Qed.

(** A float has 53 bits: from the twelfth character on, a character no
    longer changes the fraction of a payload that starts with "A". *)
Lemma deep_characters_are_lost :
  payload_ltb "AAAAAAAAAAA0" "AAAAAAAAAAAZ" = true
  /\ _lex_fraction "AAAAAAAAAAA0" = _lex_fraction "AAAAAAAAAAAZ".
Proof. split; vm_compute; reflexivity. Qed.

(** ** The slot *)

(** C5: for every effective name and positive slotsPerCategory, a slot
    that [_slot_index_within_category] returns satisfies
    0 <= slot <= slotsPerCategory - 1; and it does return one for every
    budget below 2^512 (beyond the range of a float the conversion of
    the budget raises). *)
Theorem C5_slot_within_budget (g : Config) (eff : string) :
  0 < SLOTS_PER_CATEGORY g ->
  (forall slot : Z,
     _slot_index_within_category g eff = Ok slot ->
     0 <= slot <= SLOTS_PER_CATEGORY g - 1)
  /\ (SLOTS_PER_CATEGORY g < 2 ^ 512 ->
      exists slot : Z, _slot_index_within_category g eff = Ok slot).
Proof.
  intros Hpos. split.
  - intros slot. apply slot_range. exact Hpos.
  - intros Hlt. apply slot_defined. lia.
Qed.

Lemma C5_witness :
  0 <= 43199 <= SLOTS_PER_CATEGORY initial_globals - 1.
Proof.
  refine (proj1 (C5_slot_within_budget initial_globals "." eq_refl) 43199 _).
  vm_compute. reflexivity.
Defined.

(** The saturation at work: the fraction 1.0 of "." would give the slot
    43200 under the default budget. *)
Lemma slot_saturates :
  _slot_index_within_category initial_globals "." = Ok 43199
  /\ (frac <- _lex_fraction "." ;;
      slots <- Float64.of_int 43200 ;;
      Float64.to_int (Float64.mul frac slots)) = Ok 43200.
Proof. split; vm_compute; reflexivity. Qed.

(** ** The example scenario *)

(** On the fixed timeline a host matters only through the range of its
    [gmtime]. *)
Lemma fromtimestamp_utc_ok (h : Host) (t : Z) :
  gmtime_min h <= t <= gmtime_max h ->
  PyTime.MIN_WALL <= t + PyTime.EPOCH_WALL <= PyTime.MAX_WALL ->
  fromtimestamp_utc h t
  = Ok {| PyTime.wall := t + PyTime.EPOCH_WALL; PyTime.microsecond := 0;
          PyTime.utcoffset := 0 |}.
Proof.
  intros Hh Hr. unfold fromtimestamp_utc.
  destruct (Z.ltb_spec t (gmtime_min h)); [lia|].
  destruct (Z.ltb_spec (gmtime_max h) t); [lia|].
  cbn [orb].
  destruct (Z.ltb_spec (t + PyTime.EPOCH_WALL) PyTime.MIN_WALL); [lia|].
  destruct (Z.ltb_spec PyTime.MAX_WALL (t + PyTime.EPOCH_WALL)); [lia|].
  reflexivity.
Qed.

Lemma _planned_timestamp_for_folder_fixed (h : Host) (g : Config)
    (name : string) (off ci sl : Z) (eff : string) :
  _deterministic_offset_seconds g name = Ok (off, ci, sl, eff) ->
  gmtime_min h <= 0 -> 4070937599 <= gmtime_max h ->
  0 <= off <= 4070937599 ->
  _planned_timestamp_for_folder h g name fixed_utc
  = Ok {| ts_utc := {| PyTime.wall := 4070937599 - off + PyTime.EPOCH_WALL;
                       PyTime.microsecond := 0; PyTime.utcoffset := 0 |};
          eff_name := eff; cat_label := _category_label_for_effective eff;
          cat_idx := ci; slot_idx := sl; offset_sec := off |}.
Proof.
  intros Hoff Hmin Hmax Hr. unfold _planned_timestamp_for_folder.
  rewrite Hoff. cbn [bind].
  change (PyTime.timestamp FIXED_BASE_UTC) with 4070937599.
  rewrite fromtimestamp_utc_ok; [reflexivity | lia |].
  change PyTime.EPOCH_WALL with 62135683200.
  change PyTime.MIN_WALL with 86400.
  change PyTime.MAX_WALL with 315537983999. lia.
Qed.

(** C6: with the defaults (43200 slots, 2 seconds per slot, nudge off)
    on the fixed timeline, on any host whose [gmtime] covers the
    timestamps from 0 to the fixed base, the four names classify as
    stated and the dry-run order, newest first, is OSDXMB, RANDOMFOLDER,
    BOOT, ZZZ_CUSTOM. *)
Theorem C6_example_scenario (h : Host) :
  gmtime_min h <= 0 -> 4070937599 <= gmtime_max h ->
  let names := ["OSDXMB"; "BOOT"; "RANDOMFOLDER"; "ZZZ_CUSTOM"] in
  map (fun name =>
         let eff := _normalize_name_for_rules name in
         (eff, _effective_category_key eff, _category_priority_index eff))
      names
  = [ ("APP_OSDXMB", "APP_", Ok 0); ("SYS_BOOT", "SYS_", Ok 10);
      ("RANDOMFOLDER", "DEFAULT", Ok 9); ("ZZZ_CUSTOM", "ZZZ_", Ok 12) ]
  /\ exists plan : list entry,
       main_plan h (default_args fixed_utc) names = Some (plan, [])
       /\ map (fun e => (fst e, cat_idx (snd e), slot_idx (snd e),
                         offset_sec (snd e))) plan
          = [ ("OSDXMB", 0, 28900, 57800); ("BOOT", 10, 14760, 893520);
              ("RANDOMFOLDER", 9, 31661, 840922);
              ("ZZZ_CUSTOM", 12, 16004, 1068808) ]
       /\ map fst (sort_newest_first plan)
          = ["OSDXMB"; "RANDOMFOLDER"; "BOOT"; "ZZZ_CUSTOM"].
Proof.
  intros Hmin Hmax names. split; [vm_compute; reflexivity|].
  assert (Htry : forall name off ci sl eff,
            _deterministic_offset_seconds (configured 2 43200 false) name
              = Ok (off, ci, sl, eff) ->
            0 <= off <= 4070937599 ->
            plan_try h (configured 2 43200 false) (default_args fixed_utc) name
            = Ok {| ts_utc := {| PyTime.wall :=
                                   4070937599 - off + PyTime.EPOCH_WALL;
                                 PyTime.microsecond := 0;
                                 PyTime.utcoffset := 0 |};
                    eff_name := eff;
                    cat_label := _category_label_for_effective eff;
                    cat_idx := ci; slot_idx := sl; offset_sec := off |}).
  { intros name off ci sl eff Hoff Hr.
    unfold plan_try, computed_instant.
    cbn [default_args arg_timeline ps2_bias_seconds fat_safe].
    rewrite (_planned_timestamp_for_folder_fixed h _ name off ci sl eff
               Hoff Hmin Hmax Hr).
    reflexivity. }
  unfold main_plan.
  change (main_globals (default_args fixed_utc))
    with (Some (configured 2 43200 false)).
  cbv beta iota. unfold names, planning_pass. cbn [plan_loop].
  rewrite (Htry "OSDXMB" 57800 0 28900 "APP_OSDXMB")
    by (vm_compute; (reflexivity || (split; discriminate))).
  rewrite (Htry "BOOT" 893520 10 14760 "SYS_BOOT")
    by (vm_compute; (reflexivity || (split; discriminate))).
  rewrite (Htry "RANDOMFOLDER" 840922 9 31661 "RANDOMFOLDER")
    by (vm_compute; (reflexivity || (split; discriminate))).
  rewrite (Htry "ZZZ_CUSTOM" 1068808 12 16004 "ZZZ_CUSTOM")
    by (vm_compute; (reflexivity || (split; discriminate))).
  eexists. split; [reflexivity|].
  split; vm_compute; reflexivity.
Qed.

Lemma C6_witness :
  exists plan : list entry,
    main_plan utc_host (default_args fixed_utc)
      ["OSDXMB"; "BOOT"; "RANDOMFOLDER"; "ZZZ_CUSTOM"] = Some (plan, [])
    /\ map fst (sort_newest_first plan)
       = ["OSDXMB"; "RANDOMFOLDER"; "BOOT"; "ZZZ_CUSTOM"].
Proof.
  destruct (proj2 (C6_example_scenario utc_host
                     ltac:(vm_compute; discriminate)
                     ltac:(vm_compute; discriminate)))
    as (plan & Hplan & _ & Horder).
  exists plan. split; assumption.
Defined.

(** ** Even-second snapping *)

Lemma add_inv (dt r : PyTime.datetime) (delta : Z) :
  PyTime.add dt delta = Ok r ->
  PyTime.wall r = PyTime.wall dt + delta
  /\ PyTime.microsecond r = PyTime.microsecond dt
  /\ PyTime.utcoffset r = PyTime.utcoffset dt
  /\ PyTime.MIN_WALL <= PyTime.wall r <= PyTime.MAX_WALL.
Proof.
  unfold PyTime.add.
  destruct (Z.ltb_spec (PyTime.wall dt + delta) PyTime.MIN_WALL);
    [discriminate|].
  destruct (Z.ltb_spec PyTime.MAX_WALL (PyTime.wall dt + delta));
    [discriminate|].
  cbn [orb]. intros E. apply Ok_inj in E. subst r.
  cbn [PyTime.wall PyTime.microsecond PyTime.utcoffset].
  repeat split; first [lia | reflexivity].
Qed.

Lemma astimezone_utc_inv (dt r : PyTime.datetime) :
  PyTime.astimezone_utc dt = Ok r ->
  PyTime.wall r = PyTime.wall dt - PyTime.utcoffset dt
  /\ PyTime.microsecond r = PyTime.microsecond dt
  /\ PyTime.utcoffset r = 0
  /\ PyTime.MIN_WALL <= PyTime.wall r <= PyTime.MAX_WALL.
Proof.
  unfold PyTime.astimezone_utc.
  destruct (Z.ltb_spec (PyTime.wall dt - PyTime.utcoffset dt) PyTime.MIN_WALL);
    [discriminate|].
  destruct (Z.ltb_spec PyTime.MAX_WALL (PyTime.wall dt - PyTime.utcoffset dt));
    [discriminate|].
  cbn [orb]. intros E. apply Ok_inj in E. subst r.
  cbn [PyTime.wall PyTime.microsecond PyTime.utcoffset].
  repeat split; first [lia | reflexivity].
Qed.

Lemma fromtimestamp_utc_inv (h : Host) (t : Z) (r : PyTime.datetime) :
  fromtimestamp_utc h t = Ok r ->
  PyTime.wall r = t + PyTime.EPOCH_WALL
  /\ PyTime.microsecond r = 0
  /\ PyTime.utcoffset r = 0
  /\ PyTime.MIN_WALL <= PyTime.wall r <= PyTime.MAX_WALL.
Proof.
  unfold fromtimestamp_utc.
  destruct (_ || _); [discriminate|].
  destruct (Z.ltb_spec (t + PyTime.EPOCH_WALL) PyTime.MIN_WALL);
    [discriminate|].
  destruct (Z.ltb_spec PyTime.MAX_WALL (t + PyTime.EPOCH_WALL));
    [discriminate|].
  cbn [orb]. intros E. apply Ok_inj in E. subst r.
  cbn [PyTime.wall PyTime.microsecond PyTime.utcoffset].
  repeat split; first [lia | reflexivity].
Qed.

Lemma timedelta_seconds_inv (n d : Z) :
  PyTime.timedelta_seconds n = Ok d -> d = n.
Proof.
  unfold PyTime.timedelta_seconds. destruct (_ || _); [discriminate|].
  intros E. apply Ok_inj in E. auto.
Qed.

(** A planned instant is a whole second of the UTC clock, within the
    range of [datetime]. *)
Lemma planned_instant_whole (h : Host) (g : Config) (name : string)
    (tl : timeline) (p : planned) :
  _planned_timestamp_for_folder h g name tl = Ok p ->
  PyTime.microsecond (ts_utc p) = 0
  /\ PyTime.utcoffset (ts_utc p) = 0
  /\ PyTime.MIN_WALL <= PyTime.wall (ts_utc p) <= PyTime.MAX_WALL.
Proof.
  unfold _planned_timestamp_for_folder.
  destruct (_deterministic_offset_seconds g name) as [[[[off ci] sl] eff]|];
    [|discriminate].
  cbn [bind]. destruct tl.
  - destruct (PyTime.timedelta_seconds off) as [d|]; [|discriminate].
    cbn [bind].
    destruct (PyTime.add (_anchor_local_datetime h) d) as [pl|] eqn:Hadd;
      [|discriminate].
    cbn [bind].
    destruct (PyTime.astimezone_utc pl) as [ts|] eqn:Hutc; [|discriminate].
    cbn [bind]. intros E. apply Ok_inj in E. subst p. cbn [ts_utc].
    apply add_inv in Hadd as (_ & Hm & _ & _).
    apply astimezone_utc_inv in Hutc as (_ & Hm' & Hu & Hr).
    unfold _anchor_local_datetime, PyTime.replace_tzinfo in Hm.
    cbn [PyTime.microsecond] in Hm.
    repeat split; first [lia | congruence].
  - destruct (fromtimestamp_utc h _) as [ts|] eqn:Hts; [|discriminate].
    cbn [bind]. intros E. apply Ok_inj in E. subst p. cbn [ts_utc].
    apply fromtimestamp_utc_inv in Hts as (_ & Hm & Hu & Hr).
    repeat split; first [lia | congruence].
Qed.

(** So is the instant that [main] computes, bias included. *)
Lemma computed_instant_whole (h : Host) (g : Config) (args : Args)
    (name : string) (p : planned) :
  computed_instant h g args name = Ok p ->
  PyTime.microsecond (ts_utc p) = 0
  /\ PyTime.utcoffset (ts_utc p) = 0
  /\ PyTime.MIN_WALL <= PyTime.wall (ts_utc p) <= PyTime.MAX_WALL.
Proof.
  unfold computed_instant.
  destruct (_planned_timestamp_for_folder h g name (arg_timeline args))
    as [q|] eqn:Hq; [|discriminate].
  cbn [bind]. apply planned_instant_whole in Hq as (Hm & Hu & Hr).
  destruct (ps2_bias_seconds args =? 0).
  - cbn [bind]. intros E. apply Ok_inj in E. subst p.
    unfold with_ts. cbn [ts_utc]. auto.
  - destruct (PyTime.timedelta_seconds _) as [d|]; [|discriminate].
    cbn [bind].
    destruct (PyTime.add (ts_utc q) d) as [ts|] eqn:Hadd; [|discriminate].
    cbn [bind]. intros E. apply Ok_inj in E. subst p.
    unfold with_ts. cbn [ts_utc].
    apply add_inv in Hadd as (_ & Hm' & Hu' & Hr').
    repeat split; first [lia | congruence].
Qed.

(** What snapping does to any datetime: the microseconds go, and an odd
    second is moved to the next one. *)
Lemma _snap_even_second_inv (dt r : PyTime.datetime) :
  _snap_even_second dt = Ok r ->
  PyTime.microsecond r = 0
  /\ PyTime.second r mod 2 = 0
  /\ PyTime.utcoffset r = PyTime.utcoffset dt
  /\ PyTime.wall r
     = PyTime.wall dt + (if PyTime.second dt mod 2 =? 1 then 1 else 0).
Proof.
  unfold _snap_even_second, PyTime.second, PyTime.replace_microsecond.
  cbn [PyTime.wall].
  destruct (Z.eqb_spec ((PyTime.wall dt mod 60) mod 2) 1) as [Hodd|Heven].
  - change (PyTime.timedelta_seconds 1) with (Ok (A := Z) 1). cbn [bind].
    intros E. apply add_inv in E as (Hw & Hm & Hu & _).
    cbn [PyTime.wall PyTime.microsecond PyTime.utcoffset] in Hw, Hm, Hu.
    rewrite Hw. repeat split; try assumption.
    revert Hodd. generalize (PyTime.wall dt). intros w.
    Z.div_mod_to_equations. lia.
  - intros E. apply Ok_inj in E. subst r.
    cbn [PyTime.wall PyTime.microsecond PyTime.utcoffset].
    repeat split; try reflexivity; try lia.
    revert Heven. generalize (PyTime.wall dt). intros w.
    Z.div_mod_to_equations. lia.
Qed.

(** C8: for an instant that the planner computes (the planned instant
    with the bias applied): when its seconds component is odd, the
    snapped instant, which exists unless the instant is the last second
    of [datetime], has an even seconds component and no microseconds and
    is one second later; when its seconds component is even, snapping
    returns it unchanged. *)
Theorem C8_snap_even_second (h : Host) (g : Config) (args : Args)
    (name : string) (p : planned) :
  computed_instant h g args name = Ok p ->
  (PyTime.second (ts_utc p) mod 2 = 1 ->
     (forall r, _snap_even_second (ts_utc p) = Ok r ->
        PyTime.second r mod 2 = 0 /\ PyTime.microsecond r = 0
        /\ PyTime.timestamp r = PyTime.timestamp (ts_utc p) + 1)
     /\ (PyTime.wall (ts_utc p) < PyTime.MAX_WALL ->
         exists r, _snap_even_second (ts_utc p) = Ok r))
  /\ (PyTime.second (ts_utc p) mod 2 = 0 ->
      _snap_even_second (ts_utc p) = Ok (ts_utc p)).
Proof.
  intros Hp. apply computed_instant_whole in Hp as (Hm & Hu & Hr).
  split.
  - intros Hodd. split.
    + intros r H. apply _snap_even_second_inv in H as (Hm' & He & Hu' & Hw).
      rewrite Hodd in Hw. cbn [Z.eqb Pos.eqb] in Hw.
      unfold PyTime.timestamp. repeat split; try assumption. lia.
    + intros Hlt. unfold _snap_even_second, PyTime.replace_microsecond.
      unfold PyTime.second in *. cbn [PyTime.wall].
      rewrite Hodd. cbn [Z.eqb Pos.eqb].
      change (PyTime.timedelta_seconds 1) with (Ok (A := Z) 1). cbn [bind].
      unfold PyTime.add. cbn [PyTime.wall].
      destruct (Z.ltb_spec (PyTime.wall (ts_utc p) + 1) PyTime.MIN_WALL);
        [lia|].
      destruct (Z.ltb_spec PyTime.MAX_WALL (PyTime.wall (ts_utc p) + 1));
        [lia|].
      cbn [orb]. eexists. reflexivity.
  - intros Heven. unfold _snap_even_second, PyTime.replace_microsecond.
    unfold PyTime.second in *. cbn [PyTime.wall].
    rewrite Heven. cbn [Z.eqb]. f_equal.
    destruct (ts_utc p) as [w m u]. cbn [PyTime.microsecond] in Hm.
    cbn [PyTime.wall PyTime.utcoffset]. subst m. reflexivity.
Qed.

Lemma C8_witness :
  exists (p : planned) (r : PyTime.datetime),
    computed_instant utc_host (configured 2 43200 false)
      (default_args fixed_utc) "OSDXMB" = Ok p
    /\ PyTime.second (ts_utc p) = 39
    /\ _snap_even_second (ts_utc p) = Ok r
    /\ PyTime.second r mod 2 = 0
    /\ PyTime.microsecond r = 0.
Proof.
  eexists. eexists.
  split; [vm_compute; reflexivity|].
  split; [vm_compute; reflexivity|].
  split; [vm_compute; reflexivity|].
  pose proof (proj1 (proj1 (C8_snap_even_second utc_host
                              (configured 2 43200 false)
                              (default_args fixed_utc) "OSDXMB" _
                              ltac:(vm_compute; reflexivity))
                       ltac:(vm_compute; reflexivity))
                _ ltac:(vm_compute; reflexivity)) as (He & Hm & _).
  split; [exact He | exact Hm].
Defined.

(** ** The plan builder *)

(** The loop appends to the plan the entries of the names that succeed
    and to the warnings the names that raise. *)
Lemma plan_loop_spec (attempt : string -> result planned)
    (names : list string) :
  forall (plan : list entry) (warnings : list (string * exn)),
  plan_loop attempt names plan warnings
  = ((plan ++ entries_of attempt names)%list,
     (warnings ++ warnings_of attempt names)%list).
Proof.
  induction names as [|name rest IH]; intros plan warnings.
  - cbn [plan_loop entries_of warnings_of flat_map].
    rewrite !app_nil_r. reflexivity.
  - cbn [plan_loop entries_of warnings_of flat_map].
    destruct (attempt name) as [p|e]; rewrite IH.
    + rewrite <- app_assoc. reflexivity.
    + rewrite <- app_assoc. reflexivity.
Qed.

Lemma In_entries_of (attempt : string -> result planned)
    (names : list string) (name : string) (p : planned) :
  In (name, p) (entries_of attempt names) <->
  In name names /\ attempt name = Ok p.
Proof.
  unfold entries_of. rewrite in_flat_map. split.
  - intros (x & Hx & Hin). destruct (attempt x) as [q|e] eqn:E.
    + destruct Hin as [Heq|[]]. injection Heq as <- <-. auto.
    + destruct Hin.
  - intros (Hin & E). exists name. rewrite E. split; [exact Hin|].
    left. reflexivity.
Qed.

Lemma In_warnings_of (attempt : string -> result planned)
    (names : list string) (name : string) (e : exn) :
  In (name, e) (warnings_of attempt names) <->
  In name names /\ attempt name = Raise e.
Proof.
  unfold warnings_of. rewrite in_flat_map. split.
  - intros (x & Hx & Hin). destruct (attempt x) as [q|e'] eqn:E.
    + destruct Hin.
    + destruct Hin as [Heq|[]]. injection Heq as <- <-. auto.
  - intros (Hin & E). exists name. rewrite E. split; [exact Hin|].
    left. reflexivity.
Qed.

Lemma entries_of_skip (attempt : string -> result planned)
    (before after : list string) (bad : string) (e : exn) :
  attempt bad = Raise e ->
  entries_of attempt (before ++ bad :: after)%list
  = entries_of attempt (before ++ after)%list.
Proof.
  intros E. unfold entries_of. rewrite !flat_map_app.
  cbn [flat_map]. rewrite E. reflexivity.
Qed.

Lemma plan_loop_failure_tolerant (attempt : string -> result planned) :
  failure_tolerant attempt (fun names => plan_loop attempt names [] []).
Proof.
  intros names. cbv beta. rewrite plan_loop_spec. cbn [fst snd app].
  split; [|split].
  - intros name p. apply In_entries_of.
  - intros name e. apply In_warnings_of.
  - intros before bad after e -> E. rewrite plan_loop_spec. cbn [fst app].
    apply entries_of_skip with (1 := E).
Qed.

(** C10: in both scripts the planning loop tolerates a failing name: a
    name whose computation raises is left out with a warning, the plan
    holds the entry of every name whose computation succeeds, and these
    entries are what they are without the failing name; [main] goes on
    to a plan whenever its options are valid. *)
Theorem C10_failure_tolerance :
  (forall (h : Host) (args : Args) (g : Config),
     main_globals args = Some g ->
     failure_tolerant (plan_try h g args) (planning_pass h g args)
     /\ forall names, main_plan h args names
                      = Some (planning_pass h g args names))
  /\ (forall h : Host,
        failure_tolerant (V2._planned_timestamp_for_folder h)
                         (V2.main_plan h)).
Proof.
  split.
  - intros h args g Hg. split.
    + apply plan_loop_failure_tolerant.
    + intros names. unfold main_plan. rewrite Hg. reflexivity.
  - intros h. apply plan_loop_failure_tolerant.
Qed.

Lemma C10_witness :
  fst (planning_pass utc_host (configured 1000000 43200 false) wide_args
         ["APP_"; "ZZZ_A"; "APPS"])
  = fst (planning_pass utc_host (configured 1000000 43200 false) wide_args
           ["APP_"; "APPS"]).
Proof.
  refine (proj2 (proj2 (proj1 (proj1 C10_failure_tolerance utc_host wide_args
                                 (configured 1000000 43200 false) eq_refl)
                          ["APP_"; "ZZZ_A"; "APPS"]))
            ["APP_"] "ZZZ_A" ["APPS"] OSError eq_refl _).
  vm_compute. reflexivity.
Defined.

Lemma wide_args_plan :
  exists pa pb,
    planning_pass utc_host (configured 1000000 43200 false) wide_args
      ["APP_"; "ZZZ_A"; "APPS"]
    = ([("APP_", pa); ("APPS", pb)], [("ZZZ_A", OSError)]).
Proof. do 2 eexists. vm_compute. reflexivity. Qed.

(** Where [time_t] has 32 bits the fixed base is out of range, and the
    predecessor script plans nothing: every name ends as a warning. *)
Lemma V2_on_32_bit_time_t :
  V2.main_plan {| local_utcoffset := 0; gmtime_min := - 2 ^ 31;
                  gmtime_max := 2 ^ 31 - 1 |} ["BOOT"; "OPL"]
  = ([], [("BOOT", OSError); ("OPL", OSError)]).
Proof. vm_compute. reflexivity. Qed.

(** * Further properties *)

(** ** Strings: case and white space *)

Lemma upper_char_idem (c : ascii) :
  PyStr.upper_char (PyStr.upper_char c) = PyStr.upper_char c.
Proof. destruct c as [[] [] [] [] [] [] [] []]; reflexivity. Qed.

Lemma is_space_upper_char (c : ascii) :
  PyStr.is_space (PyStr.upper_char c) = PyStr.is_space c.
Proof. destruct c as [[] [] [] [] [] [] [] []]; reflexivity. Qed.

Lemma upper_idem (s : string) : PyStr.upper (PyStr.upper s) = PyStr.upper s.
Proof.
  induction s as [|c r IH]; [reflexivity|].
  cbn [PyStr.upper]. rewrite upper_char_idem, IH. reflexivity.
Qed.

Lemma upper_empty_iff (s : string) : PyStr.upper s = "" <-> s = "".
Proof. destruct s; cbn [PyStr.upper]; split; intros H; congruence. Qed.

Lemma lstrip_upper (s : string) :
  PyStr.lstrip (PyStr.upper s) = PyStr.upper (PyStr.lstrip s).
Proof.
  induction s as [|c r IH]; [reflexivity|].
  cbn [PyStr.upper PyStr.lstrip]. rewrite is_space_upper_char.
  destruct (PyStr.is_space c); [exact IH | reflexivity].
Qed.

Lemma rstrip_upper (s : string) :
  PyStr.rstrip (PyStr.upper s) = PyStr.upper (PyStr.rstrip s).
Proof.
  induction s as [|c r IH]; [reflexivity|].
  cbn [PyStr.upper PyStr.rstrip]. rewrite IH, is_space_upper_char.
  destruct (PyStr.rstrip r) as [|c' r']; cbn [PyStr.upper].
  - destruct (PyStr.is_space c); reflexivity.
  - reflexivity.
Qed.

Lemma strip_upper (s : string) :
  PyStr.strip (PyStr.upper s) = PyStr.upper (PyStr.strip s).
Proof. unfold PyStr.strip. rewrite lstrip_upper, rstrip_upper. reflexivity. Qed.

Lemma lstrip_no_leading_space (s : string) :
  no_leading_space (PyStr.lstrip s).
Proof.
  induction s as [|c r IH]; [exact I|].
  cbn [PyStr.lstrip]. destruct (PyStr.is_space c) eqn:E; [exact IH | exact E].
Qed.

Lemma lstrip_fixed (s : string) :
  no_leading_space s -> PyStr.lstrip s = s.
Proof.
  destruct s as [|c r]; [reflexivity|]. cbn [no_leading_space PyStr.lstrip].
  intros ->. reflexivity.
Qed.

Lemma rstrip_no_leading_space (s : string) :
  no_leading_space s -> no_leading_space (PyStr.rstrip s).
Proof.
  destruct s as [|c r]; [intros _; exact I|].
  cbn [no_leading_space PyStr.rstrip]. intros E.
  destruct (PyStr.rstrip r); [rewrite E|]; exact E.
Qed.

Lemma rstrip_idem (s : string) :
  PyStr.rstrip (PyStr.rstrip s) = PyStr.rstrip s.
Proof.
  induction s as [|c r IH]; [reflexivity|].
  cbn [PyStr.rstrip].
  destruct (PyStr.rstrip r) as [|c' r'] eqn:E.
  - destruct (PyStr.is_space c) eqn:Ec; [reflexivity|].
    cbn [PyStr.rstrip]. rewrite Ec. reflexivity.
  - cbn [PyStr.rstrip]. cbn [PyStr.rstrip] in IH.
    rewrite IH. reflexivity.
Qed.

Lemma strip_idem (s : string) : PyStr.strip (PyStr.strip s) = PyStr.strip s.
Proof.
  unfold PyStr.strip.
  rewrite (lstrip_fixed (PyStr.rstrip (PyStr.lstrip s))).
  - apply rstrip_idem.
  - apply rstrip_no_leading_space, lstrip_no_leading_space.
Qed.

(** The key under which a raw name is looked up. *)
Lemma lookup_key_canonical (s : string) :
  PyStr.upper (PyStr.strip (PyStr.upper (PyStr.strip s)))
  = PyStr.upper (PyStr.strip s).
Proof. rewrite strip_upper, strip_idem, upper_idem. reflexivity. Qed.

Lemma lstrip_all_space (ws : string) :
  all_space ws = true -> PyStr.lstrip ws = "".
Proof.
  induction ws as [|c r IH]; [reflexivity|].
  cbn [all_space PyStr.lstrip]. intros H.
  apply andb_true_iff in H as [-> Hr]. auto.
Qed.

Lemma rstrip_all_space (ws : string) :
  all_space ws = true -> PyStr.rstrip ws = "".
Proof.
  induction ws as [|c r IH]; [reflexivity|].
  cbn [all_space PyStr.rstrip]. intros H.
  apply andb_true_iff in H as [-> Hr]. rewrite (IH Hr). reflexivity.
Qed.

Lemma lstrip_app_space (ws s : string) :
  all_space ws = true -> PyStr.lstrip (ws ++ s) = PyStr.lstrip s.
Proof.
  induction ws as [|c r IH]; [reflexivity|].
  cbn [all_space]. intros H. apply andb_true_iff in H as [Hc Hr].
  cbn [append PyStr.lstrip]. rewrite Hc. auto.
Qed.

Lemma rstrip_app_space (s ws : string) :
  all_space ws = true -> PyStr.rstrip (s ++ ws) = PyStr.rstrip s.
Proof.
  intros H. induction s as [|c r IH].
  - cbn [append]. rewrite (rstrip_all_space ws H). reflexivity.
  - cbn [append PyStr.rstrip]. rewrite IH. reflexivity.
Qed.

(** White space around a string does not survive [strip]. *)
Lemma strip_padding (ws1 s ws2 : string) :
  all_space ws1 = true -> all_space ws2 = true ->
  PyStr.strip (ws1 ++ s ++ ws2) = PyStr.strip s.
Proof.
  intros H1 H2. unfold PyStr.strip. rewrite (lstrip_app_space _ _ H1).
  induction s as [|c r IH].
  - cbn [append]. rewrite (lstrip_all_space ws2 H2). reflexivity.
  - cbn [append PyStr.lstrip]. destruct (PyStr.is_space c); [exact IH|].
    change (String c (r ++ ws2)) with (String c r ++ ws2).
    apply rstrip_app_space. exact H2.
Qed.

(** ** The normaliser *)

Lemma UNPREFIXED_MAP_value :
  UNPREFIXED_MAP
  = [ ("APP_", ["OSDXMB"; "XEBPLUS"]); ("APPS", []); ("PS1_", []);
      ("EMU_", []); ("GME_", []); ("DST_", []); ("DBG_", []);
      ("RAA_", ["RESTART"; "POWEROFF"]); ("RTE_", ["NEUTRINO"]);
      ("SYS_", ["BOOT"]); ("ZZY_", ["EXPLOITS"]);
      ("ZZZ_", ["BM"; "MATRIXTEAM"; "OPL"]) ].
Proof. vm_compute. reflexivity. Qed.

(** The normaliser reads a raw name only through its stripped,
    upper-cased form. *)
Lemma _normalize_name_for_rules_by_key (a b : string) :
  PyStr.upper (PyStr.strip a) = PyStr.upper (PyStr.strip b) ->
  _normalize_name_for_rules a = _normalize_name_for_rules b.
Proof. unfold _normalize_name_for_rules. intros ->. reflexivity. Qed.

Ltac case_names n :=
  repeat match goal with
         | |- context [String.eqb n ?k] =>
             destruct (String.eqb_spec n k);
             cbn [orb find snd fst PyStr.mem existsb]
         end.

(** The built-in defaults never decide: a name they list is in the alias
    table already, under the same category. *)
Theorem builtin_defaults_never_fire (s : string) :
  let n := PyStr.upper (PyStr.strip s) in
  _normalize_name_for_rules s
  = match find (fun kv => PyStr.mem n (snd kv)) UNPREFIXED_MAP with
    | Some (cat_key, _) =>
        if String.eqb cat_key "APPS" then "APPS" else cat_key ++ n
    | None => n
    end.
Proof.
  unfold _normalize_name_for_rules. cbv zeta.
  generalize (PyStr.upper (PyStr.strip s)). intros n.
  rewrite UNPREFIXED_MAP_value.
  cbn [orb find snd fst PyStr.mem existsb].
  case_names n; reflexivity.
Qed.

(** Every name of the alias table, in any letter case and with any
    white space around it, resolves to the category it is listed under:
    the effective name is the category key followed by the name, it
    classifies as that category, and its payload is the name. *)
Theorem alias_resolves_to_its_category (s cat_key : string)
    (names : list string) :
  In (cat_key, names) UNPREFIXED_MAP ->
  In (PyStr.upper (PyStr.strip s)) names ->
  _normalize_name_for_rules s = cat_key ++ PyStr.upper (PyStr.strip s)
  /\ _effective_category_key (_normalize_name_for_rules s) = cat_key
  /\ _payload_for_effective (_normalize_name_for_rules s)
     = PyStr.upper (PyStr.strip s).
Proof.
  unfold _normalize_name_for_rules. cbv zeta.
  generalize (PyStr.upper (PyStr.strip s)). intros n.
  rewrite UNPREFIXED_MAP_value. intros Hin Hn.
  cbn [In] in Hin.
  repeat (destruct Hin as [Heq|Hin];
          [injection Heq as <- <-; cbn [In] in Hn;
           repeat (destruct Hn as [<-|Hn];
                   [vm_compute; repeat split; reflexivity|]);
           contradiction|]).
  contradiction.
Qed.

Lemma alias_witness :
  _normalize_name_for_rules "  opl " = "ZZZ_" ++ PyStr.upper (PyStr.strip "  opl ")
  /\ _effective_category_key (_normalize_name_for_rules "  opl ") = "ZZZ_"
  /\ _payload_for_effective (_normalize_name_for_rules "  opl ")
     = PyStr.upper (PyStr.strip "  opl ").
Proof.
  apply (alias_resolves_to_its_category "  opl " "ZZZ_"
           ["BM"; "MATRIXTEAM"; "OPL"]).
  - rewrite UNPREFIXED_MAP_value. cbn [In]. tauto.
  - vm_compute. tauto.
Defined.

(** The effective name is the stripped upper-cased name itself, or one
    of the ten prefixed aliases. *)
Lemma _normalize_name_for_rules_cases (s : string) :
  _normalize_name_for_rules s = PyStr.upper (PyStr.strip s)
  \/ In (_normalize_name_for_rules s)
        [ "APP_OSDXMB"; "APP_XEBPLUS"; "RAA_RESTART"; "RAA_POWEROFF";
          "RTE_NEUTRINO"; "SYS_BOOT"; "ZZY_EXPLOITS"; "ZZZ_BM";
          "ZZZ_MATRIXTEAM"; "ZZZ_OPL" ].
Proof.
  unfold _normalize_name_for_rules. cbv zeta.
  generalize (PyStr.upper (PyStr.strip s)). intros n.
  rewrite UNPREFIXED_MAP_value.
  cbn [orb find snd fst PyStr.mem existsb].
  case_names n; subst; try (left; reflexivity);
    right; vm_compute; tauto.
Qed.

(** Normalising is idempotent: an effective name is its own effective
    name. *)
Theorem _normalize_name_for_rules_idempotent (s : string) :
  _normalize_name_for_rules (_normalize_name_for_rules s)
  = _normalize_name_for_rules s.
Proof.
  destruct (_normalize_name_for_rules_cases s) as [E|Hin].
  - rewrite E at 1. apply _normalize_name_for_rules_by_key.
    apply lookup_key_canonical.
  - cbn [In] in Hin.
    repeat (destruct Hin as [<-|Hin]; [vm_compute; reflexivity|]).
    contradiction.
Qed.

(** On ASCII names the normaliser is blind to letter case and to ASCII
    white space around the name: two ASCII names with the same
    upper-cased form, one of them padded with ASCII white space, get
    the same effective name. *)
Theorem _normalize_name_for_rules_case_and_padding (a b ws1 ws2 : string) :
  ascii_only a = true -> ascii_only b = true ->
  PyStr.upper a = PyStr.upper b ->
  all_space ws1 = true -> all_space ws2 = true ->
  _normalize_name_for_rules (ws1 ++ a ++ ws2) = _normalize_name_for_rules b.
Proof.
  intros _ _ Hab H1 H2. apply _normalize_name_for_rules_by_key.
  rewrite (strip_padding _ _ _ H1 H2).
  rewrite <- !strip_upper. rewrite Hab. reflexivity.
Qed.

Lemma case_and_padding_witness :
  _normalize_name_for_rules (" " ++ "Boot" ++ "  ")
  = _normalize_name_for_rules "bOOT".
Proof.
  apply _normalize_name_for_rules_case_and_padding; reflexivity.
Defined.

(** ** The alias lists of the configuration *)

(** For an ASCII comma-separated alias list, the names parsed from it
    are not empty and are in the form the normaliser looks up
    (stripped, upper case); and an ASCII raw name is found in the parsed
    set exactly when it equals, up to letter case and surrounding ASCII
    white space, an item of the list that is not blank. *)
Theorem _parse_csv_canonical (csv : string) :
  ascii_only csv = true ->
  (forall n, In n (_parse_csv csv) ->
     n <> "" /\ PyStr.upper n = n /\ PyStr.strip n = n)
  /\ (forall name,
        ascii_only name = true ->
        PyStr.mem (PyStr.upper (PyStr.strip name)) (_parse_csv csv) = true
        <-> exists item, In item (PyStr.split "," csv)
                         /\ PyStr.strip item <> ""
                         /\ PyStr.upper (PyStr.strip name)
                            = PyStr.upper (PyStr.strip item)).
Proof.
  intros _.
  assert (Hin : forall n, In n (_parse_csv csv) <->
                exists item, In item (PyStr.split "," csv)
                             /\ PyStr.strip item <> ""
                             /\ n = PyStr.upper (PyStr.strip item)).
  { intros n. unfold _parse_csv.
    destruct (String.eqb_spec csv "") as [->|Hne].
    - cbn [PyStr.split In]. split; [contradiction|].
      intros (item & [<-|[]] & Hs & _). apply Hs. reflexivity.
    - rewrite in_map_iff. split.
      + intros (item & <- & Hf). apply filter_In in Hf as [Hi Hb].
        exists item. split; [exact Hi|]. split; [|reflexivity].
        apply negb_true_iff in Hb.
        destruct (String.eqb_spec (PyStr.strip item) ""); congruence.
      + intros (item & Hi & Hs & ->). exists item. split; [reflexivity|].
        apply filter_In. split; [exact Hi|]. apply negb_true_iff.
        destruct (String.eqb_spec (PyStr.strip item) ""); congruence. }
  split.
  - intros n Hn. apply Hin in Hn as (item & _ & Hs & ->).
    split; [|split].
    + rewrite upper_empty_iff. exact Hs.
    + apply upper_idem.
    + rewrite strip_upper, strip_idem. reflexivity.
  - intros name _. unfold PyStr.mem. rewrite existsb_exists. split.
    + intros (n & Hn & E). apply String.eqb_eq in E. subst n.
      apply Hin in Hn. exact Hn.
    + intros (item & Hi & Hs & E). exists (PyStr.upper (PyStr.strip name)).
      split; [|apply String.eqb_refl].
      apply Hin. exists item. auto.
Qed.

Lemma _parse_csv_canonical_witness :
  (forall n, In n (_parse_csv "boot, ,Opl") ->
     n <> "" /\ PyStr.upper n = n /\ PyStr.strip n = n)
  /\ (forall name,
        ascii_only name = true ->
        PyStr.mem (PyStr.upper (PyStr.strip name)) (_parse_csv "boot, ,Opl")
        = true
        <-> exists item, In item (PyStr.split "," "boot, ,Opl")
                         /\ PyStr.strip item <> ""
                         /\ PyStr.upper (PyStr.strip name)
                            = PyStr.upper (PyStr.strip item)).
Proof.
  apply (_parse_csv_canonical "boot, ,Opl"). reflexivity.
Defined.

(** ** The classifier *)

Lemma startswith_iff (s p : string) :
  PyStr.startswith s p = true <-> exists r, s = p ++ r.
Proof.
  unfold PyStr.startswith. revert s.
  induction p as [|a p IH]; intros s.
  - split; [intros _; exists s; reflexivity |].
    intros _. destruct s; reflexivity.
  - destruct s as [|b s]; cbn [String.prefix append].
    + split; [discriminate | intros (r & H); discriminate].
    + destruct (ascii_dec a b) as [->|Hne].
      * rewrite IH. split; intros (r & H); exists r; congruence.
      * split; [discriminate | intros (r & H); congruence].
Qed.

Lemma startswith_app (key r : string) :
  PyStr.startswith (key ++ r) key = true.
Proof. apply startswith_iff. exists r. reflexivity. Qed.

(** A name that starts with one of the prefixes is in its category. *)
Lemma _effective_category_key_prefixed (key r : string) :
  In key ("SYS_" :: PREFIX_KEYS) -> _effective_category_key (key ++ r) = key.
Proof.
  intros Hk. cbn [In PREFIX_KEYS] in Hk.
  repeat (destruct Hk as [<-|Hk];
          [unfold _effective_category_key; rewrite startswith_app;
           vm_compute; reflexivity|]).
  contradiction.
Qed.

Ltac split_key H :=
  unfold _effective_category_key in H;
  repeat match type of H with
         | context [if ?b then _ else _] =>
             let E := fresh "E" in destruct b eqn:E
         end.

(** The order of the tests in the classifier does not matter: a name is
    in a prefix category exactly when it starts with that prefix, in
    SYS_ also when it is SYS, in APPS exactly when it is APPS, and in
    DEFAULT exactly when none of these holds. *)
Theorem classification_by_prefix (eff : string) :
  (forall key, In key PREFIX_KEYS ->
     (_effective_category_key eff = key <-> PyStr.startswith eff key = true))
  /\ (_effective_category_key eff = "SYS_" <->
      PyStr.startswith eff "SYS_" = true \/ eff = "SYS")
  /\ (_effective_category_key eff = "APPS" <-> eff = "APPS")
  /\ (_effective_category_key eff = "DEFAULT" <->
      (forall key, In key ("SYS_" :: PREFIX_KEYS) ->
         PyStr.startswith eff key = false)
      /\ eff <> "APPS" /\ eff <> "SYS").
Proof.
  split; [|split; [|split]].
  - intros key Hk. split.
    + intros H. cbn [In PREFIX_KEYS] in Hk.
      repeat (destruct Hk as [<-|Hk];
              [split_key H; try discriminate; first [assumption | reflexivity]|]).
      contradiction.
    + intros H. apply startswith_iff in H as (r & ->).
      apply _effective_category_key_prefixed. right. exact Hk.
  - split.
    + intros H. split_key H; try discriminate.
      apply orb_true_iff in E8 as [E8|E8]; [left; exact E8|].
      right. apply String.eqb_eq. exact E8.
    + intros [H| ->]; [|vm_compute; reflexivity].
      apply startswith_iff in H as (r & ->).
      apply _effective_category_key_prefixed. left. reflexivity.
  - split.
    + intros H. split_key H; try discriminate.
      apply String.eqb_eq. assumption.
    + intros ->. vm_compute. reflexivity.
  - split.
    + intros H. split_key H; try discriminate.
      apply orb_false_iff in E8 as [E8 E8'].
      split; [|split].
      * intros key Hk. cbn [In PREFIX_KEYS] in Hk.
        repeat (destruct Hk as [<-|Hk]; [assumption|]). contradiction.
      * intros ->. discriminate.
      * intros ->. discriminate.
    + intros (Hp & Ha & Hs). unfold _effective_category_key.
      rewrite !Hp by (cbn [In PREFIX_KEYS]; tauto).
      destruct (String.eqb_spec eff "APPS"); [contradiction|].
      destruct (String.eqb_spec eff "SYS"); [contradiction|].
      reflexivity.
Qed.

Lemma classification_witness :
  _effective_category_key "EMU_SNES" = "EMU_".
Proof.
  apply (proj1 (classification_by_prefix "EMU_SNES")).
  - cbn [In PREFIX_KEYS]. tauto.
  - reflexivity.
Defined.

(** ** The payload *)

Lemma remove_char_absent (x : ascii) (s : string) :
  ~ In x (list_ascii_of_string (PyStr.remove_char x s)).
Proof.
  induction s as [|c r IH]; cbn [PyStr.remove_char]; [intros []|].
  destruct (Ascii.eqb_spec c x) as [->|Hne]; [exact IH|].
  cbn [list_ascii_of_string In]. intros [E|H]; [congruence | exact (IH H)].
Qed.

(** No payload contains a dash. *)
Theorem _payload_for_effective_has_no_dash (eff : string) :
  ~ In "-"%char (list_ascii_of_string (_payload_for_effective eff)).
Proof.
  unfold _payload_for_effective.
  destruct (String.eqb _ "APPS").
  - vm_compute. intuition discriminate.
  - destruct (String.eqb _ "DEFAULT"); apply remove_char_absent.
Qed.

(** A name made of a category prefix and a rest is in that category, its
    payload is the rest without its dashes, and two such names whose
    rests differ only by dashes get the same slot. *)
Theorem prefixed_name_payload (g : Config) (key r r' : string) :
  In key ("SYS_" :: PREFIX_KEYS) ->
  _effective_category_key (key ++ r) = key
  /\ _payload_for_effective (key ++ r) = PyStr.remove_char "-" r
  /\ (PyStr.remove_char "-" r = PyStr.remove_char "-" r' ->
      _slot_index_within_category g (key ++ r)
      = _slot_index_within_category g (key ++ r')).
Proof.
  intros Hk.
  assert (Hp : forall x, _payload_for_effective (key ++ x)
                         = PyStr.remove_char "-" x).
  { intros x. unfold _payload_for_effective.
    rewrite (_effective_category_key_prefixed key x Hk), startswith_app.
    cbn [In PREFIX_KEYS] in Hk.
    repeat (destruct Hk as [<-|Hk]; [reflexivity|]). contradiction. }
  split; [apply _effective_category_key_prefixed; exact Hk|].
  split; [apply Hp|].
  intros E. unfold _slot_index_within_category. rewrite !Hp, E. reflexivity.
Qed.

Lemma prefixed_name_witness :
  _slot_index_within_category initial_globals ("APP_" ++ "MY-GAME")
  = _slot_index_within_category initial_globals ("APP_" ++ "MYGAME").
Proof.
  apply (proj2 (proj2 (prefixed_name_payload initial_globals "APP_"
                         "MY-GAME" "MYGAME" ltac:(cbn; tauto)))).
  reflexivity.
Defined.

(** ** The encoder, for every payload *)

(** The encoder never raises (no division by zero, no overflow): for
    every payload it returns [+0.0] or a positive finite float; the empty
    payload gives [+0.0]. *)
Theorem _lex_fraction_total (payload : string) :
  (exists f, _lex_fraction payload = Ok f
             /\ (f = S754_zero false
                 \/ exists m e, f = S754_finite false m e))
  /\ _lex_fraction "" = Ok Float64.zero.
Proof.
  split; [|reflexivity].
  destruct (_lex_fraction_bound payload) as (f & Hf & Hb).
  exists f. split; [exact Hf|].
  destruct f as [[]|[]| |[] m e]; cbn [nonneg_lt_pow2] in Hb;
    try contradiction; [left; reflexivity | right; eauto].
Qed.

Lemma upper_app (a b : string) :
  PyStr.upper (a ++ b) = PyStr.upper a ++ PyStr.upper b.
Proof.
  induction a as [|c r IH]; [reflexivity|].
  cbn [append PyStr.upper]. rewrite IH. reflexivity.
Qed.

Lemma list_ascii_of_string_app (a b : string) :
  list_ascii_of_string (a ++ b)
  = (list_ascii_of_string a ++ list_ascii_of_string b)%list.
Proof.
  induction a as [|c r IH]; [reflexivity|].
  cbn [append list_ascii_of_string app]. rewrite IH. reflexivity.
Qed.

Lemma length_list_ascii_of_string (s : string) :
  List.length (list_ascii_of_string s) = String.length s.
Proof. induction s; cbn; congruence. Qed.

Lemma length_upper (s : string) :
  String.length (PyStr.upper s) = String.length s.
Proof. induction s; cbn; congruence. Qed.

(** On an ASCII payload the encoder does not see letter case, and after
    128 ASCII characters it sees nothing of what follows. *)
Theorem _lex_fraction_case_and_tail (p t t' : string) :
  ascii_only p = true ->
  _lex_fraction (PyStr.upper p) = _lex_fraction p
  /\ (String.length p = 128%nat ->
      _lex_fraction (p ++ t) = _lex_fraction (p ++ t')).
Proof.
  intros _. split.
  - unfold _lex_fraction. rewrite upper_idem. reflexivity.
  - intros Hlen. apply _lex_fraction_first_128.
    rewrite !upper_app, !list_ascii_of_string_app.
    assert (Hl : List.length (list_ascii_of_string (PyStr.upper p))
                 = 128%nat).
    { rewrite length_list_ascii_of_string, length_upper. exact Hlen. }
    rewrite <- Hl. rewrite !firstn_app, !Nat.sub_diag.
    cbn [firstn]. reflexivity.
Qed.

Lemma tail_witness :
  _lex_fraction
    ("0123456789ABCDEF0123456789ABCDEF0123456789ABCDEF0123456789ABCDEF0123456789ABCDEF0123456789ABCDEF0123456789ABCDEF0123456789ABCDEF"
       ++ "X")
  = _lex_fraction
      ("0123456789ABCDEF0123456789ABCDEF0123456789ABCDEF0123456789ABCDEF0123456789ABCDEF0123456789ABCDEF0123456789ABCDEF0123456789ABCDEF"
         ++ "Y").
Proof.
  refine (proj2 (_lex_fraction_case_and_tail
                   "0123456789ABCDEF0123456789ABCDEF0123456789ABCDEF0123456789ABCDEF0123456789ABCDEF0123456789ABCDEF0123456789ABCDEF0123456789ABCDEF"
                   "X" "Y" _) _); reflexivity.
Defined.

(** ** The nudge *)

Lemma hash_loop_odd (chars : list ascii) : forall h : Z,
  Z.odd (hash_loop chars h)
  = xorb (Z.odd h)
         (Nat.odd (List.length (filter (fun c => Z.odd (ord c)) chars))).
Proof.
  induction chars as [|c rest IH]; intros h; cbn [hash_loop filter].
  - cbn. rewrite xorb_false_r. reflexivity.
  - rewrite IH.
    assert (E : Z.odd (Z.land (Z.lxor h (ord c) * 16777619) 4294967295)
                = xorb (Z.odd h) (Z.odd (ord c))).
    { rewrite <- !Z.bit0_odd, Z.land_spec, !Z.bit0_odd, Z.odd_mul.
      rewrite <- (Z.bit0_odd (Z.lxor _ _)), Z.lxor_spec, !Z.bit0_odd.
      change (Z.odd 16777619) with true. change (Z.odd 4294967295) with true.
      rewrite !andb_true_r. reflexivity. }
    rewrite E. destruct (Z.odd (ord c)); cbn [List.length].
    + rewrite Nat.odd_succ, <- Nat.negb_odd.
      destruct (Z.odd h), (Nat.odd _); reflexivity.
    + rewrite xorb_false_r. reflexivity.
Qed.

Lemma hash_loop_32_bits (chars : list ascii) : forall h : Z,
  0 <= h < 2 ^ 32 -> 0 <= hash_loop chars h < 2 ^ 32.
Proof.
  induction chars as [|c rest IH]; intros h Hh; cbn [hash_loop];
    [exact Hh|].
  apply IH. change 4294967295 with (Z.ones 32).
  rewrite Z.land_ones by lia. apply Z.mod_pos_bound. lia.
Qed.

(** The 32-bit accumulator of the nudge stays within 32 bits, and its
    low bit, the nudge, is the parity of the number of characters with
    an odd code point: 1 when that number is even, 0 when it is odd. *)
Theorem _stable_hash01_is_a_parity (s : string) :
  0 <= hash_loop (list_ascii_of_string s) 2166136261 < 2 ^ 32
  /\ _stable_hash01 s
     = if Nat.even (List.length (filter (fun c => Z.odd (ord c))
                                        (list_ascii_of_string s)))
       then 1 else 0.
Proof.
  split; [apply hash_loop_32_bits; lia|].
  unfold _stable_hash01. change 1 with (Z.ones 1) at 1.
  rewrite Z.land_ones by lia. change (2 ^ 1) with 2.
  rewrite Zmod_odd, hash_loop_odd. change (Z.odd 2166136261) with true.
  rewrite <- Nat.negb_odd. destruct (Nat.odd _); reflexivity.
Qed.

(** ** Offsets: range and decoding *)

(** An offset made of a rank, a slot and a nudge below the spacing
    splits back into them. *)
Lemma offset_arith (sec slots ci sl n : Z) :
  0 < sec -> 0 < slots -> 0 <= ci -> 0 <= sl <= slots - 1 -> 0 <= n < sec ->
  let off := ci * (slots * sec) + sl * sec + n in
  off / (slots * sec) = ci
  /\ (off mod (slots * sec)) / sec = sl
  /\ (off mod (slots * sec)) mod sec = n.
Proof.
  intros Hsec Hslots Hci Hsl Hn off.
  assert (HB : 0 < slots * sec) by nia.
  assert (HR : 0 <= sl * sec + n < slots * sec) by nia.
  assert (Hq : off / (slots * sec) = ci).
  { symmetry. apply Z.div_unique with (r := sl * sec + n); [lia|].
    unfold off. ring. }
  assert (Hr : off mod (slots * sec) = sl * sec + n).
  { symmetry. apply Z.mod_unique with (q := ci); [lia|]. unfold off. ring. }
  split; [exact Hq|]. rewrite Hr. split.
  - symmetry. apply Z.div_unique with (r := n); [lia|]. ring.
  - symmetry. apply Z.mod_unique with (q := sl); [lia|]. ring.
Qed.

(** Offsets are not negative and stay within the thirteen blocks. *)
Lemma offset_range (sec slots : Z) (nudge : bool) (name : string)
    (off ci sl : Z) (eff : string) :
  0 < sec -> 0 < slots ->
  _deterministic_offset_seconds (configured sec slots nudge) name
    = Ok (off, ci, sl, eff) ->
  0 <= off <= 13 * (slots * sec).
Proof.
  intros Hsec Hslots H.
  apply offset_bounds in H as (Hci & Hsl & n & Hn & Hn0 & ->);
    [|assumption..].
  assert (Hsl' : 0 <= sl * sec <= (slots - 1) * sec) by nia.
  assert (Hci' : 0 <= ci * (slots * sec) <= 12 * (slots * sec)) by nia.
  nia.
Qed.

(** The offset of a name lies in the block of its category, at most one
    second past the last slot; and when the nudge is disabled or the
    spacing is at least two seconds, rank and slot can be read back from
    the offset. *)
Theorem offset_decodes (sec slots : Z) (nudge : bool) (name : string)
    (off ci sl : Z) (eff : string) :
  0 < sec -> 0 < slots ->
  _deterministic_offset_seconds (configured sec slots nudge) name
    = Ok (off, ci, sl, eff) ->
  (ci * (slots * sec) <= off <= ci * (slots * sec) + (slots - 1) * sec + 1
   /\ 0 <= off <= 13 * (slots * sec))
  /\ (nudge = false \/ 2 <= sec ->
      off / (slots * sec) = ci /\ (off mod (slots * sec)) / sec = sl).
Proof.
  intros Hsec Hslots H.
  apply offset_bounds in H as (Hci & Hsl & n & Hn & Hn0 & ->);
    [|assumption..].
  assert (Hsl' : 0 <= sl * sec <= (slots - 1) * sec) by nia.
  assert (Hci' : 0 <= ci * (slots * sec) <= 12 * (slots * sec)) by nia.
  split; [nia|].
  intros Hc.
  assert (Hn' : 0 <= n < sec) by (destruct Hc as [Hc|Hc]; [rewrite (Hn0 Hc)|]; lia).
  destruct (offset_arith sec slots ci sl n Hsec Hslots ltac:(lia) Hsl Hn')
    as (Hq & Hs & _).
  split; assumption.
Qed.

Lemma offset_decodes_witness :
  57800 / (43200 * 2) = 0 /\ (57800 mod (43200 * 2)) / 2 = 28900.
Proof.
  refine (proj2 (offset_decodes 2 43200 false "OSDXMB" 57800 0 28900
                   "APP_OSDXMB" eq_refl eq_refl _) (or_introl eq_refl)).
  vm_compute. reflexivity.
Defined.

(** Two names get the same planned instant only if they are in the same
    category and the same slot, provided the nudge is disabled or the
    spacing is at least two seconds. *)
Theorem equal_instants_share_a_slot (h : Host) (sec slots : Z)
    (nudge : bool) (tl : timeline) (a b : string) (pa pb : planned) :
  0 < sec -> 0 < slots -> nudge = false \/ 2 <= sec ->
  _planned_timestamp_for_folder h (configured sec slots nudge) a tl = Ok pa ->
  _planned_timestamp_for_folder h (configured sec slots nudge) b tl = Ok pb ->
  PyTime.timestamp (ts_utc pa) = PyTime.timestamp (ts_utc pb) ->
  cat_idx pa = cat_idx pb /\ slot_idx pa = slot_idx pb.
Proof.
  intros Hsec Hslots Hc Ha Hb Ht.
  apply _planned_timestamp_for_folder_inv in Ha as (Ha & _ & _ & _ & Hta).
  apply _planned_timestamp_for_folder_inv in Hb as (Hb & _ & _ & _ & Htb).
  assert (Hoff : offset_sec pa = offset_sec pb).
  { rewrite Hta, Htb in Ht. destruct tl; lia. }
  apply offset_bounds in Ha as (Hcia & Hsla & na & Hna & Hna0 & Ea);
    [|assumption..].
  apply offset_bounds in Hb as (Hcib & Hslb & nb & Hnb & Hnb0 & Eb);
    [|assumption..].
  assert (Hna' : 0 <= na < sec)
    by (destruct Hc as [Hc|Hc]; [rewrite (Hna0 Hc)|]; lia).
  assert (Hnb' : 0 <= nb < sec)
    by (destruct Hc as [Hc|Hc]; [rewrite (Hnb0 Hc)|]; lia).
  destruct (offset_arith sec slots _ _ na Hsec Hslots
              ltac:(apply Hcia) Hsla Hna') as (Qa & Sa & _).
  destruct (offset_arith sec slots _ _ nb Hsec Hslots
              ltac:(apply Hcib) Hslb Hnb') as (Qb & Sb & _).
  cbv zeta in Qa, Sa, Qb, Sb.
  rewrite <- Ea in Qa, Sa. rewrite <- Eb in Qb, Sb.
  rewrite Hoff in Qa, Sa. split; congruence.
Qed.

Lemma equal_instants_witness :
  exists pa pb : planned,
    _planned_timestamp_for_folder utc_host (configured 2 43200 false)
      "APP_MY-GAME" fixed_utc = Ok pa
    /\ _planned_timestamp_for_folder utc_host (configured 2 43200 false)
         "APP_MYGAME" fixed_utc = Ok pb
    /\ cat_idx pa = cat_idx pb /\ slot_idx pa = slot_idx pb.
Proof.
  eexists. eexists.
  split; [vm_compute; reflexivity|].
  split; [vm_compute; reflexivity|].
  refine (equal_instants_share_a_slot utc_host 2 43200 false fixed_utc
            "APP_MY-GAME" "APP_MYGAME" _ _ eq_refl eq_refl
            (or_introl eq_refl) _ _ _); vm_compute; reflexivity.
Defined.

(** ** Planning that cannot fail *)

Lemma _deterministic_offset_seconds_total (sec slots : Z) (nudge : bool)
    (name : string) :
  0 < slots < 2 ^ 512 ->
  exists off ci sl eff,
    _deterministic_offset_seconds (configured sec slots nudge) name
    = Ok (off, ci, sl, eff).
Proof.
  intros Hslots. unfold _deterministic_offset_seconds.
  destruct (_category_priority_index_total (_normalize_name_for_rules name))
    as (ci & -> & _).
  cbn [bind].
  destruct (slot_defined (configured sec slots nudge)
              (_normalize_name_for_rules name) Hslots) as (sl & ->).
  cbn [bind]. do 4 eexists. reflexivity.
Qed.

(** Planning succeeds when the blocks span at most a thousand years and
    the host can represent the span. *)
Lemma _planned_timestamp_for_folder_total (h : Host) (sec slots : Z) (nudge : bool)
    (tl : timeline) (name : string) :
  0 < sec -> 0 < slots < 2 ^ 512 ->
  13 * (slots * sec) <= 1000 * 365 * 86400 ->
  match tl with
  | fixed_utc =>
      gmtime_min h <= 4070937599 - 13 * (slots * sec)
      /\ 4070937599 <= gmtime_max h
  | local_forward => -86400 < local_utcoffset h < 86400
  end ->
  exists p, _planned_timestamp_for_folder h (configured sec slots nudge)
              name tl = Ok p.
Proof.
  intros Hsec Hslots Hspan Hhost.
  destruct (_deterministic_offset_seconds_total sec slots nudge name Hslots)
    as (off & ci & sl & eff & Hoff).
  pose proof (offset_range sec slots nudge name off ci sl eff Hsec
                ltac:(lia) Hoff) as Hrange.
  unfold _planned_timestamp_for_folder. rewrite Hoff. cbn [bind].
  destruct tl.
  - unfold PyTime.timedelta_seconds.
    assert (Hd : 0 <= off / 86400 <= 365000).
    { split; [apply Z.div_pos; lia|].
      apply Z.div_le_upper_bound; lia. }
    destruct (Z.ltb_spec (off / 86400) (-999999999)); [lia|].
    destruct (Z.ltb_spec 999999999 (off / 86400)); [lia|].
    cbn [orb bind]. unfold PyTime.add, _anchor_local_datetime,
      PyTime.replace_tzinfo.
    cbn [PyTime.wall PyTime.microsecond PyTime.utcoffset].
    change (PyTime.fields 2098 12 31 0 0 0) with 66206505600.
    change PyTime.MIN_WALL with 86400.
    change PyTime.MAX_WALL with 315537983999.
    destruct (Z.ltb_spec (66206505600 + off) 86400); [lia|].
    destruct (Z.ltb_spec 315537983999 (66206505600 + off)); [lia|].
    cbn [orb bind]. unfold PyTime.astimezone_utc.
    cbn [PyTime.wall PyTime.microsecond PyTime.utcoffset].
    change PyTime.MIN_WALL with 86400.
    change PyTime.MAX_WALL with 315537983999.
    destruct (Z.ltb_spec (66206505600 + off - local_utcoffset h) 86400);
      [lia|].
    destruct (Z.ltb_spec 315537983999
                (66206505600 + off - local_utcoffset h)); [lia|].
    cbn [orb bind]. eexists. reflexivity.
  - change (PyTime.timestamp FIXED_BASE_UTC) with 4070937599.
    rewrite fromtimestamp_utc_ok.
    + cbn [bind]. eexists. reflexivity.
    + lia.
    + change PyTime.EPOCH_WALL with 62135683200.
      change PyTime.MIN_WALL with 86400.
      change PyTime.MAX_WALL with 315537983999. lia.
Qed.

(** When the thirteen category blocks together span at most a thousand
    years (and the budget is below 2^512), planning succeeds for every
    name: on the fixed timeline if the host's [gmtime] covers the span
    that ends at the fixed base, on the forward timeline if the local
    offset is less than a day. *)
Theorem planning_never_fails (h : Host) (sec slots : Z) (nudge : bool)
    (tl : timeline) (name : string) :
  0 < sec -> 0 < slots < 2 ^ 512 ->
  13 * (slots * sec) <= 1000 * 365 * 86400 ->
  match tl with
  | fixed_utc =>
      gmtime_min h <= 4070937599 - 13 * (slots * sec)
      /\ 4070937599 <= gmtime_max h
  | local_forward => -86400 < local_utcoffset h < 86400
  end ->
  exists p, _planned_timestamp_for_folder h (configured sec slots nudge)
              name tl = Ok p.
Proof. apply _planned_timestamp_for_folder_total. Qed.

Lemma planning_never_fails_witness :
  exists p, _planned_timestamp_for_folder utc_host (configured 2 43200 true)
              "anything at all" local_forward = Ok p.
Proof.
  apply (planning_never_fails utc_host 2 43200 true local_forward);
    vm_compute; repeat split; discriminate || reflexivity.
Defined.

Lemma entries_of_all (attempt : string -> result planned)
    (names : list string) :
  (forall name, exists p, attempt name = Ok p) ->
  map fst (entries_of attempt names) = names
  /\ warnings_of attempt names = [].
Proof.
  intros Hall. induction names as [|name rest [IH1 IH2]];
    [split; reflexivity|].
  cbn [entries_of warnings_of flat_map].
  destruct (Hall name) as (p & ->). cbn [app map fst].
  fold (entries_of attempt rest). fold (warnings_of attempt rest).
  rewrite IH1, IH2. split; reflexivity.
Qed.

(** With the options left at their defaults no root folder is ever
    skipped: on either timeline the plan has one entry per name, in the
    order of the names, and there is no warning. *)
Theorem default_plan_is_complete (h : Host) (tl : timeline)
    (names : list string) :
  match tl with
  | fixed_utc => gmtime_min h <= 4069814399 /\ 4070937599 <= gmtime_max h
  | local_forward => -86400 < local_utcoffset h < 86400
  end ->
  exists plan, main_plan h (default_args tl) names = Some (plan, [])
               /\ map fst plan = names.
Proof.
  intros Hhost. unfold main_plan.
  change (main_globals (default_args tl))
    with (Some (configured 2 43200 false)).
  cbv beta iota. unfold planning_pass. rewrite plan_loop_spec.
  cbn [app].
  destruct (entries_of_all (plan_try h (configured 2 43200 false)
                              (default_args tl)) names) as [E1 E2].
  { intros name.
    destruct (_planned_timestamp_for_folder_total h 2 43200 false tl name)
      as (p & Hp);
      try lia.
    - destruct tl; lia.
    - unfold plan_try, computed_instant.
      cbn [default_args arg_timeline ps2_bias_seconds fat_safe].
      rewrite Hp. cbn [bind Z.eqb]. eexists. reflexivity. }
  rewrite E2. eexists. split; [reflexivity | exact E1].
Qed.

Lemma default_plan_witness :
  exists plan,
    main_plan utc_host (default_args local_forward) ["B"; "a"; "BOOT"]
    = Some (plan, [])
    /\ map fst plan = ["B"; "a"; "BOOT"].
Proof.
  apply (default_plan_is_complete utc_host local_forward).
  vm_compute. split; reflexivity.
Defined.

(** ** Snapping, again *)

(** Snapping is idempotent. *)
Theorem _snap_even_second_idempotent (dt r : PyTime.datetime) :
  _snap_even_second dt = Ok r -> _snap_even_second r = Ok r.
Proof.
  intros H. apply _snap_even_second_inv in H as (Hm & He & _ & _).
  unfold _snap_even_second, PyTime.replace_microsecond.
  destruct r as [w m u]. cbn [PyTime.microsecond] in Hm. subst m.
  unfold PyTime.second in *. cbn [PyTime.wall PyTime.utcoffset] in *.
  rewrite He. reflexivity.
Qed.

Lemma snap_idempotent_witness :
  _snap_even_second {| PyTime.wall := 66206562800; PyTime.microsecond := 0;
                       PyTime.utcoffset := 0 |}
  = Ok {| PyTime.wall := 66206562800; PyTime.microsecond := 0;
          PyTime.utcoffset := 0 |}.
Proof.
  apply (_snap_even_second_idempotent
           {| PyTime.wall := 66206562799; PyTime.microsecond := 250000;
              PyTime.utcoffset := 0 |}).
  vm_compute. reflexivity.
Defined.

(** Snapping moves an instant by less than a second back (the
    microseconds are dropped) and at most a second forward, and never
    back when the instant is a whole second; it never inverts the order
    of two datetimes of the same time zone: the later one stays the
    later or becomes equal, and two that are two seconds or more apart
    stay apart. *)
Theorem _snap_even_second_keeps_order (a b ra rb : PyTime.datetime) :
  PyTime.utcoffset a = PyTime.utcoffset b ->
  0 <= PyTime.microsecond a < 1000000 ->
  0 <= PyTime.microsecond b < 1000000 ->
  instant_us a <= instant_us b ->
  _snap_even_second a = Ok ra -> _snap_even_second b = Ok rb ->
  instant_us a - 999999 <= instant_us ra <= instant_us a + 1000000
  /\ (PyTime.microsecond a = 0 -> instant_us a <= instant_us ra)
  /\ instant_us ra <= instant_us rb
  /\ (instant_us a + 2000000 <= instant_us b ->
      instant_us ra < instant_us rb).
Proof.
  intros Hu Hma Hmb Hle Ha Hb.
  apply _snap_even_second_inv in Ha as (Hra & _ & Hua & Hwa).
  apply _snap_even_second_inv in Hb as (Hrb & _ & Hub & Hwb).
  unfold instant_us, PyTime.timestamp, PyTime.second in *.
  rewrite Hra, Hrb, Hua, Hub, Hwa, Hwb, Hu. rewrite Hu in Hle.
  destruct (Z.eqb_spec ((PyTime.wall a mod 60) mod 2) 1) as [Ea|Ea];
    destruct (Z.eqb_spec ((PyTime.wall b mod 60) mod 2) 1) as [Eb|Eb];
    revert Ea Eb Hle Hma Hmb;
    generalize (PyTime.wall a) (PyTime.wall b) (PyTime.microsecond a)
               (PyTime.microsecond b) (PyTime.utcoffset b);
    intros wa wb ua ub off Ea Eb Hle Hma Hmb;
    (split; [|split; [intros Hz|split; [|intros Hgap]]]);
    Z.div_mod_to_equations; lia.
Qed.

Lemma snap_order_witness :
  exists ra rb,
    _snap_even_second {| PyTime.wall := 66206562799;
                         PyTime.microsecond := 999999;
                         PyTime.utcoffset := 0 |} = Ok ra
    /\ _snap_even_second {| PyTime.wall := 66206562802;
                            PyTime.microsecond := 5;
                            PyTime.utcoffset := 0 |} = Ok rb
    /\ instant_us ra < instant_us rb.
Proof.
  eexists. eexists.
  split; [vm_compute; reflexivity|].
  split; [vm_compute; reflexivity|].
  refine (proj2 (proj2 (proj2 (_snap_even_second_keeps_order
                                 {| PyTime.wall := 66206562799;
                                    PyTime.microsecond := 999999;
                                    PyTime.utcoffset := 0 |}
                                 {| PyTime.wall := 66206562802;
                                    PyTime.microsecond := 5;
                                    PyTime.utcoffset := 0 |} _ _
                                 eq_refl _ _ _ _ _))) _);
    vm_compute; try reflexivity; try discriminate;
    split; try reflexivity; discriminate.
Defined.

(** ** The whole [try] block *)

(** What [main] records for a name is what the planner returned, with
    the instant moved by the bias and then, when FAT-safe snapping is on
    and the biased second is odd, by one more second; nothing else of
    the entry changes. *)
Theorem plan_try_instant (h : Host) (g : Config) (args : Args)
    (name : string) (p : planned) :
  plan_try h g args name = Ok p ->
  exists q,
    _planned_timestamp_for_folder h g name (arg_timeline args) = Ok q
    /\ with_ts q (ts_utc p) = p
    /\ PyTime.microsecond (ts_utc p) = 0
    /\ PyTime.timestamp (ts_utc p)
       = PyTime.timestamp (ts_utc q) + ps2_bias_seconds args
         + (if fat_safe args
               && Z.odd (PyTime.timestamp (ts_utc q) + ps2_bias_seconds args)
            then 1 else 0).
Proof.
  unfold plan_try.
  destruct (computed_instant h g args name) as [c|] eqn:Hc; [|discriminate].
  cbn [bind].
  pose proof (computed_instant_whole _ _ _ _ _ Hc) as (Hcm & Hcu & _).
  unfold computed_instant in Hc.
  destruct (_planned_timestamp_for_folder h g name (arg_timeline args))
    as [q|] eqn:Hq; [|discriminate].
  cbn [bind] in Hc.
  assert (Hcq : with_ts q (ts_utc c) = c
                /\ PyTime.timestamp (ts_utc c)
                   = PyTime.timestamp (ts_utc q) + ps2_bias_seconds args).
  { destruct (Z.eqb_spec (ps2_bias_seconds args) 0) as [E0|E0].
    - cbn [bind] in Hc. apply Ok_inj in Hc. subst c.
      unfold with_ts. cbn [ts_utc eff_name cat_label cat_idx slot_idx
                           offset_sec]. split; [reflexivity | lia].
    - destruct (PyTime.timedelta_seconds _) as [d|] eqn:Hd; [|discriminate].
      apply timedelta_seconds_inv in Hd. subst d. cbn [bind] in Hc.
      destruct (PyTime.add (ts_utc q) _) as [ts|] eqn:Hadd; [|discriminate].
      cbn [bind] in Hc. apply Ok_inj in Hc. subst c.
      apply add_inv in Hadd as (Hw & _ & Hu & _).
      unfold with_ts, PyTime.timestamp.
      cbn [ts_utc eff_name cat_label cat_idx slot_idx offset_sec].
      split; [reflexivity | lia]. }
  destruct Hcq as [Hcq Hct].
  assert (Hparity : PyTime.second (ts_utc c) mod 2
                    = if Z.odd (PyTime.timestamp (ts_utc c)) then 1 else 0).
  { unfold PyTime.second, PyTime.timestamp. rewrite Hcu.
    change PyTime.EPOCH_WALL with (2 * 31067841600).
    rewrite <- Zmod_odd. generalize (PyTime.wall (ts_utc c)). intros w.
    Z.div_mod_to_equations. lia. }
  intros Hp. exists q. split; [reflexivity|].
  destruct (fat_safe args).
  - destruct (_snap_even_second (ts_utc c)) as [r|] eqn:Hr; [|discriminate].
    cbn [bind] in Hp. apply Ok_inj in Hp. subst p.
    apply _snap_even_second_inv in Hr as (Hm & _ & Hu & Hw).
    unfold with_ts in *. cbn [ts_utc] in *.
    split; [|split; [exact Hm|]].
    + rewrite <- Hcq. reflexivity.
    + rewrite Hparity in Hw. rewrite <- Hct. cbn [andb].
      unfold PyTime.timestamp in *. rewrite Hu, Hw.
      destruct (Z.odd _); cbn [Z.eqb Pos.eqb]; lia.
  - cbn [bind] in Hp. apply Ok_inj in Hp. subst p.
    unfold with_ts in *. cbn [ts_utc andb] in *.
    split; [|split; [exact Hcm|lia]].
    rewrite <- Hcq. reflexivity.
Qed.

Lemma plan_try_instant_witness :
  exists p q,
    plan_try utc_host (configured 2 43200 false)
      {| fat_safe := true; ps2_bias_seconds := -3563;
         arg_timeline := fixed_utc; seconds_between_items := 2;
         slots_per_category := 43200; stable_nudge := false |} "BOOT" = Ok p
    /\ _planned_timestamp_for_folder utc_host (configured 2 43200 false)
         "BOOT" fixed_utc = Ok q
    /\ PyTime.timestamp (ts_utc p) = PyTime.timestamp (ts_utc q) - 3563 + 0.
Proof.
  eexists. eexists.
  split; [vm_compute; reflexivity|].
  split; [vm_compute; reflexivity|].
  destruct (plan_try_instant utc_host (configured 2 43200 false)
              {| fat_safe := true; ps2_bias_seconds := -3563;
                 arg_timeline := fixed_utc; seconds_between_items := 2;
                 slots_per_category := 43200; stable_nudge := false |}
              "BOOT" _ ltac:(vm_compute; reflexivity))
    as (q & Hq & _ & _ & Ht).
  cbn [arg_timeline] in Hq.
  match goal with
  | |- _ = PyTime.timestamp (ts_utc ?c) - _ + _ =>
      assert (E : q = c)
        by (apply Ok_inj; rewrite <- Hq; vm_compute; reflexivity)
  end.
  rewrite E in Ht. rewrite Ht. vm_compute. reflexivity.
Defined.

(** ** The dry-run order *)

Lemma ltb_iff (a b : PyTime.datetime) :
  PyTime.ltb a b = true <->
  PyTime.timestamp a < PyTime.timestamp b
  \/ (PyTime.timestamp a = PyTime.timestamp b
      /\ PyTime.microsecond a < PyTime.microsecond b).
Proof.
  unfold PyTime.ltb.
  rewrite orb_true_iff, andb_true_iff, !Z.ltb_lt, Z.eqb_eq. reflexivity.
Qed.

Lemma not_older_iff (a b : entry) :
  not_older a b <->
  fst (instant_key b) < fst (instant_key a)
  \/ (fst (instant_key a) = fst (instant_key b)
      /\ snd (instant_key b) <= snd (instant_key a)).
Proof.
  unfold not_older, instant_key. cbn [fst snd].
  rewrite <- not_true_iff_false, ltb_iff. lia.
Qed.

Lemma not_older_trans (a b c : entry) :
  not_older a b -> not_older b c -> not_older a c.
Proof. rewrite !not_older_iff. lia. Qed.

Lemma insert_newest_first_perm (x : entry) (l : list entry) :
  Permutation (insert_newest_first x l) (x :: l).
Proof.
  induction l as [|y l IH]; cbn [insert_newest_first]; [reflexivity|].
  destruct (PyTime.ltb _ _); [reflexivity|].
  rewrite IH. apply perm_swap.
Qed.

Lemma insert_newest_first_sorted (x : entry) (l : list entry) :
  StronglySorted not_older l ->
  StronglySorted not_older (insert_newest_first x l).
Proof.
  induction 1 as [|y l Hs IH Hall]; cbn [insert_newest_first].
  - repeat constructor.
  - destruct (PyTime.ltb (ts_utc (snd y)) (ts_utc (snd x))) eqn:E.
    + constructor; [constructor; assumption|].
      assert (Hxy : not_older x y).
      { apply not_older_iff. apply ltb_iff in E. unfold instant_key.
        cbn [fst snd]. lia. }
      constructor; [exact Hxy|].
      apply Forall_impl with (2 := Hall). intros z Hz.
      apply not_older_trans with (1 := Hxy) (2 := Hz).
    + constructor; [exact IH|].
      eapply Permutation_Forall.
      * symmetry. apply insert_newest_first_perm.
      * constructor; [|assumption].
        apply not_older_iff. apply not_true_iff_false in E.
        rewrite ltb_iff in E. unfold instant_key. cbn [fst snd]. lia.
Qed.

Lemma sort_newest_first_snoc (l : list entry) (x : entry) :
  sort_newest_first (l ++ [x])
  = insert_newest_first x (sort_newest_first l).
Proof. unfold sort_newest_first. rewrite fold_left_app. reflexivity. Qed.

Lemma sort_newest_first_perm (plan : list entry) :
  Permutation (sort_newest_first plan) plan.
Proof.
  induction plan as [|x l IH] using rev_ind; [reflexivity|].
  rewrite sort_newest_first_snoc, insert_newest_first_perm, IH.
  apply Permutation_cons_append.
Qed.

Lemma sort_newest_first_sorted (plan : list entry) :
  StronglySorted not_older (sort_newest_first plan).
Proof.
  induction plan as [|x l IH] using rev_ind; [constructor|].
  rewrite sort_newest_first_snoc. apply insert_newest_first_sorted.
  exact IH.
Qed.

(** The dry-run order is the plan rearranged: no entry is lost, added or
    repeated, and no entry comes before a newer one. *)
Theorem sort_newest_first_sorts (plan : list entry) :
  Permutation (sort_newest_first plan) plan
  /\ StronglySorted not_older (sort_newest_first plan).
Proof.
  split; [apply sort_newest_first_perm | apply sort_newest_first_sorted].
Qed.

Lemma insert_newest_first_filter (k : Z * Z) (x : entry) (l : list entry) :
  StronglySorted not_older l ->
  filter (at_instant k) (insert_newest_first x l)
  = (filter (at_instant k) l ++ filter (at_instant k) [x])%list.
Proof.
  induction 1 as [|y l Hs IH Hall]; cbn [insert_newest_first].
  - reflexivity.
  - destruct (PyTime.ltb (ts_utc (snd y)) (ts_utc (snd x))) eqn:E.
    + (* everything from [y] on is older than [x] *)
      cbn [filter]. destruct (at_instant k x) eqn:Ex; [|rewrite app_nil_r; reflexivity].
      assert (Hnone : filter (at_instant k) (y :: l) = []).
      { apply ltb_iff in E.
        assert (Hall' : Forall (fun z => at_instant k z = false) (y :: l)).
        { unfold at_instant in Ex. apply andb_true_iff in Ex as [E1 E2].
          apply Z.eqb_eq in E1, E2.
          constructor.
          - unfold at_instant, instant_key in *. cbn [fst snd] in *.
            apply andb_false_iff.
            destruct (Z.eqb_spec (PyTime.timestamp (ts_utc (snd y))) (fst k));
              [|left; reflexivity].
            right. apply Z.eqb_neq. lia.
          - apply Forall_impl with (2 := Hall). intros z Hz.
            apply not_older_iff in Hz.
            unfold at_instant, instant_key in *. cbn [fst snd] in *.
            apply andb_false_iff.
            destruct (Z.eqb_spec (PyTime.timestamp (ts_utc (snd z))) (fst k));
              [|left; reflexivity].
            right. apply Z.eqb_neq. lia. }
        clear -Hall'. induction Hall' as [|z l' Hz _ IH']; [reflexivity|].
        cbn [filter]. rewrite Hz. exact IH'. }
      cbn [filter] in Hnone. rewrite Hnone. reflexivity.
    + cbn [filter]. rewrite IH.
      destruct (at_instant k y); reflexivity.
Qed.

(** The sort is stable: the entries that share an instant come out in
    the order in which the plan has them. *)
Theorem sort_newest_first_stable (plan : list entry) (k : Z * Z) :
  filter (at_instant k) (sort_newest_first plan)
  = filter (at_instant k) plan.
Proof.
  induction plan as [|x l IH] using rev_ind; [reflexivity|].
  rewrite sort_newest_first_snoc, insert_newest_first_filter.
  - rewrite IH, filter_app. reflexivity.
  - apply sort_newest_first_sorted.
Qed.

(** ** The loop accounts for every name *)

(** Every name ends in the plan or in the warnings, once, in the order of
    the input: the names of the plan are the input names whose attempt
    succeeds, the names of the warnings are the others. *)
Theorem plan_loop_accounts_for_every_name
    (attempt : string -> result planned) (names : list string) :
  let run := plan_loop attempt names [] [] in
  map fst (fst run) = filter (succeeds attempt) names
  /\ map fst (snd run) = filter (fun n => negb (succeeds attempt n)) names
  /\ (List.length (fst run) + List.length (snd run))%nat = List.length names.
Proof.
  cbv zeta. rewrite plan_loop_spec. cbn [fst snd app].
  unfold entries_of, warnings_of, succeeds.
  induction names as [|name rest (IH1 & IH2 & IH3)].
  - repeat split.
  - cbn [flat_map filter].
    destruct (attempt name) as [p|e];
      cbn [negb app map fst List.length]; rewrite IH1, IH2;
      (split; [reflexivity|split; [reflexivity|lia]]).
Qed.

(** ** The merged script reproduces its predecessor *)

Lemma plan_loop_ext (f g : string -> result planned) (names : list string) :
  (forall name, f name = g name) ->
  forall plan warnings,
    plan_loop f names plan warnings = plan_loop g names plan warnings.
Proof.
  intros Hfg. induction names as [|name rest IH]; intros plan warnings;
    cbn [plan_loop]; [reflexivity|].
  rewrite Hfg. destruct (g name); apply IH.
Qed.

Lemma with_ts_same (p : planned) : with_ts p (ts_utc p) = p.
Proof. destruct p. reflexivity. Qed.

(** Run on the fixed timeline with one second per slot, 86400 slots and
    the nudge, and without bias or snapping, the merged script plans
    exactly what the predecessor script plans: the same entries and the
    same warnings, for every list of names and on every host. *)
Theorem merged_script_reproduces_v2 (h : Host) (names : list string) :
  main_plan h v2_args names = Some (V2.main_plan h names).
Proof.
  unfold main_plan. change (main_globals v2_args) with (Some V2.globals).
  cbv beta iota. f_equal. unfold planning_pass, V2.main_plan.
  apply plan_loop_ext. intros name.
  unfold plan_try, computed_instant.
  cbn [v2_args arg_timeline ps2_bias_seconds fat_safe Z.eqb].
  change (_planned_timestamp_for_folder h V2.globals name fixed_utc)
    with (V2._planned_timestamp_for_folder h name).
  destruct (V2._planned_timestamp_for_folder h name) as [p|e];
    [|reflexivity].
  cbn [bind]. rewrite with_ts_same. cbn [ts_utc]. rewrite with_ts_same.
  reflexivity.
Qed.

(** ** Binary64 arithmetic: exact results *)

Lemma shr_1_exact (q : Z) :
  0 <= q ->
  shr_1 {| shr_m := 2 * q; shr_r := false; shr_s := false |}
  = {| shr_m := q; shr_r := false; shr_s := false |}.
Proof. destruct q as [|p|p]; [reflexivity | reflexivity | lia]. Qed.

Lemma iter_shr_1_exact (p : positive) : forall q,
  0 <= q ->
  iter_pos shr_1 p
    {| shr_m := q * 2 ^ Z.pos p; shr_r := false; shr_s := false |}
  = {| shr_m := q; shr_r := false; shr_s := false |}.
Proof.
  assert (Hpow : forall k, 0 < 2 ^ Z.pos k).
  { intros k. apply Z.pow_pos_nonneg; lia. }
  induction p as [p IH|p IH|]; intros q Hq; cbn [iter_pos].
  - pose proof (Hpow p) as Hp.
    replace (q * 2 ^ Z.pos p~1)
      with (2 * ((q * 2 ^ Z.pos p) * 2 ^ Z.pos p)).
    + rewrite shr_1_exact by nia. rewrite IH by nia. apply IH. exact Hq.
    + assert (E : Z.pos p~1 = 1 + Z.pos p + Z.pos p) by lia.
      rewrite E, !Z.pow_add_r by lia. rewrite Z.pow_1_r. ring.
  - pose proof (Hpow p) as Hp.
    replace (q * 2 ^ Z.pos p~0) with ((q * 2 ^ Z.pos p) * 2 ^ Z.pos p).
    + rewrite IH by nia. apply IH. exact Hq.
    + assert (E : Z.pos p~0 = Z.pos p + Z.pos p) by lia.
      rewrite E, Z.pow_add_r by lia. ring.
  - rewrite Z.pow_1_r. replace (q * 2) with (2 * q) by ring.
    apply shr_1_exact. exact Hq.
Qed.

Lemma Zdigits2_mul_pow2 (n k : Z) :
  0 < n -> 0 <= k -> Zdigits2 (n * 2 ^ k) = Zdigits2 n + k.
Proof.
  intros Hn Hk.
  assert (Hpk : 0 < 2 ^ k) by (apply Z.pow_pos_nonneg; lia).
  pose proof (Zdigits2_nonneg n) as Hd.
  assert (Hup : n < 2 ^ Zdigits2 n) by (apply Zdigits2_le_iff; lia).
  assert (Hd1 : 1 <= Zdigits2 n).
  { destruct (Z_le_gt_dec 1 (Zdigits2 n)) as [H|H]; [exact H|].
    assert (E : Zdigits2 n = 0) by lia. rewrite E in Hup. simpl in Hup. lia. }
  assert (Hlo : 2 ^ (Zdigits2 n - 1) <= n).
  { destruct (Z_le_gt_dec (2 ^ (Zdigits2 n - 1)) n) as [H|H]; [exact H|].
    assert (C : Zdigits2 n <= Zdigits2 n - 1)
      by (apply Zdigits2_le_iff; lia).
    lia. }
  apply Z.le_antisymm.
  - apply Zdigits2_le_iff; [nia | lia |].
    rewrite Z.pow_add_r by lia. nia.
  - destruct (Z_le_gt_dec (Zdigits2 n + k) (Zdigits2 (n * 2 ^ k)))
      as [H|H]; [exact H|].
    assert (C : n * 2 ^ k < 2 ^ (Zdigits2 n - 1 + k)).
    { apply Zdigits2_le_iff; [nia | lia | lia]. }
    rewrite Z.pow_add_r in C by lia. nia.
Qed.

(** A mantissa that holds an integer below [2^53] with [j] zeros
    behind it is shifted to at most 53 digits without loss. *)
Lemma shr_fexp_exact (n j e : Z) :
  0 < n < 2 ^ 53 -> 0 <= j -> 0 <= j + e ->
  shr_fexp 53 1024 (n * 2 ^ j) e loc_Exact
  = ({| shr_m := n * 2 ^ (j - Z.max 0 (Zdigits2 n + j - 53));
        shr_r := false; shr_s := false |},
     e + Z.max 0 (Zdigits2 n + j - 53)).
Proof.
  intros Hn Hj Hje.
  assert (Hd : Zdigits2 n <= 53) by (apply Zdigits2_le_iff; lia).
  pose proof (Zdigits2_nonneg n) as Hd0.
  assert (Hd1 : 1 <= Zdigits2 n).
  { destruct (Z_le_gt_dec 1 (Zdigits2 n)) as [H|H]; [exact H|].
    assert (C : n < 2 ^ 0) by (apply Zdigits2_le_iff; lia).
    simpl in C. lia. }
  unfold shr_fexp, shr, fexp, emin.
  rewrite Zdigits2_mul_pow2 by lia.
  replace (Z.max (Zdigits2 n + j + e - 53) (3 - 1024 - 53) - e)
    with (Zdigits2 n + j - 53) by lia.
  destruct (Zdigits2 n + j - 53) as [|p|p] eqn:Hk.
  - cbn [Z.max Z.compare]. rewrite Z.sub_0_r, Z.add_0_r. reflexivity.
  - replace (Z.max 0 (Z.pos p)) with (Z.pos p) by lia.
    f_equal. cbn [shr_record_of_loc].
    replace (n * 2 ^ j) with ((n * 2 ^ (j - Z.pos p)) * 2 ^ Z.pos p).
    + apply iter_shr_1_exact.
      assert (0 < 2 ^ (j - Z.pos p)) by (apply Z.pow_pos_nonneg; lia).
      nia.
    + rewrite <- Z.mul_assoc, <- Z.pow_add_r by lia. do 2 f_equal. lia.
  - replace (Z.max 0 (Z.neg p)) with 0 by lia.
    rewrite Z.sub_0_r, Z.add_0_r. reflexivity.
Qed.

(** Rounding a mantissa that holds an integer below [2^53] with zeros
    behind it loses nothing: only zeros are shifted out. *)
Lemma binary_round_aux_exact (s : bool) (n j e : Z) :
  0 < n < 2 ^ 53 -> 0 <= j -> 0 <= j + e <= 900 ->
  exists m' k,
    binary_round_aux 53 1024 s (n * 2 ^ j) e loc_Exact
    = S754_finite s m' (e + k)
    /\ 0 <= k <= j /\ Z.pos m' = n * 2 ^ (j - k).
Proof.
  intros Hn Hj Hje.
  assert (Hd : Zdigits2 n <= 53) by (apply Zdigits2_le_iff; lia).
  unfold binary_round_aux.
  rewrite shr_fexp_exact by lia.
  set (k := Z.max 0 (Zdigits2 n + j - 53)).
  assert (Hk : 0 <= k <= j) by (unfold k; lia).
  cbn [shr_m loc_of_shr_record shr_r shr_s round_nearest_even].
  rewrite shr_fexp_exact by lia.
  replace (Z.max 0 (Zdigits2 n + (j - k) - 53)) with 0 by (unfold k; lia).
  rewrite Z.sub_0_r, Z.add_0_r.
  cbn [shr_m].
  assert (Hp : 0 < n * 2 ^ (j - k)).
  { assert (0 < 2 ^ (j - k)) by (apply Z.pow_pos_nonneg; lia). nia. }
  destruct (n * 2 ^ (j - k)) as [|m'|m'] eqn:Hm; try lia.
  replace (e + k <=? 1024 - 53) with true by (symmetry; apply Z.leb_le; lia).
  exists m', k. auto.
Qed.

Lemma shl_align_exact (mx : positive) (ex ex' : Z) :
  snd (shl_align mx ex ex') = Z.min ex ex'
  /\ Z.pos (fst (shl_align mx ex ex'))
     = Z.pos mx * 2 ^ (ex - Z.min ex ex').
Proof.
  unfold shl_align.
  destruct (ex' - ex) as [|d|d] eqn:Hd; cbn [fst snd].
  - replace (Z.min ex ex') with ex by lia.
    rewrite Z.sub_diag, Z.pow_0_r. lia.
  - replace (Z.min ex ex') with ex by lia.
    rewrite Z.sub_diag, Z.pow_0_r. lia.
  - replace (Z.min ex ex') with ex' by lia.
    split; [reflexivity|].
    change (Pos.iter xO mx d) with (shift_pos d mx).
    rewrite shift_pos_correct.
    change (Z.pow_pos 2 d) with (2 ^ Z.pos d).
    replace (ex - ex') with (Z.pos d) by lia. ring.
Qed.

(** Normalising a mantissa that holds an integer of magnitude below
    [2^53], with zeros behind it, gives that integer. *)
Lemma binary_normalize_exact (z e : Z) :
  e <= 0 -> Z.abs z < 2 ^ 53 ->
  float_is (binary_normalize 53 1024 (z * 2 ^ (- e)) e false) z.
Proof.
  intros He Hz.
  assert (Hpe : 0 < 2 ^ (- e)) by (apply Z.pow_pos_nonneg; lia).
  assert (Hgen : forall s n m, 0 < n < 2 ^ 53 -> Z.pos m = n * 2 ^ (- e) ->
            float_is (binary_round 53 1024 s m e) (cond_Zopp s n)).
  { intros s n m Hn Hm. unfold binary_round.
    set (e' := fexp 53 1024 (Z.pos (digits2_pos m) + e)).
    pose proof (shl_align_exact m e e') as [H1 H2].
    destruct (shl_align m e e') as [mz ez]; cbn [fst snd] in H1, H2.
    assert (Hez : ez <= 0) by lia.
    assert (Hmz : Z.pos mz = n * 2 ^ (- ez)).
    { rewrite H2, Hm, <- Z.mul_assoc, <- Z.pow_add_r by lia.
      do 2 f_equal. lia. }
    rewrite Hmz.
    destruct (binary_round_aux_exact s n (- ez) ez Hn ltac:(lia) ltac:(lia))
      as (m' & k & E & L & V).
    rewrite E. cbn [float_is]. split; [lia|].
    rewrite V. replace (- (ez + k)) with (- ez - k) by lia.
    destruct s; cbn [cond_Zopp]; ring. }
  destruct z as [|n|n].
  - reflexivity.
  - destruct (Z.pos n * 2 ^ (- e)) as [|m|m] eqn:Hm; try nia.
    cbn [binary_normalize].
    apply (Hgen false (Z.pos n) m); [lia | symmetry; exact Hm].
  - destruct (Z.neg n * 2 ^ (- e)) as [|m|m] eqn:Hm; try nia.
    cbn [binary_normalize].
    apply (Hgen true (Z.pos n) m); [lia | nia].
Qed.

Lemma of_int_exact (z : Z) :
  Z.abs z < 2 ^ 53 ->
  exists f, Float64.of_int z = Ok f /\ float_is f z.
Proof.
  intros Hz. unfold Float64.of_int, Float64.prec, Float64.emax.
  pose proof (binary_normalize_exact z 0 ltac:(lia) Hz) as H.
  change (- 0) with 0 in H. rewrite Z.pow_0_r, Z.mul_1_r in H.
  destruct (binary_normalize 53 1024 z 0 false) as [s|s| |s m e];
    cbn [float_is] in H; try contradiction; eexists; split;
    try reflexivity; assumption.
Qed.

Lemma add_exact (x y : spec_float) (a b : Z) :
  float_is x a -> float_is y b -> Z.abs (a + b) < 2 ^ 53 ->
  float_is (Float64.add x y) (a + b).
Proof.
  unfold Float64.add, Float64.prec, Float64.emax.
  intros Hx Hy Hab.
  destruct x as [sx|sx| |sx mx ex], y as [sy|sy| |sy my ey];
    cbn [float_is] in Hx, Hy; try contradiction.
  - subst. destruct sx, sy; reflexivity.
  - subst. exact Hy.
  - subst. rewrite Z.add_0_r. exact Hx.
  - destruct Hx as [Hex Hx], Hy as [Hey Hy].
    cbn [SFadd].
    pose proof (shl_align_exact mx ex (Z.min ex ey)) as [_ Ax].
    pose proof (shl_align_exact my ey (Z.min ex ey)) as [_ Ay].
    set (ez := Z.min ex ey) in *.
    replace (Z.min ex ez) with ez in Ax by lia.
    replace (Z.min ey ez) with ez in Ay by lia.
    assert (Hsum : cond_Zopp sx (Z.pos (fst (shl_align mx ex ez)))
                   + cond_Zopp sy (Z.pos (fst (shl_align my ey ez)))
                   = (a + b) * 2 ^ (- ez)).
    { assert (Ea : cond_Zopp sx (Z.pos (fst (shl_align mx ex ez)))
                   = a * 2 ^ (- ez)).
      { replace (- ez) with (- ex + (ex - ez)) by lia.
        rewrite Z.pow_add_r, Z.mul_assoc, <- Hx by lia.
        rewrite Ax. destruct sx; cbn [cond_Zopp]; ring. }
      assert (Eb : cond_Zopp sy (Z.pos (fst (shl_align my ey ez)))
                   = b * 2 ^ (- ez)).
      { replace (- ez) with (- ey + (ey - ez)) by lia.
        rewrite Z.pow_add_r, Z.mul_assoc, <- Hy by lia.
        rewrite Ay. destruct sy; cbn [cond_Zopp]; ring. }
      rewrite Ea, Eb. ring. }
    rewrite Hsum. apply binary_normalize_exact; lia.
Qed.

Lemma shiftl_mul_pow2 (n j e : Z) :
  0 <= j -> 0 <= j + e -> Z.shiftl (n * 2 ^ j) e = n * 2 ^ (j + e).
Proof.
  intros Hj Hje. destruct (Z_le_gt_dec 0 e) as [He|He].
  - rewrite Z.shiftl_mul_pow2, <- Z.mul_assoc, <- Z.pow_add_r by lia.
    reflexivity.
  - rewrite Z.shiftl_div_pow2 by lia.
    replace j with ((j + e) + - e) at 1 by lia.
    rewrite Z.pow_add_r, Z.mul_assoc by lia.
    apply Z.div_mul.
    assert (0 < 2 ^ (- e)) by (apply Z.pow_pos_nonneg; lia). lia.
Qed.

(** The product of two floats that are integers, taken back to an
    [int], is the product of the integers whenever that has at most 53
    significant bits. *)
Lemma mul_to_int_exact (x y : spec_float) (a b n i : Z) :
  float_is x a -> float_is y b ->
  0 <= n < 2 ^ 53 -> 0 <= i <= 900 -> Z.abs (a * b) = n * 2 ^ i ->
  Float64.to_int (Float64.mul x y) = Ok (a * b).
Proof.
  unfold Float64.mul, Float64.prec, Float64.emax.
  intros Hx Hy Hn Hi Hab.
  destruct x as [sx|sx| |sx mx ex], y as [sy|sy| |sy my ey];
    cbn [float_is] in Hx, Hy; try contradiction;
    try (subst; cbn [SFmul Float64.to_int]; f_equal; ring).
  destruct Hx as [Hex Hx], Hy as [Hey Hy].
  cbn [SFmul].
  assert (Hpx : 0 < 2 ^ (- ex)) by (apply Z.pow_pos_nonneg; lia).
  assert (Hpy : 0 < 2 ^ (- ey)) by (apply Z.pow_pos_nonneg; lia).
  assert (Hpi : 0 < 2 ^ i) by (apply Z.pow_pos_nonneg; lia).
  assert (Ha : Z.pos mx = Z.abs a * 2 ^ (- ex)).
  { destruct sx; cbn [cond_Zopp] in Hx; nia. }
  assert (Hb : Z.pos my = Z.abs b * 2 ^ (- ey)).
  { destruct sy; cbn [cond_Zopp] in Hy; nia. }
  assert (Hn0 : 0 < n).
  { assert (0 < Z.abs (a * b)) by (rewrite Z.abs_mul; nia). nia. }
  assert (Hm : Z.pos (mx * my) = n * 2 ^ (i - (ex + ey))).
  { rewrite Pos2Z.inj_mul, Ha, Hb.
    replace (i - (ex + ey)) with (i + - ex + - ey) by lia.
    rewrite !Z.pow_add_r, !Z.mul_assoc, <- Hab, Z.abs_mul by lia. ring. }
  rewrite Hm.
  destruct (binary_round_aux_exact (xorb sx sy) n (i - (ex + ey)) (ex + ey)
              ltac:(lia) ltac:(lia) ltac:(lia)) as (m' & k & E & L & V).
  rewrite E. cbn [Float64.to_int]. f_equal.
  rewrite V, shiftl_mul_pow2 by lia.
  replace (i - (ex + ey) - k + (ex + ey + k)) with i by lia.
  rewrite <- Hab.
  destruct sx, sy; cbn [cond_Zopp xorb] in *; nia.
Qed.

Lemma to_int_exact (f : spec_float) (z : Z) :
  float_is f z -> Float64.to_int f = Ok z.
Proof.
  destruct f as [s|s| |s m e]; cbn [float_is Float64.to_int];
    try contradiction.
  - intros ->. reflexivity.
  - intros [He Hv]. f_equal.
    assert (Hp : 0 < 2 ^ (- e)) by (apply Z.pow_pos_nonneg; lia).
    rewrite Z.shiftl_div_pow2 by exact He.
    destruct s; cbn [cond_Zopp] in *.
    + replace (Z.pos m) with ((- z) * 2 ^ (- e)) by lia.
      rewrite Z.div_mul by lia. lia.
    + rewrite Hv, Z.div_mul by lia. reflexivity.
Qed.

(** The binary64 divider, run on a multiple of the divisor: the quotient
    is exact when it is below [2^53]. *)
Lemma SFdiv_exact (s : bool) (n : Z) (pa pb : positive) :
  0 < n < 2 ^ 53 -> Z.pos pa = n * Z.pos pb ->
  exists m' k,
    SFdiv 53 1024 (S754_finite s pa 0) (S754_finite false pb 0)
    = S754_finite s m' k
    /\ k <= 0 /\ Z.pos m' = n * 2 ^ (- k).
Proof.
  intros Hn Ha.
  cbn [SFdiv]. rewrite xorb_false_r.
  unfold SFdiv_core_binary.
  set (e' := Z.min (fexp 53 1024 (Zdigits2 (Z.pos pa) + 0
                                  - (Zdigits2 (Z.pos pb) + 0))) (0 - 0)).
  assert (He' : e' <= 0) by (unfold e'; lia).
  assert (Hpe : 0 < 2 ^ (- e')) by (apply Z.pow_pos_nonneg; lia).
  assert (Hm : match 0 - 0 - e' with
               | Z.pos _ => Z.shiftl (Z.pos pa) (0 - 0 - e')
               | 0 => Z.pos pa
               | Z.neg _ => 0
               end = (n * 2 ^ (- e')) * Z.pos pb).
  { destruct (0 - 0 - e') as [|p|p] eqn:Hs; try lia.
    - replace (- e') with 0 by lia. rewrite Z.pow_0_r. lia.
    - rewrite Z.shiftl_mul_pow2 by lia.
      replace (- e') with (Z.pos p) by lia. rewrite Ha. ring. }
  rewrite Hm.
  assert (Hq : (n * 2 ^ (- e')) * Z.pos pb / Z.pos pb = n * 2 ^ (- e'))
    by (apply Z.div_mul; lia).
  assert (Hr : ((n * 2 ^ (- e')) * Z.pos pb) mod Z.pos pb = 0)
    by (apply Z.mod_mul; lia).
  unfold Z.div, Z.modulo in Hq, Hr.
  destruct (Z.div_eucl (n * 2 ^ (- e') * Z.pos pb) (Z.pos pb)) as [q r].
  subst q r.
  assert (Hloc : new_location (Z.pos pb) 0 = loc_Exact).
  { unfold new_location, new_location_even, new_location_odd.
    destruct (Z.even (Z.pos pb)); reflexivity. }
  rewrite Hloc.
  destruct (binary_round_aux_exact s n (- e') e'
              ltac:(lia) ltac:(lia) ltac:(lia)) as (m' & k & E & L & V).
  rewrite E. exists m', (e' + k). split; [reflexivity|].
  split; [lia|]. rewrite V. do 2 f_equal. lia.
Qed.

(** A quotient of two integers that is an integer of magnitude below
    [2^53] is that integer. *)
Lemma int_truediv_exact (z b : Z) :
  0 < b -> Z.abs z < 2 ^ 53 ->
  exists f, int_truediv (z * b) b = Ok f /\ float_is f z.
Proof.
  intros Hb Hz. unfold int_truediv, Float64.prec, Float64.emax.
  destruct b as [|pb|pb]; try lia.
  destruct (z * Z.pos pb) as [|pa|pa] eqn:Ha.
  - exists (S754_zero false). split; [reflexivity|]. cbn [float_is]. nia.
  - destruct (SFdiv_exact false (Z.abs z) pa pb ltac:(nia) ltac:(nia))
      as (m' & k & E & L & V).
    cbn [Z.abs Z.to_pos Z.ltb Z.compare]. rewrite E.
    eexists. split; [reflexivity|]. cbn [float_is cond_Zopp].
    split; [exact L|]. nia.
  - destruct (SFdiv_exact true (Z.abs z) pa pb ltac:(nia) ltac:(nia))
      as (m' & k & E & L & V).
    cbn [Z.abs Z.to_pos Z.ltb Z.compare]. rewrite E.
    eexists. split; [reflexivity|]. cbn [float_is cond_Zopp].
    split; [exact L|]. nia.
Qed.

(** ** FILETIME conversion *)

Lemma _dt_to_filetime_whole (dt : PyTime.datetime) :
  PyTime.microsecond dt = 0 ->
  0 <= (PyTime.timestamp dt + 11644473600) * 10000000 < 2 ^ 60 ->
  _dt_to_filetime dt
  = Ok {| dwLowDateTime :=
            ((PyTime.timestamp dt + 11644473600) * 10000000) mod 2 ^ 32;
          dwHighDateTime :=
            ((PyTime.timestamp dt + 11644473600) * 10000000) / 2 ^ 32 |}.
Proof.
  intros Hus Hr.
  set (t := PyTime.timestamp dt) in *.
  assert (Ht : -11644473600 <= t < 2 ^ 40) by lia.
  unfold _dt_to_filetime, timestamp_float. fold t.
  rewrite Hus, Z.add_0_r.
  destruct (int_truediv_exact t (10 ^ 6) ltac:(lia) ltac:(lia))
    as (u & -> & Hu).
  cbn [bind].
  destruct (of_int_exact _EPOCH_AS_FILETIME ltac:(unfold _EPOCH_AS_FILETIME; lia))
    as (e & -> & He).
  cbn [bind].
  destruct (of_int_exact _HUNDREDS_OF_NS ltac:(unfold _HUNDREDS_OF_NS; lia))
    as (c & -> & Hc).
  cbn [bind].
  unfold _EPOCH_AS_FILETIME in He. unfold _HUNDREDS_OF_NS in Hc.
  pose proof (add_exact u e t 11644473600 Hu He ltac:(lia)) as Hs.
  rewrite (mul_to_int_exact _ _ _ _ ((t + 11644473600) * 78125) 7 Hs Hc)
    by lia.
  cbn [bind]. unfold c_uint32.
  set (F := (t + 11644473600) * 10000000) in *.
  change 0xFFFFFFFF with (Z.ones 32).
  rewrite Z.land_ones, Z.shiftr_div_pow2 by lia.
  rewrite Z.mod_mod by lia.
  rewrite (Z.mod_small (F / 2 ^ 32)); [reflexivity|].
  split; [apply Z.div_pos; lia|].
  apply Z.div_lt_upper_bound; lia.
Qed.

(** From 1601 until the 100 ns count reaches [2^60] (in the year 5254),
    the conversion of a whole-second instant is exact: no float rounding
    and no 32-bit truncation, the two words are the low and high halves
    of (seconds since 1601) times ten million. *)
Theorem _dt_to_filetime_exact (dt : PyTime.datetime) :
  PyTime.microsecond dt = 0 ->
  0 <= (PyTime.timestamp dt + 11644473600) * 10000000 < 2 ^ 60 ->
  exists ft,
    _dt_to_filetime dt = Ok ft
    /\ filetime_value ft = (PyTime.timestamp dt + 11644473600) * 10000000
    /\ 0 <= dwLowDateTime ft < 2 ^ 32
    /\ 0 <= dwHighDateTime ft < 2 ^ 28.
Proof.
  intros Hus Hr. eexists. split; [apply _dt_to_filetime_whole; assumption|].
  unfold filetime_value. cbn [dwLowDateTime dwHighDateTime].
  set (F := (PyTime.timestamp dt + 11644473600) * 10000000) in *.
  split; [|split].
  - rewrite (Z.div_mod F (2 ^ 32)) at 3 by lia. ring.
  - apply Z.mod_pos_bound. lia.
  - split; [apply Z.div_pos; lia|].
    apply Z.div_lt_upper_bound; lia.
Qed.

Lemma _dt_to_filetime_exact_witness :
  exists ft,
    _dt_to_filetime FIXED_BASE_UTC = Ok ft
    /\ filetime_value ft
       = (PyTime.timestamp FIXED_BASE_UTC + 11644473600) * 10000000
    /\ 0 <= dwLowDateTime ft < 2 ^ 32
    /\ 0 <= dwHighDateTime ft < 2 ^ 28.
Proof.
  apply (_dt_to_filetime_exact FIXED_BASE_UTC).
  - reflexivity.
  - vm_compute. split; [discriminate | reflexivity].
Defined.


(** ** Setting the times: the walk and the handles *)

Lemma fs_entry_induction (P : fs_entry -> Prop) :
  (forall n, P (fs_file n)) ->
  (forall n, P (fs_dir n None)) ->
  (forall n es, Forall P es -> P (fs_dir n (Some es))) ->
  forall e, P e.
Proof.
  intros Hf Hn Hd. fix IH 1. intros [n|n [es|]].
  - apply Hf.
  - apply Hd. induction es as [|x r IHr]; constructor; [apply IH | exact IHr].
  - apply Hn.
Qed.

Lemma fold_left_flat_map {A B C : Type} (f : A -> C -> A) (g : B -> list C)
    (l : list B) : forall st,
  fold_left f (flat_map g l) st
  = fold_left (fun st x => fold_left f (g x) st) l st.
Proof.
  induction l as [|x r IH]; intros st; cbn [flat_map fold_left].
  - reflexivity.
  - rewrite fold_left_app. apply IH.
Qed.

Lemma fold_left_map_l {A B C : Type} (f : A -> C -> A) (g : B -> C)
    (l : list B) : forall st,
  fold_left f (map g l) st = fold_left (fun st x => f st (g x)) l st.
Proof.
  induction l as [|x r IH]; intros st; cbn [map fold_left];
    [reflexivity | apply IH].
Qed.

Lemma fold_left_ext_l {A B : Type} (f g : A -> B -> A) (l : list B) :
  (forall st x, f st x = g st x) ->
  forall st, fold_left f l st = fold_left g l st.
Proof.
  intros E. induction l as [|x r IH]; intros st; cbn [fold_left];
    [reflexivity | rewrite E; apply IH].
Qed.

(** The walk is a run of attempts, the root last. *)
Lemma _set_folder_and_contents_times_attempts {World : Type}
    (os : Win32 World) (join : string -> string -> string)
    (tree : fs_entry) (root_folder : string) (dt_utc : PyTime.datetime)
    (verbose : bool) (w : World) :
  _set_folder_and_contents_times os join tree root_folder dt_utc verbose w
  = run_attempts os dt_utc verbose
      (walk_attempts join root_folder tree ++ [("ROOT", root_folder)])%list
      ([], w).
Proof.
  unfold _set_folder_and_contents_times, run_attempts, walk_attempts.
  rewrite fold_left_app. cbn [fold_left fst snd]. f_equal.
  rewrite fold_left_flat_map.
  apply fold_left_ext_l. intros st [[dirpath dnames] fnames].
  rewrite fold_left_app, !fold_left_map_l. reflexivity.
Qed.

(** The five ways in which one call of [_set_times_windows] can go. *)
Lemma _set_times_windows_cases {World : Type} (os : Win32 World)
    (path : string) (dt_utc : PyTime.datetime) (w : World) :
  let r := fst (fst (_set_times_windows os path dt_utc w)) in
  let calls := snd (fst (_set_times_windows os path dt_utc w)) in
  (r = Raise OSError /\ calls = [Called_CreateFileW path None])
  \/ (r = Raise OSError
      /\ calls = [Called_CreateFileW path (Some (c_void_p_minus_1 os))])
  \/ (exists hd e,
        hd <> c_void_p_minus_1 os /\ _dt_to_filetime dt_utc = Raise e
        /\ r = Raise e
        /\ calls = [Called_CreateFileW path (Some hd);
                    Called_CloseHandle hd])
  \/ (exists hd ft,
        hd <> c_void_p_minus_1 os /\ _dt_to_filetime dt_utc = Ok ft
        /\ r = Raise OSError
        /\ calls = [Called_CreateFileW path (Some hd);
                    Called_SetFileTime hd ft ft ft false;
                    Called_CloseHandle hd])
  \/ (exists hd ft,
        hd <> c_void_p_minus_1 os /\ _dt_to_filetime dt_utc = Ok ft
        /\ r = Ok tt
        /\ calls = [Called_CreateFileW path (Some hd);
                    Called_SetFileTime hd ft ft ft true;
                    Called_CloseHandle hd]).
Proof.
  unfold _set_times_windows.
  destruct (CreateFileW os path _ _ _ _ w) as [[hd|] w1]; cbn [fst snd].
  2: { left. split; reflexivity. }
  destruct (Z.eqb_spec hd (c_void_p_minus_1 os)) as [E|E]; cbn [fst snd].
  { right. left. subst hd. split; reflexivity. }
  destruct (_dt_to_filetime dt_utc) as [ft|e]; cbn [fst snd].
  - destruct (SetFileTime os hd ft ft ft w1) as [[|] w2]; cbn [fst snd app].
    + do 4 right. exists hd, ft. repeat split; assumption.
    + do 3 right. left. exists hd, ft. repeat split; assumption.
  - do 2 right. left. exists hd, e. cbn [app]. repeat split; assumption.
Qed.

Lemma disciplined_app (invalid : Z) (dt_utc : PyTime.datetime)
    (a b : list event) :
  disciplined invalid dt_utc a -> disciplined invalid dt_utc b ->
  disciplined invalid dt_utc (a ++ b).
Proof.
  intros Ha Hb. induction Ha; cbn [app]; try assumption;
    econstructor; eassumption.
Qed.

(** What one attempt adds to the log. *)
Lemma try_set_times_log {World : Type} (os : Win32 World)
    (dt_utc : PyTime.datetime) (verbose : bool) (st : list event * World)
    (kind path : string) :
  exists added,
    fst (try_set_times os dt_utc verbose st kind path)
    = (fst st ++ added)%list
    /\ disciplined (c_void_p_minus_1 os) dt_utc added
    /\ opened_paths added = [path]
    /\ ((1 <= List.length (filter is_success added)
              + List.length (filter is_warning added))%nat
        /\ (verbose = false ->
            (List.length (filter is_success added)
             + List.length (filter is_warning added) = 1)%nat)
        /\ (List.length (filter is_stdout added)
            <= List.length (filter is_success added))%nat)
    /\ (verbose = true -> reports added = [(kind, path)]).
Proof.
  unfold try_set_times.
  pose proof (_set_times_windows_cases os path dt_utc (snd st)) as H.
  destruct (_set_times_windows os path dt_utc (snd st)) as [[r calls] w1].
  cbn [fst snd] in *.
  destruct H as [[-> ->]|[[-> ->]|[(hd & e & Hv & Hc & -> & ->)
                |[(hd & ft & Hv & Hc & -> & ->)
                 |(hd & ft & Hv & Hc & -> & ->)]]]].
  - eexists. split; [reflexivity|]. cbn [app filter is_success is_warning
      is_stdout List.length opened_paths reports flat_map].
    repeat split; try reflexivity; try lia.
    apply disciplined_refused, disciplined_stderr, disciplined_nil.
  - eexists. split; [reflexivity|]. cbn [app filter is_success is_warning
      is_stdout List.length opened_paths reports flat_map].
    repeat split; try reflexivity; try lia.
    apply disciplined_invalid, disciplined_stderr, disciplined_nil.
  - eexists. split; [reflexivity|]. cbn [app filter is_success is_warning
      is_stdout List.length opened_paths reports flat_map].
    repeat split; try reflexivity; try lia.
    eapply disciplined_unconverted; [exact Hv | exact Hc |].
    apply disciplined_stderr, disciplined_nil.
  - eexists. split; [reflexivity|]. cbn [app filter is_success is_warning
      is_stdout List.length opened_paths reports flat_map].
    repeat split; try reflexivity; try lia.
    eapply disciplined_set; [exact Hv | exact Hc |].
    apply disciplined_stderr, disciplined_nil.
  - destruct verbose.
    + destruct (print_stdout os kind path w1) as [[e|] w2].
      * eexists. split; [reflexivity|]. cbn [app filter is_success
          is_warning is_stdout List.length opened_paths reports flat_map].
        repeat split; try reflexivity; try lia; try discriminate.
        eapply disciplined_set; [exact Hv | exact Hc |].
        apply disciplined_stderr, disciplined_nil.
      * eexists. split; [reflexivity|]. cbn [app filter is_success
          is_warning is_stdout List.length opened_paths reports flat_map].
        repeat split; try reflexivity; try lia; try discriminate.
        eapply disciplined_set; [exact Hv | exact Hc |].
        apply disciplined_stdout, disciplined_nil.
    + eexists. split; [reflexivity|]. cbn [app filter is_success
        is_warning is_stdout List.length opened_paths reports flat_map].
      repeat split; try reflexivity; try lia; try discriminate.
      eapply disciplined_set; [exact Hv | exact Hc |].
      apply disciplined_nil.
Qed.

Lemma opened_paths_app (a b : list event) :
  opened_paths (a ++ b) = (opened_paths a ++ opened_paths b)%list.
Proof. apply flat_map_app. Qed.

Lemma reports_app (a b : list event) :
  reports (a ++ b) = (reports a ++ reports b)%list.
Proof. apply flat_map_app. Qed.

(** What a run of attempts adds to the log. *)
Lemma run_attempts_log {World : Type} (os : Win32 World)
    (dt_utc : PyTime.datetime) (verbose : bool)
    (attempts : list (string * string)) : forall st,
  exists added,
    fst (run_attempts os dt_utc verbose attempts st)
    = (fst st ++ added)%list
    /\ disciplined (c_void_p_minus_1 os) dt_utc added
    /\ opened_paths added = map snd attempts
    /\ ((List.length attempts
         <= List.length (filter is_success added)
            + List.length (filter is_warning added))%nat
        /\ (verbose = false ->
            (List.length (filter is_success added)
             + List.length (filter is_warning added)
             = List.length attempts)%nat)
        /\ (List.length (filter is_stdout added)
            <= List.length (filter is_success added))%nat)
    /\ (verbose = true -> reports added = attempts).
Proof.
  induction attempts as [|[kind path] rest IH]; intros st;
    cbn [run_attempts fold_left fst snd].
  - exists []. rewrite app_nil_r. cbn [filter List.length].
    repeat split; try constructor; try lia.
  - destruct (try_set_times_log os dt_utc verbose st kind path)
      as (a1 & E1 & D1 & P1 & (C1 & C1' & C1'') & R1).
    destruct (IH (try_set_times os dt_utc verbose st kind path))
      as (a2 & E2 & D2 & P2 & (C2 & C2' & C2'') & R2).
    exists (a1 ++ a2)%list.
    unfold run_attempts in E2. rewrite E2, E1, app_assoc.
    split; [reflexivity|].
    split; [apply disciplined_app; assumption|].
    split; [rewrite opened_paths_app, P1, P2; reflexivity|].
    rewrite !filter_app, !length_app. cbn [List.length].
    split; [split; [lia|split; [|lia]]|].
    + intros V. specialize (C1' V). specialize (C2' V). lia.
    + intros V. rewrite reports_app, R1, R2 by exact V. reflexivity.
Qed.

(** Files first, then directories, then what is inside the directories:
    the order of the walk is a rearrangement of the entries each
    followed by its contents. *)
Lemma walk_attempts_all_paths (join : string -> string -> string)
    (e : fs_entry) : forall top,
  Permutation (map snd (walk_attempts join top e)) (all_paths join top e).
Proof.
  induction e as [n|n|n es IH] using fs_entry_induction; intros top;
    try apply perm_nil.
  unfold walk_attempts. cbn [os_walk all_paths flat_map].
  rewrite !map_app, !map_map. cbn [snd].
  set (sub := fun c => match c with
                       | fs_file _ => []
                       | fs_dir n0 _ => os_walk join (join top n0) c
                       end).
  set (att := fun '(dirpath, dnames, fnames) =>
                (map (fun fname => ("file", join dirpath fname)) fnames
                 ++ map (fun dname => ("dir", join dirpath dname)) dnames)%list).
  assert (Hsub : forall c, In c es ->
            Permutation (map snd (flat_map att (sub c)))
                        (all_paths join (join top (entry_name c)) c)).
  { intros c Hc. rewrite Forall_forall in IH. specialize (IH c Hc).
    destruct c as [m|m l]; cbn [sub entry_name].
    - apply perm_nil.
    - apply (IH (join top m)). }
  clear IH.
  induction es as [|c r IHr].
  - apply perm_nil.
  - assert (Hr : forall c0, In c0 r ->
              Permutation (map snd (flat_map att (sub c0)))
                          (all_paths join (join top (entry_name c0)) c0))
      by (intros c0 H0; apply Hsub; right; exact H0).
    specialize (IHr Hr).
    pose proof (Hsub c (or_introl eq_refl)) as Hc.
    destruct c as [m|m l].
    + change (filenames (fs_file m :: r)) with (m :: filenames r).
      change (dirnames (fs_file m :: r)) with (dirnames r).
      change (flat_map sub (fs_file m :: r)) with (flat_map sub r).
      cbn [flat_map entry_name all_paths map app].
      apply perm_skip. exact IHr.
    + change (filenames (fs_dir m l :: r)) with (filenames r).
      change (dirnames (fs_dir m l :: r)) with (m :: dirnames r).
      change (flat_map sub (fs_dir m l :: r))
        with (sub (fs_dir m l) ++ flat_map sub r)%list.
      rewrite flat_map_app, map_app.
      cbn [flat_map entry_name map app] in *.
      rewrite <- app_assoc. cbn [app].
      rewrite <- Permutation_middle. apply perm_skip.
      rewrite app_assoc.
      etransitivity; [apply Permutation_app_swap_app|].
      apply Permutation_app; [exact Hc|exact IHr].
Qed.

(** Every handle that is opened is closed, once, before the next path
    is tried, also when [SetFileTime] fails or the conversion of the
    instant raises; nothing is done with a null or invalid handle; and
    the only other call on a handle is one [SetFileTime] whose three
    times are the conversion of the instant. This holds whatever the
    system answers. *)
Theorem handles_are_closed {World : Type} (os : Win32 World)
    (join : string -> string -> string) (tree : fs_entry)
    (root_folder : string) (dt_utc : PyTime.datetime) (verbose : bool)
    (w : World) :
  disciplined (c_void_p_minus_1 os) dt_utc
    (fst (_set_folder_and_contents_times os join tree root_folder dt_utc
            verbose w)).
Proof.
  rewrite _set_folder_and_contents_times_attempts.
  destruct (run_attempts_log os dt_utc verbose
              (walk_attempts join root_folder tree
               ++ [("ROOT", root_folder)])%list ([], w))
    as (added & E & D & _).
  rewrite E. exact D.
Qed.

(** Whatever the system answers, the walk tries every path below the
    root folder once, and the root folder itself last: no failure stops
    it or makes it skip a path. *)
Theorem every_path_is_tried_once {World : Type} (os : Win32 World)
    (join : string -> string -> string) (tree : fs_entry)
    (root_folder : string) (dt_utc : PyTime.datetime) (verbose : bool)
    (w : World) :
  exists below,
    opened_paths
      (fst (_set_folder_and_contents_times os join tree root_folder dt_utc
              verbose w))
    = (below ++ [root_folder])%list
    /\ Permutation below (all_paths join root_folder tree).
Proof.
  rewrite _set_folder_and_contents_times_attempts.
  destruct (run_attempts_log os dt_utc verbose
              (walk_attempts join root_folder tree
               ++ [("ROOT", root_folder)])%list ([], w))
    as (added & E & _ & P & _).
  rewrite E. cbn [fst app]. rewrite P, map_app. cbn [map snd].
  eexists. split; [reflexivity|]. apply walk_attempts_all_paths.
Qed.


Lemma disciplined_stamps (invalid : Z) (dt_utc : PyTime.datetime)
    (ft0 : FILETIME) (log : list event) :
  _dt_to_filetime dt_utc = Ok ft0 ->
  disciplined invalid dt_utc log ->
  Forall (stamp_is (filetime_value ft0)) log.
Proof.
  intros H0 D. induction D; repeat constructor; try assumption.
  assert (E : ft = ft0) by (apply Ok_inj; congruence).
  rewrite E. reflexivity.
Qed.

(** From 1601 until the count reaches [2^60], whatever the system
    answers, every time that the walk writes for a whole-second instant,
    on the files, the directories and the root folder, is that instant
    exactly, and creation, access and write time are the same. *)
Theorem every_stamp_is_the_instant {World : Type} (os : Win32 World)
    (join : string -> string -> string) (tree : fs_entry)
    (root_folder : string) (dt_utc : PyTime.datetime) (verbose : bool)
    (w : World) :
  PyTime.microsecond dt_utc = 0 ->
  0 <= (PyTime.timestamp dt_utc + 11644473600) * 10000000 < 2 ^ 60 ->
  Forall (stamp_is ((PyTime.timestamp dt_utc + 11644473600) * 10000000))
    (fst (_set_folder_and_contents_times os join tree root_folder dt_utc
            verbose w)).
Proof.
  intros Hus Hr.
  pose proof (_dt_to_filetime_whole dt_utc Hus Hr) as Hft.
  rewrite _set_folder_and_contents_times_attempts.
  destruct (run_attempts_log os dt_utc verbose
              (walk_attempts join root_folder tree
               ++ [("ROOT", root_folder)])%list ([], w))
    as (added & E & D & _).
  rewrite E. cbn [fst app].
  pose proof (disciplined_stamps _ _ _ _ Hft D) as H.
  unfold filetime_value in H. cbn [dwLowDateTime dwHighDateTime] in H.
  set (F := (PyTime.timestamp dt_utc + 11644473600) * 10000000) in *.
  replace (F mod 2 ^ 32 + 2 ^ 32 * (F / 2 ^ 32)) with F in H; [exact H|].
  rewrite (Z.div_mod F (2 ^ 32)) at 1 by lia. ring.
Qed.

Lemma every_stamp_witness :
  Forall (stamp_is ((PyTime.timestamp FIXED_BASE_UTC + 11644473600)
                    * 10000000))
    (fst (_set_folder_and_contents_times obliging
            (fun a b => a ++ "/" ++ b)
            (fs_dir "BOOT" (Some [fs_file "icon.sys";
                                  fs_dir "data" (Some [fs_file "save"])]))
            "BOOT" FIXED_BASE_UTC false tt)).
Proof.
  apply every_stamp_is_the_instant.
  - reflexivity.
  - vm_compute. split; [discriminate | reflexivity].
Defined.

(** ** The whole run *)





(** ** Directories and their contents *)

Lemma before_chunks (l0 l1 l2 : list string) (a b : string) :
  In a l1 -> In b l2 -> before (l0 ++ l1 ++ l2) a b.
Proof.
  intros Ha Hb.
  apply in_split in Ha as (x1 & x2 & ->).
  apply in_split in Hb as (y1 & y2 & ->).
  exists (l0 ++ x1)%list, (x2 ++ y1)%list, y2.
  repeat (rewrite <- app_assoc || rewrite <- app_comm_cons). reflexivity.
Qed.

Lemma before_embedded (x l y : list string) (a b : string) :
  before l a b -> before (x ++ l ++ y) a b.
Proof.
  intros (l1 & l2 & l3 & ->).
  exists (x ++ l1)%list, l2, (l3 ++ y)%list.
  repeat (rewrite <- app_assoc || rewrite <- app_comm_cons). reflexivity.
Qed.

(** In the walk a directory comes before everything inside it. *)
Lemma walk_attempts_before (join : string -> string -> string)
    (top : string) (e : fs_entry) (p : string) (c : fs_entry) (q : string) :
  inside join top e p c -> In q (all_paths join p c) ->
  before (map snd (walk_attempts join top e)) p q.
Proof.
  intros Hin. induction Hin as [top n es c Hc|top n es c p d Hc Hin IH];
    intros Hq.
  - destruct c as [m|m l]; [destruct Hq|].
    cbn [entry_name] in *.
    apply in_split in Hc as (es1 & es2 & ->).
    unfold walk_attempts. cbn [os_walk flat_map].
    rewrite !map_app, !map_map. cbn [snd].
    rewrite <- app_assoc. apply before_chunks.
    + apply in_map_iff. exists m. split; [reflexivity|].
      unfold dirnames. rewrite flat_map_app. apply in_or_app. right.
      cbn [flat_map]. left. reflexivity.
    + rewrite !flat_map_app, !map_app. cbn [flat_map].
      rewrite !flat_map_app, !map_app.
      apply in_or_app. right. apply in_or_app. left.
      apply (Permutation_in q
               (Permutation_sym (walk_attempts_all_paths join (fs_dir m l)
                                   (join top m)))).
      exact Hq.
  - specialize (IH Hq).
    destruct c as [m|m l]; [inversion Hin|].
    cbn [entry_name] in *.
    apply in_split in Hc as (es1 & es2 & ->).
    unfold walk_attempts. cbn [os_walk flat_map].
    rewrite !flat_map_app, !map_app. cbn [flat_map].
    rewrite !flat_map_app, !map_app.
    rewrite app_assoc. apply before_embedded. exact IH.
Qed.

(** Only the root folder is set after its contents: whatever is found
    at any depth below it is tried before everything that is inside it,
    so a sub-directory has its times set before its own files are
    touched. *)
Theorem directory_before_its_contents {World : Type} (os : Win32 World)
    (join : string -> string -> string) (tree : fs_entry)
    (root_folder : string) (dt_utc : PyTime.datetime) (verbose : bool)
    (w : World) (p : string) (c : fs_entry) (q : string) :
  inside join root_folder tree p c ->
  In q (all_paths join p c) ->
  before (opened_paths
            (fst (_set_folder_and_contents_times os join tree root_folder
                    dt_utc verbose w)))
         p q.
Proof.
  intros Hin Hq.
  rewrite _set_folder_and_contents_times_attempts.
  destruct (run_attempts_log os dt_utc verbose
              (walk_attempts join root_folder tree
               ++ [("ROOT", root_folder)])%list ([], w))
    as (added & E & _ & P & _).
  rewrite E. cbn [fst app]. rewrite P, map_app.
  apply (before_embedded [] _ _ p q).
  apply walk_attempts_before with (c := c); assumption.
Qed.

Lemma directory_before_witness :
  before (opened_paths
            (fst (_set_folder_and_contents_times obliging
                    (fun a b => a ++ "/" ++ b)
                    (fs_dir "BOOT" (Some [fs_dir "data" (Some [fs_file "save"]);
                                          fs_file "icon.sys"]))
                    "BOOT" FIXED_BASE_UTC false tt)))
         "BOOT/data" "BOOT/data/save".
Proof.
  apply directory_before_its_contents
    with (c := fs_dir "data" (Some [fs_file "save"])).
  - apply (inside_here (fun a b => a ++ "/" ++ b) "BOOT" "BOOT"
             [fs_dir "data" (Some [fs_file "save"]); fs_file "icon.sys"]
             (fs_dir "data" (Some [fs_file "save"]))).
    left. reflexivity.
  - left. reflexivity.
Defined.
